(** * Account synchronisation of the wallet ([account.go]): a shallow embedding

    The Go methods of [Account] are embedded as Rocq functions over an
    explicit world state.  Machine integers are [Z] with their wrap-around
    written out, [float64] is the IEEE-754 binary64 format of
    [SpecFloat], byte slices are lists of [Byte.byte], Go maps are
    [gmap]s, and every interaction with a collaborator that lives outside
    [account.go] (the key store, the disk, btcd, the frontends, the log)
    is recorded in a trace of events. *)

From Stdlib Require Import ZArith Lia List.
From Stdlib Require Import Strings.Byte Strings.Ascii Strings.String.
From Stdlib Require Import Floats.SpecFloat.
From stdpp Require Import gmap strings list pretty.

#[local] Set Warnings "-register-all".
#[local] Open Scope Z_scope.

(** ** Machine integers *)

Module GoInt.

(** Two's-complement wrap-around of a signed [w]-bit integer. *)
Definition wrap_signed (w z : Z) : Z := (z + 2 ^ (w - 1)) mod 2 ^ w - 2 ^ (w - 1).

Definition int32 (z : Z) : Z := wrap_signed 32 z.
Definition uint64 (z : Z) : Z := z mod 2 ^ 64.

Definition int32_sub (a b : Z) : Z := int32 (a - b).
Definition int32_add (a b : Z) : Z := int32 (a + b).
Definition uint64_add (a b : Z) : Z := uint64 (a + b).

End GoInt.

(** ** float64 *)

Definition float64 : Type := spec_float.

Module F64.

Definition prec : Z := 53.
Definition emax : Z := 1024.

(** [float64(n)] for an integer [n]: rounding to nearest, ties to even. *)
Definition of_int (n : Z) : float64 := binary_normalize prec emax n 0 false.

Definition div (x y : float64) : float64 := SFdiv prec emax x y.
Definition sub (x y : float64) : float64 := SFsub prec emax x y.

Definition leb (x y : float64) : bool := SFleb x y.
Definition eqb (x y : float64) : bool := SFeqb x y.

(** The literal [0.] *)
Definition zero : float64 := S754_zero false.

End F64.

(** ** Constants of btcutil *)

Module btcutil.

Definition BlockHeightUnknown : Z := -1.
Definition SatoshiPerBitcoin : Z := 100000000.

End btcutil.

(** ** Data *)

Definition bytes : Type := list byte.

#[global] Instance byte_eq_dec : EqDecision byte := Byte.byte_eq_dec.

#[global] Instance byte_countable : Countable byte :=
  inj_countable Byte.to_N Byte.of_N Byte.of_to_N.

(** [btcwire.ShaHash], a 32-byte array. *)
Definition ShaHash : Type := bytes.

(** [bytes.Equal] *)
Definition bytes_Equal (a b : bytes) : bool := bool_decide (a = b).

(** [copy(dst[:], src)] into a zeroed array of [n] bytes. *)
Definition copy_array (n : nat) (src : bytes) : bytes :=
  take n src ++ replicate (n - length src)%nat x00.

(** [btcwire.OutPoint] *)
Record OutPoint := { Hash : ShaHash; Index : Z }.

#[global] Instance OutPoint_eq_dec : EqDecision OutPoint.
Proof. solve_decision. Defined.

#[global] Instance OutPoint_countable : Countable OutPoint :=
  inj_countable' (fun o => (Hash o, Index o)) (fun p => {| Hash := p.1; Index := p.2 |})
    (fun o => match o with Build_OutPoint _ _ => eq_refl end).

(** [wallet.BlockStamp] *)
Record BlockStamp := { bsHeight : Z; bsHash : ShaHash }.

(** [tx.Utxo], with the fields [account.go] reads and writes. *)
Record Utxo := {
  AddrHash : bytes;
  Out : OutPoint;
  Subscript : bytes;
  Amt : Z;
  Height : Z;
  BlockHash : ShaHash
}.

(** [tx.UtxoStore] is a slice of [*Utxo]. *)
Definition UtxoStore : Type := list Utxo.

(** [tx.RecvTx] *)
Record RecvTx := {
  TxID : ShaHash;
  TxOutIdx : Z;
  TimeReceived : Z;
  BlockHeight : Z;
  RecvBlockHash : ShaHash;
  BlockIndex : Z;
  BlockTime : Z;
  Amount : Z;
  ReceiverHash : bytes
}.

(** Modelled from the spec: [tx.SendTx], declared in package [tx], which is
    not among the sources; a sent-transaction record, of which only the
    transaction id matters here. *)
Record SendTx := { SendTxID : ShaHash }.

(** An element of [tx.TxStore], a slice of [*SendTx] and [*RecvTx]. *)
Inductive TxRecord :=
  | TxSend (t : SendTx)
  | TxRecv (t : RecvTx).

Definition TxStore : Type := list TxRecord.

(** Go's [error]: [None] is [nil], [Some msg] an error with that message. *)
Definition GoError : Type := option string.

(** A Go result pair [(v, err)] in which [v] is meaningful only when [err]
    is [nil]. *)
Inductive result (A : Type) : Type :=
  | Ok (a : A)
  | Err (msg : string).
Arguments Ok {A} a.
Arguments Err {A} msg.

(** [*btcjson.Error] *)
Record btcjson_Error := { Code : Z; Message : string }.

(** A value decoded from JSON into [interface{}]; [JNull] is Go's [nil]. *)
Inductive json :=
  | JNull
  | JBool (b : bool)
  | JNumber (f : float64)
  | JString (s : string)
  | JArray (l : list json)
  | JObject (m : gmap string json).

(** The type assertions [x.(string)], [x.(float64)] and [x.(bool)] on the
    value of a map lookup; a missing key yields [nil], on which every
    assertion fails. *)
Definition as_string (x : option json) : option string :=
  match x with Some (JString s) => Some s | _ => None end.

Definition as_float64 (x : option json) : option float64 :=
  match x with Some (JNumber f) => Some f | _ => None end.

Definition as_bool (x : option json) : option bool :=
  match x with Some (JBool b) => Some b | _ => None end.

(** ** Balances *)

Section Balance.
Import GoInt.

(** The guard of the loop body of [CalculateBalance]:
    [confirms == 0 || (u.Height != -1 && int(bs.Height-u.Height+1) >= confirms)]. *)
Definition counted (confirms tip : Z) (u : Utxo) : bool :=
  (confirms =? 0)
  || (negb (Height u =? -1)
      && (confirms <=? int32_add (int32_sub tip (Height u)) 1)).

(** The [for ... range] loop of [CalculateBalance] over the store,
    accumulating into [bal uint64]. *)
Definition sum_counted (confirms tip : Z) (s : UtxoStore) : Z :=
  fold_left
    (fun bal u => if counted confirms tip u then uint64_add bal (Amt u) else bal)
    s 0.

(** The loop of [CalculateAddressBalance]. *)
Definition sum_counted_addr (pubkeyHash : bytes) (confirms tip : Z) (s : UtxoStore) : Z :=
  fold_left
    (fun bal u =>
       if counted confirms tip u then
         if bytes_Equal pubkeyHash (AddrHash u) then uint64_add bal (Amt u) else bal
       else bal)
    s 0.

(** [float64(bal) / float64(btcutil.SatoshiPerBitcoin)] *)
Definition to_coins (bal : Z) : float64 :=
  F64.div (F64.of_int bal) (F64.of_int btcutil.SatoshiPerBitcoin).

End Balance.

(** ** Collaborators outside [account.go] *)

(** The embedded [*wallet.Wallet], through the methods [account.go] calls.
    The methods that change the key store return the changed wallet. *)
Class WalletAPI (Wallet : Type) := {
  Name : Wallet -> string;
  Net : Wallet -> Z;
  Wallet_Lock : Wallet -> GoError * Wallet;
  Wallet_Unlock : bytes -> Wallet -> GoError * Wallet;
  ImportPrivateKey : bytes -> bool -> BlockStamp -> Wallet -> result string * Wallet;
  NextChainedAddress : BlockStamp -> Wallet -> result string * Wallet;
  SetSyncedWith : BlockStamp -> Wallet -> Wallet
}.

(** Requests to btcd, as built by the [btcws] constructors. *)
Inductive BtcdCmd :=
  | RescanCmd (id : string) (beginBlock : Z) (addrs : gset string)
  | NotifyNewTXsCmd (id : string) (addrs : list string)
  | NotifySpentCmd (id : string) (op : OutPoint).

(** Functions of btcutil, btcwire, btcws and of package [tx], and the
    conversions of a [float64] to an integer type, which Go leaves to the
    implementation when the value does not fit. *)
Class Library := {
  DecodePrivateKey : string -> result (bytes * Z * bool);
  DecodeAddress : string -> result (bytes * Z);
  Base58Decode : string -> bytes;
  NewShaHashFromStr : string -> result ShaHash;
  NewRescanCmd : string -> Z -> gset string -> result BtcdCmd;
  MarshalJSON : BtcdCmd -> result bytes;
  int32_of_float64 : float64 -> Z;
  int64_of_float64 : float64 -> Z;
  uint32_of_float64 : float64 -> Z;
  uint64_of_float64 : float64 -> Z;
  UtxoStore_Insert : Utxo -> UtxoStore -> UtxoStore;
  InsertRecvTx : RecvTx -> TxStore -> TxStore;
  RecvTx_TxInfo : RecvTx -> string -> Z -> Z -> json
}.

(** [fmt.Sprintf("btcwallet(%v)", n)] *)
Definition btcwallet_id (n : Z) : string := "btcwallet(" +:+ pretty n +:+ ")".

(** ** The account and the process-wide state *)

Section AccountSync.

Context {Wallet : Type} {WA : WalletAPI Wallet} {LIB : Library}.

(** The struct [Account].  Its mutexes are left out: a method is
    embedded as one goroutine runs it. *)
Record Account := {
  wallet : Wallet;
  name : string;
  dirty : bool;
  fullRescan : bool;
  NewBlockTxJSONID : Z;
  SpentOutpointJSONID : Z;
  UtxoStore_dirty : bool;
  UtxoStore_s : UtxoStore;
  TxStore_dirty : bool;
  TxStore_s : TxStore
}.

(** The functions stored in [replyHandlers.m]. *)
Inductive Handler :=
  | HnewBlockTxOutHandler
  | HspentUtxoHandler
  | HrescanReply.

Inductive LogLevel := LError | LInfo | LDebug.

Inductive LogArg :=
  | ArgString (s : string)
  | ArgInt (z : Z)
  | ArgHash (h : ShaHash).

(** What a method does to its collaborators, in program order: what it
    logs, its calls to the wallet's [Lock] and [Unlock] and to
    [writeDirtyToDisk] (with the account handed over and the error that
    came back), its notifications to the frontends, the messages it puts
    on [btcdMsgs], its registration with the balance syncer and the
    release of the wait group it got, and its wait for the completion
    signal of a sent-history write. *)
Inductive Event :=
  | Log (lvl : LogLevel) (format : string) (args : list LogArg)
  | CallWalletLock
  | CallWalletUnlock (passphrase : bytes)
  | CallWriteDirtyToDisk (a : Account) (err : GoError)
  | NotifyWalletLockStateChange (account : string) (locked : bool)
  | NotifyWalletBalance (account : string) (bal : float64)
  | NotifyWalletBalanceUnconfirmed (account : string) (bal : float64)
  | NotifyNewTxDetails (account : string) (details : json)
  | NotifyMinedTx (t : RecvTx)
  | SendBtcdMsg (mcmd : option bytes)
  | BalanceSyncerAdd (block : ShaHash)
  | WaitGroupDone (block : ShaHash)
  | AwaitSendTxHist (txid : ShaHash).

(** The account together with the package-level variables it uses. *)
Record World := {
  acct : Account;
  addressAccountMap : gmap string string;
  curBlock : BlockStamp * GoError;
  replyHandlers : gmap Z Handler;
  NewJSONID : Z;
  SendTxHistSync : gset ShaHash;
  NotifiedRecvTx : gset OutPoint;
  now : Z
}.

(** The write of the dirty parts of an account to disk, behind
    [writeDirtyToDisk]: its error and the account it leaves. *)
Class Persistence := {
  writeDirtyToDisk_impl : Account -> GoError * Account
}.

Context {PER : Persistence}.

(** *** Effects *)

(** The outcome of running a method: its return value, the world it leaves
    and the events it emitted. *)
Record Run (A : Type) := { value : A; after : World; emitted : list Event }.
Arguments value {A} r.
Arguments after {A} r.
Arguments emitted {A} r.

Definition M (A : Type) : Type := World -> Run A.

Definition ret {A} (a : A) : M A :=
  fun w => {| value := a; after := w; emitted := [] |}.

Definition bind {A B} (m : M A) (k : A -> M B) : M B :=
  fun w =>
    let r := m w in
    let r' := k (value r) (after r) in
    {| value := value r'; after := after r'; emitted := emitted r ++ emitted r' |}.

Definition emit (ev : Event) : M unit :=
  fun w => {| value := tt; after := w; emitted := [ev] |}.

Definition get {A} (f : World -> A) : M A :=
  fun w => {| value := f w; after := w; emitted := [] |}.

Definition modify (f : World -> World) : M unit :=
  fun w => {| value := tt; after := f w; emitted := [] |}.

Notation "'do' x <- m ; k" := (bind m (fun x => k))
  (at level 10, x pattern, m at level 100, k at level 200, only parsing).

Notation "'unless' x := e 'leave' h ; k" :=
  (match e with Some x => k | None => h end)
  (at level 10, x pattern, e at level 100, h at level 100, k at level 200,
   only parsing).

(** *** Field updates *)

Definition set_wallet (x : Wallet) (a : Account) : Account :=
  {| wallet := x; name := name a; dirty := dirty a; fullRescan := fullRescan a;
     NewBlockTxJSONID := NewBlockTxJSONID a; SpentOutpointJSONID := SpentOutpointJSONID a;
     UtxoStore_dirty := UtxoStore_dirty a; UtxoStore_s := UtxoStore_s a;
     TxStore_dirty := TxStore_dirty a; TxStore_s := TxStore_s a |}.

Definition set_dirty (b : bool) (a : Account) : Account :=
  {| wallet := wallet a; name := name a; dirty := b; fullRescan := fullRescan a;
     NewBlockTxJSONID := NewBlockTxJSONID a; SpentOutpointJSONID := SpentOutpointJSONID a;
     UtxoStore_dirty := UtxoStore_dirty a; UtxoStore_s := UtxoStore_s a;
     TxStore_dirty := TxStore_dirty a; TxStore_s := TxStore_s a |}.

Definition set_UtxoStore (d : bool) (s : UtxoStore) (a : Account) : Account :=
  {| wallet := wallet a; name := name a; dirty := dirty a; fullRescan := fullRescan a;
     NewBlockTxJSONID := NewBlockTxJSONID a; SpentOutpointJSONID := SpentOutpointJSONID a;
     UtxoStore_dirty := d; UtxoStore_s := s;
     TxStore_dirty := TxStore_dirty a; TxStore_s := TxStore_s a |}.

Definition set_TxStore (d : bool) (s : TxStore) (a : Account) : Account :=
  {| wallet := wallet a; name := name a; dirty := dirty a; fullRescan := fullRescan a;
     NewBlockTxJSONID := NewBlockTxJSONID a; SpentOutpointJSONID := SpentOutpointJSONID a;
     UtxoStore_dirty := UtxoStore_dirty a; UtxoStore_s := UtxoStore_s a;
     TxStore_dirty := d; TxStore_s := s |}.

Definition with_acct (f : Account -> Account) (w : World) : World :=
  {| acct := f (acct w); addressAccountMap := addressAccountMap w; curBlock := curBlock w;
     replyHandlers := replyHandlers w; NewJSONID := NewJSONID w;
     SendTxHistSync := SendTxHistSync w; NotifiedRecvTx := NotifiedRecvTx w; now := now w |}.

Definition with_addressAccountMap (f : gmap string string -> gmap string string) (w : World)
  : World :=
  {| acct := acct w; addressAccountMap := f (addressAccountMap w); curBlock := curBlock w;
     replyHandlers := replyHandlers w; NewJSONID := NewJSONID w;
     SendTxHistSync := SendTxHistSync w; NotifiedRecvTx := NotifiedRecvTx w; now := now w |}.

Definition with_replyHandlers (f : gmap Z Handler -> gmap Z Handler) (w : World) : World :=
  {| acct := acct w; addressAccountMap := addressAccountMap w; curBlock := curBlock w;
     replyHandlers := f (replyHandlers w); NewJSONID := NewJSONID w;
     SendTxHistSync := SendTxHistSync w; NotifiedRecvTx := NotifiedRecvTx w; now := now w |}.

Definition with_NewJSONID (f : Z -> Z) (w : World) : World :=
  {| acct := acct w; addressAccountMap := addressAccountMap w; curBlock := curBlock w;
     replyHandlers := replyHandlers w; NewJSONID := f (NewJSONID w);
     SendTxHistSync := SendTxHistSync w; NotifiedRecvTx := NotifiedRecvTx w; now := now w |}.

Definition with_SendTxHistSync (f : gset ShaHash -> gset ShaHash) (w : World) : World :=
  {| acct := acct w; addressAccountMap := addressAccountMap w; curBlock := curBlock w;
     replyHandlers := replyHandlers w; NewJSONID := NewJSONID w;
     SendTxHistSync := f (SendTxHistSync w); NotifiedRecvTx := NotifiedRecvTx w;
     now := now w |}.

Definition with_NotifiedRecvTx (f : gset OutPoint -> gset OutPoint) (w : World) : World :=
  {| acct := acct w; addressAccountMap := addressAccountMap w; curBlock := curBlock w;
     replyHandlers := replyHandlers w; NewJSONID := NewJSONID w;
     SendTxHistSync := SendTxHistSync w; NotifiedRecvTx := f (NotifiedRecvTx w);
     now := now w |}.

(** *** Calls to collaborators *)

Definition log (lvl : LogLevel) (format : string) (args : list LogArg) : M unit :=
  emit (Log lvl format args).

(** A method of the embedded wallet that changes it. *)
Definition call_wallet {A} (f : Wallet -> A * Wallet) : M A :=
  fun w =>
    let r := f (wallet (acct w)) in
    {| value := r.1; after := with_acct (set_wallet r.2) w; emitted := [] |}.

(** [a.Name()] and [a.Net()] *)
Definition a_Name : M string := get (fun w => Name (wallet (acct w))).
Definition a_Net : M Z := get (fun w => Net (wallet (acct w))).

(** [GetCurBlock()]: the block stamp of the chain tip as the chain
    tracker knows it, and its error. *)
Definition GetCurBlock : M (BlockStamp * GoError) := get curBlock.

(** [a.writeDirtyToDisk()] *)
Definition writeDirtyToDisk : M GoError :=
  fun w =>
    let r := writeDirtyToDisk_impl (acct w) in
    {| value := r.1; after := with_acct (fun _ => r.2) w;
       emitted := [CallWriteDirtyToDisk (acct w) r.1] |}.

(** Modelled from the spec: the generator behind the channel [NewJSONID],
    which is not among the sources; request identifiers come from a
    process-wide monotonically increasing source. *)
Definition next_JSONID : M Z :=
  do n <- get NewJSONID;
  do _ <- modify (with_NewJSONID (fun n => GoInt.uint64 (n + 1)));
  ret n.

(** *** The address-ownership index *)

(** [MarkAddressForAccount] marks an address as belonging to an account. *)
Definition MarkAddressForAccount (address account : string) : M unit :=
  modify (with_addressAccountMap (fun m => <[address := account]> m)).

(** [ErrNotFound] *)
Definition ErrNotFound : string := "not found".

Definition LookupAccountByAddress (address : string) : M (string * GoError) :=
  do m <- get addressAccountMap;
  match m !! address with
  | None => ret (EmptyString, Some ErrNotFound)
  | Some account => ret (account, None)
  end.

(** *** Locking and unlocking *)

Definition Lock : M GoError :=
  do _ <- emit CallWalletLock;
  do err <- call_wallet Wallet_Lock;
  do _ <- match err with
          | None => do n <- a_Name; emit (NotifyWalletLockStateChange n true)
          | Some _ => ret tt
          end;
  ret err.

Definition Unlock (passphrase : bytes) (timeout : Z) : M GoError :=
  do _ <- emit (CallWalletUnlock passphrase);
  do err <- call_wallet (Wallet_Unlock passphrase);
  do _ <- match err with
          | None => do n <- a_Name; emit (NotifyWalletLockStateChange n false)
          | Some _ => ret tt
          end;
  do _ <- emit (CallWalletUnlock passphrase);
  call_wallet (Wallet_Unlock passphrase).

(** *** Balances *)

(** [bs.Height == int32(btcutil.BlockHeightUnknown) || err != nil] *)
Definition tip_unknown (cur : BlockStamp * GoError) : bool :=
  (bsHeight cur.1 =? GoInt.int32 btcutil.BlockHeightUnknown)
  || bool_decide (cur.2 <> None).

Definition CalculateBalance (confirms : Z) : M float64 :=
  do cur <- GetCurBlock;
  if tip_unknown cur then ret F64.zero
  else
    do s <- get (fun w => UtxoStore_s (acct w));
    ret (to_coins (sum_counted confirms (bsHeight cur.1) s)).

Definition CalculateAddressBalance (pubkeyHash : bytes) (confirms : Z) : M float64 :=
  do cur <- GetCurBlock;
  if tip_unknown cur then ret F64.zero
  else
    do s <- get (fun w => UtxoStore_s (acct w));
    ret (to_coins (sum_counted_addr pubkeyHash confirms (bsHeight cur.1) s)).

(** *** Requests to btcd *)

Definition ReqNewTxsForAddress (addr : string) : M unit :=
  do _ <- log LDebug "Requesting notifications of TXs sending to address %v" [ArgString addr];
  do n <- get (fun w => NewBlockTxJSONID (acct w));
  let cmd := NotifyNewTXsCmd (btcwallet_id n) [addr] in
  let mcmd := MarshalJSON cmd in
  do _ <- match mcmd with
          | Err err => log LError "cannot request transaction notifications: %v" [ArgString err]
          | Ok _ => ret tt
          end;
  emit (SendBtcdMsg (match mcmd with Ok m => Some m | Err _ => None end)).

Definition ReqSpentUtxoNtfn (u : Utxo) : M unit :=
  do _ <- log LDebug "Requesting spent UTXO notifications for Outpoint hash %s index %d"
            [ArgHash (Hash (Out u)); ArgInt (Index (Out u))];
  do n <- get (fun w => SpentOutpointJSONID (acct w));
  let cmd := NotifySpentCmd (btcwallet_id n) (Out u) in
  match MarshalJSON cmd with
  | Err err => log LError "cannot create spent request: %v" [ArgString err]
  | Ok mcmd => emit (SendBtcdMsg (Some mcmd))
  end.

(** *** Importing a key and requesting an address *)

Definition ImportWIFPrivateKey (wif : string) (bs : BlockStamp) : M (string * GoError) :=
  match DecodePrivateKey wif with
  | Err err => ret (EmptyString, Some err)
  | Ok (privkey, net, compressed) =>
    do anet <- a_Net;
    if negb (net =? anet) then ret (EmptyString, Some "wrong network")
    else
      do r <- call_wallet (ImportPrivateKey privkey compressed bs);
      match r with
      | Err err => ret (EmptyString, Some err)
      | Ok addr =>
        do _ <- modify (with_acct (set_dirty true));
        do werr <- writeDirtyToDisk;
        match werr with
        | Some err =>
          do _ <- log LError "cannot write dirty wallet: %v" [ArgString err];
          ret (EmptyString, Some ("import failed: cannot write wallet: " +:+ err))
        | None =>
          do n <- a_Name;
          do _ <- MarkAddressForAccount addr n;
          do _ <- log LInfo "Imported payment address %v" [ArgString addr];
          ret (addr, None)
        end
      end
  end.

Definition NewAddress : M (string * GoError) :=
  do cur <- GetCurBlock;
  match cur.2 with
  | Some err => ret (EmptyString, Some err)
  | None =>
    do r <- call_wallet (NextChainedAddress cur.1);
    match r with
    | Err err => ret (EmptyString, Some err)
    | Ok addr =>
      do _ <- modify (with_acct (set_dirty true));
      do werr <- writeDirtyToDisk;
      do _ <- match werr with
              | Some err => log LError "cannot sync dirty wallet: %v" [ArgString err]
              | None => ret tt
              end;
      do n <- a_Name;
      do _ <- MarkAddressForAccount addr n;
      do _ <- ReqNewTxsForAddress addr;
      ret (addr, None)
    end
  end.

(** *** The spent-output notification handler *)

Definition spentUtxoHandler (result : json) (e : option btcjson_Error) : M bool :=
  match e with
  | Some e =>
    do _ <- log LError "Spent UTXO Handler: Error %d received from btcd: %s"
              [ArgInt (Code e); ArgString (Message e)];
    ret false
  | None =>
    match result with
    | JObject v =>
      unless txHashBE := as_string (v !! "txhash")
        leave (do _ <- log LError "Spent UTXO Handler: Unspecified transaction hash." [];
               ret false);
      match NewShaHashFromStr txHashBE with
      | Err err =>
        do _ <- log LError "Spent UTXO Handler: Bad transaction hash: %s" [ArgString err];
        ret false
      | Ok txHash =>
        do _ <- match as_float64 (v !! "index") with
                | None => log LError "Spent UTXO Handler: Unspecified index." []
                | Some index => ret tt
                end;
        ret false
      end
    | _ => ret false
    end
  end.

(** *** The new-transaction notification handler *)

(** Modelled from the spec: the goroutines behind [SendTxHistSyncChans]
    and [NotifiedRecvTxChans], which are not among the sources.  The first
    is a registry of in-flight transaction ids, each carrying a completion
    signal: [access] answers whether the id has an entry, the handler then
    waits on the signal and [remove]s the entry.  The second is the set of
    outpoints already surfaced to the frontends, with [access], [add] and
    [remove]. *)
Definition SendTxHistSync_access (txid : ShaHash) : M bool :=
  get (fun w => bool_decide (txid ∈ SendTxHistSync w)).

Definition SendTxHistSync_remove (txid : ShaHash) : M unit :=
  modify (with_SendTxHistSync (fun s => s ∖ {[txid]})).

Definition NotifiedRecvTx_access (op : OutPoint) : M bool :=
  get (fun w => bool_decide (op ∈ NotifiedRecvTx w)).

Definition NotifiedRecvTx_add (op : OutPoint) : M unit :=
  modify (with_NotifiedRecvTx (fun s => s ∪ {[op]})).

Definition NotifiedRecvTx_remove (op : OutPoint) : M unit :=
  modify (with_NotifiedRecvTx (fun s => s ∖ {[op]})).

(** The part of [newBlockTxOutHandler] that follows the decoding of the
    notification. *)
Definition recordRecvTx (receiverHash : bytes) (height : float64) (blockHash : ShaHash)
    (blockIndex blockTime : Z) (txID : ShaHash) (txOutIndex : Z) (amt : float64)
    (pkscript : bytes) (spent : bool) : M bool :=
  let confirmed := negb (int32_of_float64 height =? -1) in
  do _ <- (if confirmed then emit (BalanceSyncerAdd blockHash) else ret tt);
  do received <- get now;
  let t := {| TxID := txID; TxOutIdx := txOutIndex; TimeReceived := received;
              BlockHeight := int32_of_float64 height; RecvBlockHash := blockHash;
              BlockIndex := blockIndex; BlockTime := blockTime;
              Amount := int64_of_float64 amt; ReceiverHash := receiverHash |} in
  do ok <- SendTxHistSync_access txID;
  do _ <- (if ok then
             do _ <- emit (AwaitSendTxHist txID);
             SendTxHistSync_remove txID
           else ret tt);
  do _ <- modify (with_acct (fun a => set_TxStore true (InsertRecvTx t (TxStore_s a)) a));
  let recvTxOP := {| Hash := txID; Index := txOutIndex |} in
  do previouslyNotified <- NotifiedRecvTx_access recvTxOP;
  do _ <- (if previouslyNotified then
             do _ <- emit (NotifyMinedTx t);
             NotifiedRecvTx_remove recvTxOP
           else
             do _ <- NotifiedRecvTx_add recvTxOP;
             do n <- a_Name;
             do net <- a_Net;
             emit (NotifyNewTxDetails n (RecvTx_TxInfo t n (int32_of_float64 height) net)));
  do _ <- (if negb spent then
             let u := {| AddrHash := copy_array 20 receiverHash;
                         Out := {| Hash := copy_array 32 txID;
                                   Index := txOutIndex |};
                         Subscript := pkscript;
                         Amt := uint64_of_float64 amt;
                         Height := int32_of_float64 height;
                         BlockHash := copy_array 32 blockHash |} in
             do _ <- modify (with_acct (fun a =>
                       set_UtxoStore true (UtxoStore_Insert u (UtxoStore_s a)) a));
             if Height u =? -1 then
               do all <- CalculateBalance 0;
               do conf <- CalculateBalance 1;
               do aname <- get (fun w => name (acct w));
               emit (NotifyWalletBalanceUnconfirmed aname (F64.sub all conf))
             else ret tt
           else ret tt);
  do _ <- (if confirmed then emit (WaitGroupDone blockHash) else ret tt);
  ret false.

Definition newBlockTxOutHandler (result : json) (e : option btcjson_Error) : M bool :=
  match e with
  | Some e =>
    do _ <- log LError "Tx Handler: Error %d received from btcd: %s"
              [ArgInt (Code e); ArgString (Message e)];
    ret false
  | None =>
    match result with
    | JObject v =>
      unless receiver := as_string (v !! "receiver")
        leave (do _ <- log LError "Tx Handler: Unspecified receiver." []; ret false);
      match DecodeAddress receiver with
      | Err err =>
        do _ <- log LError "Tx Handler: receiver address can not be decoded: %v"
                  [ArgString err];
        ret false
      | Ok (receiverHash, _) =>
      unless height := as_float64 (v !! "height")
        leave (do _ <- log LError "Tx Handler: Unspecified height." []; ret false);
      unless blockHashBE := as_string (v !! "blockhash")
        leave (do _ <- log LError "Tx Handler: Unspecified block hash." []; ret false);
      match NewShaHashFromStr blockHashBE with
      | Err err =>
        do _ <- log LError "Tx Handler: Block hash string cannot be parsed: %v"
                  [ArgString err];
        ret false
      | Ok blockHash =>
      unless fblockIndex := as_float64 (v !! "blockindex")
        leave (do _ <- log LError "Tx Handler: Unspecified block index." []; ret false);
      unless fblockTime := as_float64 (v !! "blocktime")
        leave (do _ <- log LError "Tx Handler: Unspecified block time." []; ret false);
      unless txhashBE := as_string (v !! "txid")
        leave (do _ <- log LError "Tx Handler: Unspecified transaction hash." [];
               ret false);
      match NewShaHashFromStr txhashBE with
      | Err err =>
        do _ <- log LError "Tx Handler: Tx hash string cannot be parsed: %v"
                  [ArgString err];
        ret false
      | Ok txID =>
      unless ftxOutIndex := as_float64 (v !! "txoutindex")
        leave (do _ <- log LError "Tx Handler: Unspecified transaction output index." [];
               ret false);
      unless amt := as_float64 (v !! "amount")
        leave (do _ <- log LError "Tx Handler: Unspecified amount." []; ret false);
      unless pkscript58 := as_string (v !! "pkscript")
        leave (do _ <- log LError "Tx Handler: Unspecified pubkey script." []; ret false);
      let spent := match as_bool (v !! "spent") with Some tspent => tspent | None => false end in
      recordRecvTx receiverHash height blockHash (int32_of_float64 fblockIndex)
        (int64_of_float64 fblockTime) txID (uint32_of_float64 ftxOutIndex) amt
        (Base58Decode pkscript58) spent
      end end end
    | JNull => ret false
    | _ =>
      do _ <- log LError "Tx Handler: Unexpected result type %T." []; ret false
    end
  end.

(** *** Rescans *)

(** The function literal that [RescanAddresses] stores in
    [replyHandlers.m]. *)
Definition rescanReplyHandler (result : json) (e : option btcjson_Error) : M bool :=
  do _ <- newBlockTxOutHandler result e;
  match result with
  | JNull =>
    do cur <- GetCurBlock;
    do _ <- match cur.2 with
            | None =>
              do _ <- modify (with_acct (fun a =>
                        set_dirty true (set_wallet (SetSyncedWith cur.1 (wallet a)) a)));
              do werr <- writeDirtyToDisk;
              match werr with
              | Some err => log LError "cannot sync dirty wallet: %v" [ArgString err]
              | None => ret tt
              end
            | Some _ => ret tt
            end;
    ret true
  | _ =>
    do confirmed <- CalculateBalance 1;
    do all <- CalculateBalance 0;
    let unconfirmed := F64.sub all confirmed in
    do aname <- get (fun w => name (acct w));
    do _ <- emit (NotifyWalletBalance aname confirmed);
    do _ <- emit (NotifyWalletBalanceUnconfirmed aname unconfirmed);
    ret false
  end.

Definition RescanAddresses (beginBlock : Z) (addrs : gset string) : M unit :=
  do n <- next_JSONID;
  match NewRescanCmd (btcwallet_id n) beginBlock addrs with
  | Err err => log LError "cannot create rescan request: %v" [ArgString err]
  | Ok cmd =>
    match MarshalJSON cmd with
    | Err err => log LError "cannot create rescan request: %v" [ArgString err]
    | Ok mcmd =>
      do _ <- modify (with_replyHandlers (fun m => <[n := HrescanReply]> m));
      emit (SendBtcdMsg (Some mcmd))
    end
  end.

(** The function a [Handler] stands for. *)
Definition run_handler (h : Handler) : json -> option btcjson_Error -> M bool :=
  match h with
  | HnewBlockTxOutHandler => newBlockTxOutHandler
  | HspentUtxoHandler => spentUtxoHandler
  | HrescanReply => rescanReplyHandler
  end.

End AccountSync.

Arguments value {Wallet A} r.
Arguments after {Wallet A} r.
Arguments emitted {Wallet A} r.
Arguments Build_Run {Wallet A} value after emitted.

(** ** What the claims speak of *)

Section Vocabulary.

Context {Wallet : Type}.

(** A failed write of the dirty state occurs among the events. *)
Definition write_failed (evs : list (Event (Wallet := Wallet))) : Prop :=
  exists a msg, In (CallWriteDirtyToDisk a (Some msg)) evs.

(** A balance notification to the frontends. *)
Definition is_balance_ntfn (ev : Event (Wallet := Wallet)) : bool :=
  match ev with
  | NotifyWalletBalance _ _ | NotifyWalletBalanceUnconfirmed _ _ => true
  | _ => false
  end.

(** The store without the outputs at outpoint [op]. *)
Definition without_outpoint (op : OutPoint) (s : UtxoStore) : UtxoStore :=
  filter (fun u => Out u <> op) s.

Definition drop_outpoint (op : OutPoint) (w : World (Wallet := Wallet)) : World :=
  with_acct (fun a => set_UtxoStore (UtxoStore_dirty a) (without_outpoint op (UtxoStore_s a)) a) w.

(** The inclusion rule in the words of the specification, over the
    integers: [confirms == 0], or [confirms >= 1] and [height <> -1] and
    [tip - height + 1 >= confirms]. *)
Definition spec_counted (confirms tip : Z) (u : Utxo) : bool :=
  (confirms =? 0)
  || ((1 <=? confirms) && negb (Height u =? -1) && (confirms <=? tip - Height u + 1)).

(** The amounts the specification's rule selects, summed over the integers. *)
Definition spec_sum (confirms tip : Z) (s : UtxoStore) : Z :=
  foldr Z.add 0 (map Amt (List.filter (spec_counted confirms tip) s)).

Definition spec_sum_addr (pubkeyHash : bytes) (confirms tip : Z) (s : UtxoStore) : Z :=
  foldr Z.add 0
    (map Amt (List.filter
                (fun u => spec_counted confirms tip u && bytes_Equal pubkeyHash (AddrHash u)) s)).

(** The rule of the code, as a filter. *)
Definition code_sum (confirms tip : Z) (s : UtxoStore) : Z :=
  foldr Z.add 0 (map Amt (List.filter (counted confirms tip) s)).

Definition code_sum_addr (pubkeyHash : bytes) (confirms tip : Z) (s : UtxoStore) : Z :=
  foldr Z.add 0
    (map Amt (List.filter
                (fun u => counted confirms tip u && bytes_Equal pubkeyHash (AddrHash u)) s)).

(** Every stored amount is a [uint64] and every height an [int32]. *)
Definition store_in_range (s : UtxoStore) : Prop :=
  Forall (fun u => 0 <= Amt u < 2 ^ 64 /\ - 2 ^ 31 <= Height u < 2 ^ 31) s.

(** The amounts of the whole store add up without leaving [uint64]. *)
Definition no_overflow (s : UtxoStore) : Prop :=
  Forall (fun u => 0 <= Amt u) s /\ foldr Z.add 0 (map Amt s) < 2 ^ 64.

(** The reply-handler convention the source states at its return sites
    (``Never remove this handler.'' before [return false], ``Returning true
    removes this handler.'' before [return true]). *)
Definition removes_handler (returned : bool) : bool := returned.

(** Modelled from the spec: the dispatch loop of the notification router,
    which is not among the sources; in the words of the specification the
    handler returns [keepRegistered] and returning [false] removes the
    entry. *)
Definition spec_keepRegistered (returned : bool) : bool := returned.

End Vocabulary.

(** ** Rounding to nearest, in integers

    The vocabulary in which the results of [float64(n)] and of the
    division by [float64(SatoshiPerBitcoin)] are described: a mantissa
    together with its round and sticky bits is encoded as one integer,
    four times the mantissa plus the two bits. *)

Module Rounding.

(** Twice the floor of [N / D], plus a sticky bit telling whether the
    division was inexact. *)
Definition sf (N D : Z) : Z := 2 * (N / D) + (if N mod D =? 0 then 0 else 1).

(** One sticky right shift of an encoded mantissa. *)
Definition g (p : Z) : Z := sf p 4.

(** A shift by [n] places, [n <= 0] doing nothing. *)
Definition shift_enc (n p : Z) : Z :=
  match n with
  | Zpos k => SpecFloat.iter_pos g k p
  | _ => p
  end.

Definition code (l : location) : Z :=
  match l with
  | loc_Exact => 0
  | loc_Inexact Lt => 1
  | loc_Inexact Eq => 2
  | loc_Inexact Gt => 3
  end.

Definition enc (mrs : shr_record) : Z :=
  4 * shr_m mrs + (if shr_r mrs then 2 else 0) + (if shr_s mrs then 1 else 0).

(** Rounding of an encoded mantissa to nearest, ties to even. *)
Definition rne (p : Z) : Z :=
  let m := p / 4 in
  let c := p mod 4 in
  if c <? 2 then m
  else if c =? 2 then (if Z.even m then m else m + 1)
  else m + 1.

(** An integer that orders the positive floats with a full mantissa. *)
Definition rank (x : spec_float) : Z :=
  match x with
  | S754_finite false m e => e * 2 ^ 53 + Zpos m
  | _ => 0
  end.

(** A positive float with a full 53-bit mantissa. *)
Definition normal (x : spec_float) : Prop :=
  match x with
  | S754_finite false m e => 2 ^ 52 <= Zpos m < 2 ^ 53
  | _ => False
  end.

(** The float that [binary_round_aux] builds from a rounded mantissa
    [m] in [[2^52, 2^53]] at exponent [e]. *)
Definition norm (m e : Z) : spec_float :=
  if m =? 2 ^ 53 then S754_finite false (Z.to_pos (2 ^ 52)) (e + 1)
  else S754_finite false (Z.to_pos m) e.

(** The mantissa, before rounding, of [float64(n)]. *)
Definition of_int_enc (n : Z) : Z :=
  if Zdigits2 n <=? 53 then 4 * (n * 2 ^ (53 - Zdigits2 n))
  else shift_enc (Zdigits2 n - 53) (4 * n).

(** The mantissa of [float64(100000000)], whose exponent is [-26]. *)
Definition coin_m : Z := 100000000 * 2 ^ 26.

(** The mantissa, before rounding, of the quotient of a float of mantissa
    [m] by [float64(SatoshiPerBitcoin)], and the shift that goes with it. *)
Definition quot_shift (m : Z) : Z := Zdigits2 (m * 2 ^ 53 / coin_m) - 53.

Definition quot_enc (m : Z) : Z :=
  shift_enc (quot_shift m) (sf (2 * (m * 2 ^ 53)) coin_m).

End Rounding.

(** ** A small wallet, library and disk to run the methods on *)

Module Sample.

(** A key store that unlocks with one passphrase and hands out addresses
    from a counter. *)
Record KeyStore := {
  locked : bool;
  synced : BlockStamp;
  imported : list bytes;
  chained : Z
}.

Definition secret : bytes := [x68; x75; x6e; x74; x65; x72; x32].

Definition mainnet : Z := 3652501241.
Definition testnet3 : Z := 118034699.

Definition unlock (passphrase : bytes) (k : KeyStore) : GoError * KeyStore :=
  if bytes_Equal passphrase secret then
    (None, {| locked := false; synced := synced k; imported := imported k;
              chained := chained k |})
  else (Some "wrong passphrase", k).

Definition wallet_api : WalletAPI KeyStore := {|
  Name := fun _ => "savings";
  Net := fun _ => mainnet;
  Wallet_Lock := fun k =>
    (None, {| locked := true; synced := synced k; imported := imported k;
              chained := chained k |});
  Wallet_Unlock := unlock;
  ImportPrivateKey := fun privkey compressed bs k =>
    if locked k then (Err "wallet is locked", k)
    else (Ok ("imported-" +:+ pretty (Z.of_nat (length (imported k)))),
          {| locked := locked k; synced := synced k; imported := privkey :: imported k;
             chained := chained k |});
  NextChainedAddress := fun bs k =>
    (Ok ("chained-" +:+ pretty (chained k)),
     {| locked := locked k; synced := synced k; imported := imported k;
        chained := chained k + 1 |});
  SetSyncedWith := fun bs k =>
    {| locked := locked k; synced := bs; imported := imported k; chained := chained k |}
|}.

Definition hex_digit (c : ascii) : option N :=
  let n := N_of_ascii c in
  if (48 <=? n)%N && (n <=? 57)%N then Some (n - 48)%N
  else if (97 <=? n)%N && (n <=? 102)%N then Some (n - 87)%N
  else if (65 <=? n)%N && (n <=? 70)%N then Some (n - 55)%N
  else None.

Fixpoint hex_decode (s : string) : option bytes :=
  match s with
  | EmptyString => Some []
  | String _ EmptyString => None
  | String a (String b rest) =>
    match hex_digit a, hex_digit b, hex_decode rest with
    | Some hi, Some lo, Some t =>
      match Byte.of_N (16 * hi + lo) with
      | Some x => Some (x :: t)
      | None => None
      end
    | _, _, _ => None
    end
  end.

(** [btcwire.NewShaHashFromStr]: big-endian hex of at most 64 digits,
    padded with zero bytes to 32 bytes and then reversed. *)
Definition sha_from_str (s : string) : result ShaHash :=
  if (64 <? String.length s)%nat then Err "max hash string length is 64 bytes"
  else
    let s' := if Nat.even (String.length s) then s else String "0" s in
    match hex_decode s' with
    | Some b => Ok (rev (copy_array 32 b))
    | None => Err "encoding/hex: invalid byte"
    end.

Definition pkhash (b : byte) : bytes := replicate 20 b.

(** Truncation of a float towards zero. *)
Definition trunc (f : float64) : Z :=
  match f with
  | S754_finite s m e =>
    let a := if 0 <=? e then Zpos m * 2 ^ e else Zpos m / 2 ^ (- e) in
    if s then - a else a
  | _ => 0
  end.

Definition library : Library := {|
  DecodePrivateKey := fun wif =>
    if String.eqb wif "main-key" then Ok ([x01], mainnet, true)
    else if String.eqb wif "test-key" then Ok ([x02], testnet3, true)
    else Err "malformed private key";
  DecodeAddress := fun addr =>
    if String.eqb addr "addr-a" then Ok (pkhash x0a, mainnet)
    else if String.eqb addr "addr-b" then Ok (pkhash x0b, mainnet)
    else Err "checksum error";
  Base58Decode := fun _ => [];
  NewShaHashFromStr := sha_from_str;
  NewRescanCmd := fun id beginBlock addrs => Ok (RescanCmd id beginBlock addrs);
  MarshalJSON := fun _ => Ok [x7b; x7d];
  int32_of_float64 := fun f => GoInt.wrap_signed 32 (trunc f);
  int64_of_float64 := fun f => GoInt.wrap_signed 64 (trunc f);
  uint32_of_float64 := fun f => trunc f mod 2 ^ 32;
  uint64_of_float64 := fun f => trunc f mod 2 ^ 64;
  UtxoStore_Insert := fun u s => filter (fun v => Out v <> Out u) s ++ [u];
  InsertRecvTx := fun t s => s ++ [TxRecv t];
  RecvTx_TxInfo := fun _ _ _ _ => JNull
|}.

(** A disk that takes every write, and one that is full. *)
Definition disk_ok : Persistence (Wallet := KeyStore) := {|
  writeDirtyToDisk_impl := fun a =>
    (None, set_TxStore false (TxStore_s a)
             (set_UtxoStore false (UtxoStore_s a) (set_dirty false a)))
|}.

Definition disk_full : Persistence (Wallet := KeyStore) := {|
  writeDirtyToDisk_impl := fun a => (Some "no space left on device", a)
|}.

Definition hash_of (b : byte) : ShaHash := replicate 32 b.

Definition keys : KeyStore :=
  {| locked := false; synced := {| bsHeight := 90; bsHash := hash_of x5a |};
     imported := []; chained := 0 |}.

Definition account (s : UtxoStore) : Account :=
  {| wallet := keys; name := "savings"; dirty := false; fullRescan := false;
     NewBlockTxJSONID := 1; SpentOutpointJSONID := 2;
     UtxoStore_dirty := false; UtxoStore_s := s;
     TxStore_dirty := false; TxStore_s := [] |}.

(** A world whose chain tip is at height [tip]. *)
Definition world (tip : Z) (s : UtxoStore) : World :=
  {| acct := account s; addressAccountMap := ∅;
     curBlock := ({| bsHeight := tip; bsHash := hash_of x64 |}, None);
     replyHandlers := <[1 := HnewBlockTxOutHandler]> (<[2 := HspentUtxoHandler]> ∅);
     NewJSONID := 3; SendTxHistSync := ∅; NotifiedRecvTx := ∅; now := 1388534400 |}.

Definition utxo (txid : byte) (height amt : Z) : Utxo :=
  {| AddrHash := pkhash x0a; Out := {| Hash := hash_of txid; Index := 0 |};
     Subscript := []; Amt := amt; Height := height; BlockHash := hash_of x00 |}.

(** The scenario of the specification: A at height 95, B unconfirmed. *)
Definition utxoA : Utxo := utxo xaa 95 5.
Definition utxoB : Utxo := utxo xbb (-1) 3.

(** The same outputs with their amounts in whole coins. *)
Definition coinA : Utxo := utxo xaa 95 500000000.
Definition coinB : Utxo := utxo xbb (-1) 300000000.

(** A store whose amounts add up to [2^64]. *)
Definition hugeA : Utxo := utxo xaa 95 (2 ^ 64 - 1).
Definition dustB : Utxo := utxo xbb (-1) 1.

(** An output of the genesis block, seen from the last [int32] height. *)
Definition genesisA : Utxo := utxo xaa 0 5.

(** A spent-output notification naming the outpoint of [utxoA]. *)
Definition spentA_txhash : string := String.concat EmptyString (replicate 32 "aa").

Definition spentA : json :=
  JObject (<["txhash" := JString spentA_txhash]> (<["index" := JNumber (F64.of_int 0)]> ∅)).

Definition genesis_stamp : BlockStamp := {| bsHeight := 0; bsHash := hash_of x00 |}.

End Sample.

(** ** The other methods of [account.go] *)

(** [wallet.AddressInfo], with the fields [account.go] reads. *)
Record AddressInfo := { Address : string; Compressed : bool }.

(** The methods of the embedded [*wallet.Wallet] that only read it.
    [ActiveAddresses] is given as the sequence in which [range] yields its
    elements, and [AddressKey] as the bytes [key.D.Bytes()] of the key it
    finds. *)
Class WalletQueries (Wallet : Type) := {
  LastChainedAddress : Wallet -> result string;
  ActiveAddresses : Wallet -> list AddressInfo;
  SortedActiveAddresses : Wallet -> list AddressInfo;
  AddressKey : string -> Wallet -> result bytes;
  Wallet_AddressInfo : string -> Wallet -> result AddressInfo;
  SyncedWith : Wallet -> BlockStamp;
  EarliestBlockHeight : Wallet -> Z
}.

(** The [Rollback] methods of the two stores of package [tx], which answer
    whether they changed the store and leave the store rolled back; the
    [TxInfo] method of a sent transaction; and [btcutil.EncodePrivateKey]. *)
Class StoreLibrary := {
  UtxoStore_Rollback : Z -> ShaHash -> UtxoStore -> bool * UtxoStore;
  TxStore_Rollback : Z -> ShaHash -> TxStore -> bool * TxStore;
  SendTx_TxInfo : SendTx -> string -> Z -> Z -> list json;
  EncodePrivateKey : bytes -> Z -> bool -> result string
}.

(** The size in bits of Go's [int], 32 or 64 with the platform. *)
Class Platform := { int_bits : Z }.

(** What a call that indexes a slice comes to: it returns, or the index is
    out of range and the goroutine panics. *)
Inductive Outcome (A : Type) : Type :=
  | Returns (a : A)
  | Panics.
Arguments Returns {A} a.
Arguments Panics {A}.

(** The loop of [AddressUsed] over the transaction store. *)
Fixpoint AddressUsed_in (s : TxStore) (pkHash : bytes) : bool :=
  match s with
  | [] => false
  | TxRecv rtx :: s' =>
    if bytes_Equal (ReceiverHash rtx) pkHash then true else AddressUsed_in s' pkHash
  | TxSend _ :: s' => AddressUsed_in s' pkHash
  end.

(** The loop [for i := len(s) - 1; i >= from && i >= lastLookupIdx; i--] of
    [ListTransactions].  [rs] holds the elements [s[i], s[i-1], ..., s[0]]:
    when the test lets [i = -1] through, nothing is left to read and
    [s[i]] is out of range. *)
Fixpoint list_back (info : TxRecord -> list json) (rs : list TxRecord)
    (i from lastLookupIdx : Z) (txInfoList : list json) : Outcome (list json) :=
  if (from <=? i) && (lastLookupIdx <=? i) then
    match rs with
    | [] => Panics
    | e :: rs' => list_back info rs' (i - 1) from lastLookupIdx (txInfoList ++ info e)
    end
  else Returns txInfoList.

Section AccountRest.

Context {Wallet : Type} {WA : WalletAPI Wallet} {WQ : WalletQueries Wallet}
  {LIB : Library} {STO : StoreLibrary} {PLAT : Platform}
  {PER : Persistence (Wallet := Wallet)}.

Notation "'do' x <- m ; k" := (bind m (fun x => k))
  (at level 10, x pattern, m at level 100, k at level 200, only parsing).

(** A method of the account of this section. *)
Notation "'Method' A" := (M (Wallet := Wallet) A) (at level 10, A at level 9, only parsing).

Definition set_NewBlockTxJSONID (n : Z) (a : Account (Wallet := Wallet)) : Account :=
  {| wallet := wallet a; name := name a; dirty := dirty a; fullRescan := fullRescan a;
     NewBlockTxJSONID := n; SpentOutpointJSONID := SpentOutpointJSONID a;
     UtxoStore_dirty := UtxoStore_dirty a; UtxoStore_s := UtxoStore_s a;
     TxStore_dirty := TxStore_dirty a; TxStore_s := TxStore_s a |}.

Definition set_SpentOutpointJSONID (n : Z) (a : Account (Wallet := Wallet)) : Account :=
  {| wallet := wallet a; name := name a; dirty := dirty a; fullRescan := fullRescan a;
     NewBlockTxJSONID := NewBlockTxJSONID a; SpentOutpointJSONID := n;
     UtxoStore_dirty := UtxoStore_dirty a; UtxoStore_s := UtxoStore_s a;
     TxStore_dirty := TxStore_dirty a; TxStore_s := TxStore_s a |}.

(** A [for ... range] loop whose body returns nothing. *)
Fixpoint for_each {A} (body : A -> Method unit) (l : list A) : Method unit :=
  match l with
  | [] => ret tt
  | x :: l' => do _ <- body x; for_each body l'
  end.

(** *** Rolling back *)


(** *** Addresses in use *)

Definition AddressUsed (pkHash : bytes) : Method bool :=
  get (fun w => AddressUsed_in (TxStore_s (acct w)) pkHash).

(** [pkHash, _, _ := btcutil.DecodeAddress(addr)]: the errors are dropped,
    and the hash of an address that does not decode is [nil]. *)
Definition CurrentAddress : Method (string * GoError) :=
  do last <- get (fun w => LastChainedAddress (wallet (acct w)));
  match last with
  | Err err => ret (EmptyString, Some err)
  | Ok addr =>
    let pkHash := match DecodeAddress addr with Ok (h, _) => h | Err _ => [] end in
    do used <- AddressUsed pkHash;
    if used then NewAddress else ret (addr, None)
  end.

(** *** The transaction history *)

(** The type switch on an element of the store: a sent transaction yields
    several entries, a received one yields one. *)
Definition TxInfo (account : string) (height net : Z) (e : TxRecord) : list json :=
  match e with
  | TxSend t => SendTx_TxInfo t account height net
  | TxRecv t => [RecvTx_TxInfo t account height net]
  end.

Definition ListTransactions (from count : Z) : Method (Outcome (list json * GoError)) :=
  do cur <- GetCurBlock;
  match cur.2 with
  | Some err => ret (Returns ([], Some err))
  | None =>
    do s <- get (fun w => TxStore_s (acct w));
    do aname <- get (fun w => name (acct w));
    do net <- a_Net;
    let len := Z.of_nat (length s) in
    let lastLookupIdx := GoInt.wrap_signed int_bits (len - count) in
    match list_back (TxInfo aname (bsHeight cur.1) net) (rev s) (len - 1) from
            lastLookupIdx [] with
    | Returns txInfoList => ret (Returns (txInfoList, None))
    | Panics => ret Panics
    end
  end.

Definition ListAddressTransactions (pkHashes : gset bytes) : Method (list json * GoError) :=
  do cur <- GetCurBlock;
  match cur.2 with
  | Some err => ret ([], Some err)
  | None =>
    do s <- get (fun w => TxStore_s (acct w));
    do aname <- get (fun w => name (acct w));
    do net <- a_Net;
    ret (fold_left
           (fun txInfoList e =>
              match e with
              | TxRecv rtx =>
                if bool_decide (ReceiverHash rtx ∈ pkHashes)
                then txInfoList ++ [RecvTx_TxInfo rtx aname (bsHeight cur.1) net]
                else txInfoList
              | TxSend _ => txInfoList
              end)
           s [], None)
  end.

(** The loop [for i := len(s) - 1; i >= 0; i--] reads the store from its
    last element to its first. *)
Definition ListAllTransactions : Method (list json * GoError) :=
  do cur <- GetCurBlock;
  match cur.2 with
  | Some err => ret ([], Some err)
  | None =>
    do s <- get (fun w => TxStore_s (acct w));
    do aname <- get (fun w => name (acct w));
    do net <- a_Net;
    ret (fold_left (fun txInfoList e => txInfoList ++ TxInfo aname (bsHeight cur.1) net e)
           (rev s) [], None)
  end.

(** *** Private keys *)

(** The loop of [DumpPrivKeys] over the active addresses. *)
Fixpoint DumpPrivKeys_from (k : Wallet) (infos : list AddressInfo) (privkeys : list string)
  : list string * GoError :=
  match infos with
  | [] => (privkeys, None)
  | addr :: infos' =>
    match AddressKey (Address addr) k with
    | Err err => ([], Some err)
    | Ok key =>
      match EncodePrivateKey key (Net k) (Compressed addr) with
      | Err err => ([], Some err)
      | Ok encKey => DumpPrivKeys_from k infos' (privkeys ++ [encKey])
      end
    end
  end.

Definition DumpPrivKeys : Method (list string * GoError) :=
  do k <- get (fun w => wallet (acct w));
  ret (DumpPrivKeys_from k (ActiveAddresses k) []).

Definition DumpWIFPrivateKey (address : string) : Method (string * GoError) :=
  do k <- get (fun w => wallet (acct w));
  match AddressKey address k with
  | Err err => ret (EmptyString, Some err)
  | Ok key =>
    match Wallet_AddressInfo address k with
    | Err err => ret (EmptyString, Some err)
    | Ok info =>
      match EncodePrivateKey key (Net k) (Compressed info) with
      | Ok encKey => ret (encKey, None)
      | Err err => ret (EmptyString, Some err)
      end
    end
  end.

(** [bs := &wallet.BlockStamp{}]: height 0 and the all-zero hash.  The
    wallet's [ImportPrivateKey] is given the stamp to read; [bs.Height] is
    still 0 when the rescan is asked for. *)
Definition ImportPrivKey (wif : string) (rescan : bool) : Method GoError :=
  let bs := {| bsHeight := 0; bsHash := replicate 32 x00 |} in
  do r <- ImportWIFPrivateKey wif bs;
  match r.2 with
  | Some err => ret (Some err)
  | None =>
    do _ <- (if rescan then RescanAddresses (bsHeight bs) {[ r.1 ]} else ret tt);
    ret None
  end.

(** *** Tracking and rescanning *)

Definition Track : Method unit :=
  do n <- next_JSONID;
  do _ <- modify (with_acct (set_NewBlockTxJSONID n));
  do _ <- modify (with_replyHandlers (fun m => <[n := HnewBlockTxOutHandler]> m));
  do k <- get (fun w => wallet (acct w));
  do _ <- for_each (fun addr => ReqNewTxsForAddress (Address addr)) (ActiveAddresses k);
  do n <- next_JSONID;
  do _ <- modify (with_acct (set_SpentOutpointJSONID n));
  do _ <- modify (with_replyHandlers (fun m => <[n := HspentUtxoHandler]> m));
  do s <- get (fun w => UtxoStore_s (acct w));
  for_each ReqSpentUtxoNtfn s.

Definition SortedActivePaymentAddresses : Method (list string) :=
  do k <- get (fun w => wallet (acct w));
  ret (map Address (SortedActiveAddresses k)).

Definition ActivePaymentAddresses : Method (gset string) :=
  do k <- get (fun w => wallet (acct w));
  ret (fold_left (fun addrs info => {[ Address info ]} ∪ addrs) (ActiveAddresses k) ∅).

Definition RescanActiveAddresses : Method unit :=
  do a <- get acct;
  do beginBlock <-
    (if fullRescan a then
       let beginBlock := EarliestBlockHeight (wallet a) in
       do _ <- log LDebug
                 "Rescanning account '%v' for new transactions since block height %v"
                 [ArgString (name a); ArgInt beginBlock];
       ret beginBlock
     else
       let bs := SyncedWith (wallet a) in
       do _ <- log LDebug
                 "Rescanning account '%v' for new transactions after block height %v hash %v"
                 [ArgString (name a); ArgInt (bsHeight bs); ArgHash (bsHash bs)];
       ret (GoInt.int32_add (bsHeight bs) 1));
  do addrs <- ActivePaymentAddresses;
  RescanAddresses beginBlock addrs.

(** The WIF encoding of the key of an active address. *)
Definition wif_of (k : Wallet) (addr : AddressInfo) (encKey : string) : Prop :=
  exists key,
    AddressKey (Address addr) k = Ok key
    /\ EncodePrivateKey key (Net k) (Compressed addr) = Ok encKey.

(** The key of an active address cannot be had or cannot be encoded. *)
Definition wif_fails (k : Wallet) (addr : AddressInfo) (err : string) : Prop :=
  AddressKey (Address addr) k = Err err
  \/ exists key,
       AddressKey (Address addr) k = Ok key
       /\ EncodePrivateKey key (Net k) (Compressed addr) = Err err.

End AccountRest.

(** ** Words for the properties of these methods *)

Section Words.

Context {Wallet : Type}.

(** The messages put on [btcdMsgs], in order. *)
Definition btcd_msgs (evs : list (Event (Wallet := Wallet))) : list (option bytes) :=
  omap (fun ev => match ev with SendBtcdMsg mcmd => Some mcmd | _ => None end) evs.

(** The hashes of the blocks registered with the balance syncer, and those
    whose wait group was released. *)
Definition syncer_adds (evs : list (Event (Wallet := Wallet))) : list ShaHash :=
  omap (fun ev => match ev with BalanceSyncerAdd b => Some b | _ => None end) evs.

Definition syncer_dones (evs : list (Event (Wallet := Wallet))) : list ShaHash :=
  omap (fun ev => match ev with WaitGroupDone b => Some b | _ => None end) evs.

(** The transactions announced as mined, and the accounts for which a new
    transaction was announced. *)
Definition mined_txs (evs : list (Event (Wallet := Wallet))) : list RecvTx :=
  omap (fun ev => match ev with NotifyMinedTx t => Some t | _ => None end) evs.

Definition new_tx_ntfns (evs : list (Event (Wallet := Wallet))) : list string :=
  omap (fun ev => match ev with NotifyNewTxDetails account _ => Some account | _ => None end)
    evs.

(** The fields a transaction notification must carry, by the type the
    handler asserts on each. *)
Definition string_fields : list string := ["receiver"; "blockhash"; "txid"; "pkscript"].

Definition number_fields : list string :=
  ["height"; "blockindex"; "blocktime"; "txoutindex"; "amount"].

(** The field [k] of the notification [v] is absent or of another type
    than the handler asserts. *)
Definition field_unusable (v : gmap string json) (k : string) : Prop :=
  (In k string_fields /\ as_string (v !! k) = None)
  \/ (In k number_fields /\ as_float64 (v !! k) = None).

(** A sequence of calls of [MarkAddressForAccount], one for each pair of an
    address and an account, in order. *)
Definition mark_all (marks : list (string * string)) : M (Wallet := Wallet) unit :=
  for_each (fun p => MarkAddressForAccount p.1 p.2) marks.

(** The received transactions of a store. *)
Definition received (s : TxStore) : list RecvTx :=
  omap (fun e => match e with TxRecv t => Some t | TxSend _ => None end) s.

End Words.

(** ** More of the small wallet *)

Module SampleRest.
Import Sample.

Definition wallet_queries : WalletQueries KeyStore := {|
  LastChainedAddress := fun k =>
    if chained k =? 0 then Err "no chained address" else Ok "addr-a";
  ActiveAddresses := fun _ =>
    [{| Address := "addr-a"; Compressed := true |};
     {| Address := "addr-b"; Compressed := false |}];
  SortedActiveAddresses := fun _ =>
    [{| Address := "addr-a"; Compressed := true |};
     {| Address := "addr-b"; Compressed := false |}];
  AddressKey := fun address k =>
    if locked k then Err "wallet is locked"
    else if String.eqb address "addr-a" then Ok [x0a]
    else if String.eqb address "addr-b" then Ok [x0b]
    else Err "address not found";
  Wallet_AddressInfo := fun address k =>
    if String.eqb address "addr-a" then Ok {| Address := address; Compressed := true |}
    else if String.eqb address "addr-b" then Ok {| Address := address; Compressed := false |}
    else Err "address not found";
  SyncedWith := synced;
  EarliestBlockHeight := fun _ => 0
|}.

(** Stores that roll back by dropping what is at or above the height. *)
Definition store_library : StoreLibrary := {|
  UtxoStore_Rollback := fun height hash s =>
    let s' := List.filter (fun u => Height u <? height) s in
    (negb (length s' =? length s)%nat, s');
  TxStore_Rollback := fun height hash s =>
    let s' := List.filter
                (fun e => match e with
                          | TxRecv t => BlockHeight t <? height
                          | TxSend _ => true
                          end) s in
    (negb (length s' =? length s)%nat, s');
  SendTx_TxInfo := fun t account height net => [JString "send"; JString "fee"];
  EncodePrivateKey := fun key net compressed =>
    match key with
    | [] => Err "malformed private key"
    | _ => Ok (if compressed then "wif-compressed" else "wif-uncompressed")
    end
|}.

Definition amd64 : Platform := {| int_bits := 64 |}.

(** A received transaction to the address of hash [pkhash b]. *)
Definition recv (b : byte) (height : Z) : RecvTx :=
  {| TxID := hash_of b; TxOutIdx := 0; TimeReceived := 1388534400; BlockHeight := height;
     RecvBlockHash := hash_of x64; BlockIndex := 0; BlockTime := 1388534400; Amount := 5;
     ReceiverHash := pkhash b |}.

(** A world with a transaction history. *)
Definition with_history (h : TxStore) (w : World (Wallet := KeyStore)) : World :=
  with_acct (set_TxStore false h) w.

(** A history of two received transactions around a sent one. *)
Definition history : TxStore :=
  [TxRecv (recv x0a 95); TxSend {| SendTxID := hash_of xcc |}; TxRecv (recv x0b (-1))].

(** The notification of an output of 5 units to [addr-a], in the block at
    [height] or in no block when [height] is -1. *)
Definition ntfn (height : Z) (spent : bool) : gmap string json :=
  <["receiver" := JString "addr-a"]>
    (<["height" := JNumber (F64.of_int height)]>
       (<["blockhash" := JString (String.concat EmptyString (replicate 32 "64"))]>
          (<["blockindex" := JNumber (F64.of_int 0)]>
             (<["blocktime" := JNumber (F64.of_int 1388534400)]>
                (<["txid" := JString spentA_txhash]>
                   (<["txoutindex" := JNumber (F64.of_int 0)]>
                      (<["amount" := JNumber (F64.of_int 5)]>
                         (<["pkscript" := JString EmptyString]>
                            (<["spent" := JBool spent]> ∅))))))))).

End SampleRest.

(** ** Tactics *)

(** No failed write occurs among the events of [H]. *)
Ltac no_write H :=
  let a := fresh "a" in
  let msg := fresh "msg" in
  destruct H as (a & msg & H); cbn in H;
  repeat (destruct H as [H | H]; try discriminate H); try contradiction.

(** Goals about quotients and remainders by constants. *)
Ltac divmod := Z.to_euclidean_division_equations; lia.

(** Case analysis on the integer tests of the goal. *)
Ltac case_eqb :=
  repeat match goal with
         | |- context [?a =? ?b] => destruct (Z.eqb_spec a b)
         | |- context [?a <? ?b] => destruct (Z.ltb_spec a b)
         end.

(** * Properties *)

Section Properties.

Context {Wallet : Type} {WA : WalletAPI Wallet} {LIB : Library}
  {PER : Persistence (Wallet := Wallet)}.

Implicit Type w : World (Wallet := Wallet).

(** ** Unlocking *)

(** C10. [Account.Unlock] calls the wallet's unlock twice with the
    passphrase it was given, the second time on the wallet the first call
    left; it emits the lock-state notification exactly when the first call
    returned no error; and it returns what the second call returned. *)
Theorem Unlock_calls_twice (passphrase : bytes) (timeout : Z) w :
  let first := Wallet_Unlock passphrase (wallet (acct w)) in
  let second := Wallet_Unlock passphrase first.2 in
  let r := Unlock passphrase timeout w in
  value r = second.1
  /\ wallet (acct (after r)) = second.2
  /\ emitted r =
       [CallWalletUnlock passphrase]
       ++ (if first.1 is None then [NotifyWalletLockStateChange (Name first.2) false] else [])
       ++ [CallWalletUnlock passphrase]
  /\ ((exists account locked, In (NotifyWalletLockStateChange account locked) (emitted r))
      <-> first.1 = None).
Proof.
  intros first second r. subst r second. unfold Unlock, bind, call_wallet; cbn.
  fold first. destruct (first.1) as [msg|] eqn:E1; cbn.
  - repeat split; try reflexivity.
    + intros (account & l & [Hin | [Hin | []]]); discriminate.
    + discriminate.
  - repeat split; try reflexivity.
    exists (Name first.2), false. right; left; reflexivity.
Qed.

(** ** Importing a key *)

(** C7. A WIF key that decodes to another network than the account's
    makes [ImportWIFPrivateKey] return the error ``wrong network'' and
    leaves the world, the address-ownership index included, as it was. *)
Theorem ImportWIFPrivateKey_wrong_network (wif : string) (bs : BlockStamp) w
    (privkey : bytes) (net : Z) (compressed : bool) :
  DecodePrivateKey wif = Ok (privkey, net, compressed) ->
  net <> Net (wallet (acct w)) ->
  let r := ImportWIFPrivateKey wif bs w in
  value r = (EmptyString, Some "wrong network")
  /\ addressAccountMap (after r) = addressAccountMap w
  /\ after r = w
  /\ emitted r = [].
Proof.
  intros Hdec Hnet r. subst r. unfold ImportWIFPrivateKey. rewrite Hdec.
  unfold bind, a_Net, get; cbn.
  destruct (Z.eqb_spec net (Net (wallet (acct w)))) as [Heq | _]; [contradiction|].
  cbn. repeat split.
Qed.

(** ** Persistence failures *)

Lemma emitted_bind {A B} (m : M A) (k : A -> M B) w :
  emitted (bind m k w) = emitted (m w) ++ emitted (k (value (m w)) (after (m w))).
Proof. reflexivity. Qed.

Lemma value_bind {A B} (m : M A) (k : A -> M B) w :
  value (bind m k w) = value (k (value (m w)) (after (m w))).
Proof. reflexivity. Qed.

Lemma after_bind {A B} (m : M A) (k : A -> M B) w :
  after (bind m k w) = after (k (value (m w)) (after (m w))).
Proof. reflexivity. Qed.

(** The extent of the defect behind C2.  Whenever the write of the dirty
    state fails, [ImportWIFPrivateKey] logs the failure, returns the error
    ``import failed: cannot write wallet: ...'' and does not touch the
    address-ownership index, while [NewAddress] logs the failure, still
    marks the new address, still sends the one request for its
    transactions and returns the address with a [nil] error. *)
Theorem write_failure_import_reports_newaddress_logs (wif : string) (bs : BlockStamp) w :
  (write_failed (emitted (ImportWIFPrivateKey wif bs w)) ->
   exists msg,
     value (ImportWIFPrivateKey wif bs w)
     = (EmptyString, Some ("import failed: cannot write wallet: " +:+ msg))
     /\ In (Log LError "cannot write dirty wallet: %v" [ArgString msg])
          (emitted (ImportWIFPrivateKey wif bs w))
     /\ btcd_msgs (emitted (ImportWIFPrivateKey wif bs w)) = []
     /\ addressAccountMap (after (ImportWIFPrivateKey wif bs w)) = addressAccountMap w)
  /\ (write_failed (emitted (NewAddress w)) ->
      exists addr msg,
        value (NewAddress w) = (addr, None)
        /\ In (Log LError "cannot sync dirty wallet: %v" [ArgString msg]) (emitted (NewAddress w))
        /\ addressAccountMap (after (NewAddress w)) !! addr
           = Some (Name (wallet (acct (after (NewAddress w)))))
        /\ btcd_msgs (emitted (NewAddress w))
           = [match MarshalJSON (NotifyNewTXsCmd
                                   (btcwallet_id
                                      (NewBlockTxJSONID (acct (after (NewAddress w)))))
                                   [addr]) with
              | Ok m => Some m
              | Err _ => None
              end]).
Proof.
  split.
  - unfold ImportWIFPrivateKey.
    destruct (DecodePrivateKey wif) as [[[privkey net] compressed] | err]; cbn;
      [| intros Hw; no_write Hw].
    unfold bind, a_Net, get, call_wallet; cbn.
    destruct (net =? Net (wallet (acct w))); cbn; [| intros Hw; no_write Hw].
    destruct (ImportPrivateKey privkey compressed bs (wallet (acct w))) as [[addr | err] k];
      cbn; [| intros Hw; no_write Hw].
    match goal with
    | |- context [writeDirtyToDisk_impl ?a] => destruct (writeDirtyToDisk_impl a) as [[msg |] a']
    end; cbn.
    + intros _. exists msg. split; [reflexivity |].
      split; [right; left; reflexivity |]. split; reflexivity.
    + intros Hw. no_write Hw.
  - unfold NewAddress, bind, GetCurBlock, get, call_wallet; cbn.
    destruct (curBlock w) as [tip [err |]]; cbn; [intros Hw; no_write Hw |].
    destruct (NextChainedAddress tip (wallet (acct w))) as [[addr | err] k]; cbn;
      [| intros Hw; no_write Hw].
    match goal with
    | |- context [writeDirtyToDisk_impl ?a] => destruct (writeDirtyToDisk_impl a) as [[msg |] a']
    end; cbn.
    + intros _. exists addr, msg. split; [reflexivity |]. split.
      * right; left; reflexivity.
      * unfold ReqNewTxsForAddress, bind, log, emit, get; cbn.
        destruct (MarshalJSON _) as [mcmd | err] eqn:Hm; cbn.
        -- split; [apply lookup_insert_eq |]. rewrite ?Hm. reflexivity.
        -- split; [apply lookup_insert_eq |]. rewrite ?Hm. reflexivity.
    + unfold ReqNewTxsForAddress, bind, log, emit, get; cbn.
      destruct (MarshalJSON _); cbn; intros Hw; no_write Hw.
Qed.

(** ** The standing handlers *)

(** C5, as the code has it.  Whatever the result and the error, the
    new-transaction handler and the spent-output handler return [false],
    which in the convention of the source (returning [true] removes the
    handler) keeps them registered. *)
Theorem standing_handlers_return_false (result : json) (e : option btcjson_Error) w :
  value (newBlockTxOutHandler result e w) = false
  /\ value (spentUtxoHandler result e w) = false
  /\ removes_handler (value (newBlockTxOutHandler result e w)) = false
  /\ removes_handler (value (spentUtxoHandler result e w)) = false.
Proof.
  assert (Hnew : value (newBlockTxOutHandler result e w) = false).
  { unfold newBlockTxOutHandler.
    destruct e as [e |]; [reflexivity |].
    destruct result as [| b | f | s | l | v]; try reflexivity.
    destruct (as_string (v !! "receiver")) as [receiver |]; [| reflexivity].
    destruct (DecodeAddress receiver) as [[receiverHash net] | err]; [| reflexivity].
    destruct (as_float64 (v !! "height")) as [height |]; [| reflexivity].
    destruct (as_string (v !! "blockhash")) as [blockHashBE |]; [| reflexivity].
    destruct (NewShaHashFromStr blockHashBE) as [blockHash | err]; [| reflexivity].
    destruct (as_float64 (v !! "blockindex")) as [fblockIndex |]; [| reflexivity].
    destruct (as_float64 (v !! "blocktime")) as [fblockTime |]; [| reflexivity].
    destruct (as_string (v !! "txid")) as [txhashBE |]; [| reflexivity].
    destruct (NewShaHashFromStr txhashBE) as [txID | err]; [| reflexivity].
    destruct (as_float64 (v !! "txoutindex")) as [ftxOutIndex |]; [| reflexivity].
    destruct (as_float64 (v !! "amount")) as [amt |]; [| reflexivity].
    destruct (as_string (v !! "pkscript")) as [pkscript58 |]; [| reflexivity].
    reflexivity. }
  assert (Hspent : value (spentUtxoHandler result e w) = false).
  { unfold spentUtxoHandler.
    destruct e as [e |]; [reflexivity |].
    destruct result as [| b | f | s | l | v]; try reflexivity.
    destruct (as_string (v !! "txhash")) as [txHashBE |]; [| reflexivity].
    destruct (NewShaHashFromStr txHashBE) as [txHash | err]; reflexivity. }
  unfold removes_handler. rewrite Hnew, Hspent. repeat split.
Qed.

(** ** Spent outputs *)

(** The spent-output handler changes nothing in the world. *)
Lemma spentUtxoHandler_after (result : json) (e : option btcjson_Error) w :
  after (spentUtxoHandler result e w) = w.
Proof.
  unfold spentUtxoHandler.
  destruct e as [e |]; [reflexivity |].
  destruct result as [| b | f | s | l | v]; try reflexivity.
  destruct (as_string (v !! "txhash")) as [txHashBE |]; [| reflexivity].
  destruct (NewShaHashFromStr txHashBE) as [txHash | err]; [| reflexivity].
  destruct (as_float64 (v !! "index")); reflexivity.
Qed.

(** The extent of the defect behind C1.  The spent-output handler parses
    the outpoint and drops it: whatever the notification, the UtxoStore
    is left as it was, so both balances are what they were before. *)
Theorem spentUtxoHandler_keeps_balances (result : json) (e : option btcjson_Error) w
    (confirms : Z) (pubkeyHash : bytes) :
  let w' := after (spentUtxoHandler result e w) in
  UtxoStore_s (acct w') = UtxoStore_s (acct w)
  /\ value (CalculateBalance confirms w') = value (CalculateBalance confirms w)
  /\ value (CalculateAddressBalance pubkeyHash confirms w')
     = value (CalculateAddressBalance pubkeyHash confirms w).
Proof.
  cbv zeta. rewrite spentUtxoHandler_after. repeat split.
Qed.

(** ** The rescan reply handler *)

(** The balance queries only read. *)
Lemma CalculateBalance_reads (confirms : Z) w :
  after (CalculateBalance confirms w) = w /\ emitted (CalculateBalance confirms w) = [].
Proof.
  unfold CalculateBalance, bind, GetCurBlock, get; cbn.
  destruct (tip_unknown (curBlock w)); split; reflexivity.
Qed.

Lemma CalculateAddressBalance_reads (pubkeyHash : bytes) (confirms : Z) w :
  after (CalculateAddressBalance pubkeyHash confirms w) = w
  /\ emitted (CalculateAddressBalance pubkeyHash confirms w) = [].
Proof.
  unfold CalculateAddressBalance, bind, GetCurBlock, get; cbn.
  destruct (tip_unknown (curBlock w)); split; reflexivity.
Qed.

(** On [nil] the new-transaction handler does nothing but log. *)
Lemma newBlockTxOutHandler_nil (e : option btcjson_Error) w :
  after (newBlockTxOutHandler JNull e w) = w
  /\ Forall (fun ev => is_balance_ntfn ev = false) (emitted (newBlockTxOutHandler JNull e w)).
Proof.
  unfold newBlockTxOutHandler. destruct e as [e |]; cbn; split; try reflexivity.
  - repeat constructor.
  - constructor.
Qed.

(** C3, as the code has it.  On the terminal result [nil] the rescan reply
    handler emits no balance notification and returns [true]; when
    [GetCurBlock] succeeds it sets the wallet's synced-with stamp to the
    current tip, marks the account dirty and writes the dirty state, a
    failure of the write being logged only: after what the
    new-transaction handler logged, its events are the one write and, when
    the write failed, the one error line ``cannot sync dirty wallet'' with
    the error of the write, and it still returns [true]; when
    [GetCurBlock] fails it changes nothing and emits nothing more.  The
    balances are recomputed and notified on every
    other result: the handler then ends with the two balance
    notifications, computed after the new-transaction handler has run, and
    returns [false]. *)
Theorem rescanReplyHandler_terminal (e : option btcjson_Error) w :
  (let r := rescanReplyHandler JNull e w in
   let handler_log :=
     if e is Some err
     then [Log LError "Tx Handler: Error %d received from btcd: %s"
             [ArgInt (Code err); ArgString (Message err)]]
     else [] in
   value r = true
   /\ Forall (fun ev => is_balance_ntfn ev = false) (emitted r)
   /\ match (curBlock w).2 with
      | None =>
        let a := set_dirty true (set_wallet (SetSyncedWith (curBlock w).1 (wallet (acct w)))
                                   (acct w)) in
        dirty a = true
        /\ In (CallWriteDirtyToDisk a (writeDirtyToDisk_impl a).1) (emitted r)
        /\ acct (after r) = (writeDirtyToDisk_impl a).2
        /\ emitted r
           = handler_log
             ++ CallWriteDirtyToDisk a (writeDirtyToDisk_impl a).1
                :: (if (writeDirtyToDisk_impl a).1 is Some msg
                    then [Log LError "cannot sync dirty wallet: %v" [ArgString msg]]
                    else [])
      | Some _ => after r = w /\ emitted r = handler_log
      end)
  /\ (forall result, result <> JNull ->
      let r := rescanReplyHandler result e w in
      let w1 := after (newBlockTxOutHandler result e w) in
      let confirmed := value (CalculateBalance 1 w1) in
      let unconfirmed := F64.sub (value (CalculateBalance 0 w1)) confirmed in
      value r = false
      /\ after r = w1
      /\ emitted r
         = emitted (newBlockTxOutHandler result e w)
           ++ [NotifyWalletBalance (name (acct w1)) confirmed;
               NotifyWalletBalanceUnconfirmed (name (acct w1)) unconfirmed]).
Proof.
  split.
  - cbv zeta. destruct (newBlockTxOutHandler_nil e w) as [Hw Hev].
    assert (Hlog : emitted (newBlockTxOutHandler JNull e w)
                   = (if e is Some err
                      then [Log LError "Tx Handler: Error %d received from btcd: %s"
                              [ArgInt (Code err); ArgString (Message err)]]
                      else []))
      by (destruct e; reflexivity).
    unfold rescanReplyHandler.
    rewrite value_bind, emitted_bind, after_bind, Hw.
    unfold bind at 1 2 3, GetCurBlock, get; cbn.
    destruct (curBlock w) as [tip [err |]] eqn:Hcur; cbn.
    + split; [reflexivity |]. split; [rewrite app_nil_r; exact Hev |].
      split; [reflexivity |]. rewrite app_nil_r. exact Hlog.
    + unfold bind, writeDirtyToDisk, modify; cbn.
      match goal with
      | |- context [writeDirtyToDisk_impl ?a] =>
        destruct (writeDirtyToDisk_impl a) as [[msg |] a'] eqn:Hwr
      end; cbn.
      * split; [reflexivity |]. split.
        { apply Forall_app. split; [exact Hev | repeat constructor]. }
        split; [reflexivity |].
        split; [apply in_or_app; right; left; reflexivity |].
        split; [reflexivity |]. rewrite Hlog. reflexivity.
      * split; [reflexivity |]. split.
        { apply Forall_app. split; [exact Hev | repeat constructor]. }
        split; [reflexivity |].
        split; [apply in_or_app; right; left; reflexivity |].
        split; [reflexivity |]. rewrite Hlog. reflexivity.
  - intros result Hnil. cbv zeta. unfold rescanReplyHandler.
    rewrite value_bind, emitted_bind, after_bind.
    set (w1 := after (newBlockTxOutHandler result e w)).
    pose proof (CalculateBalance_reads 1 w1) as [Ha1 He1].
    pose proof (CalculateBalance_reads 0 w1) as [Ha0 He0].
    destruct result; try contradiction;
      rewrite ?value_bind, ?emitted_bind, ?after_bind, ?Ha1, ?He1, ?Ha0, ?He0;
      repeat split.
Qed.

End Properties.

(** ** Rounding: [float64(bal) / float64(SatoshiPerBitcoin)] is monotone *)

Section RoundingFacts.
Import Rounding.

Lemma sf_mono (N1 N2 D : Z) : 0 < D -> N1 <= N2 -> sf N1 D <= sf N2 D.
Proof.
  intros HD HN. unfold sf.
  pose proof (Z.div_le_mono N1 N2 D HD HN) as Hq.
  destruct (Z.eqb_spec (N1 mod D) 0) as [H1 | H1];
    destruct (Z.eqb_spec (N2 mod D) 0) as [H2 | H2]; try lia.
  destruct (Z.eq_dec (N1 / D) (N2 / D)) as [Heq | Hne]; [| lia].
  exfalso. apply H1.
  pose proof (Z.div_mod N1 D ltac:(lia)). pose proof (Z.div_mod N2 D ltac:(lia)).
  pose proof (Z.mod_pos_bound N1 D HD). rewrite Heq in *. nia.
Qed.

Lemma sf_double (N D : Z) : 0 < D -> g (sf N D) = sf N (2 * D).
Proof.
  intros HD. unfold g, sf.
  pose proof (Z.div_mod N D ltac:(lia)) as E1. pose proof (Z.mod_pos_bound N D HD) as B1.
  pose proof (Z.div_mod N (2 * D) ltac:(lia)) as E2.
  pose proof (Z.mod_pos_bound N (2 * D) ltac:(lia)) as B2.
  remember (N / D) as q1. remember (N mod D) as r1.
  remember (N / (2 * D)) as q2. remember (N mod (2 * D)) as r2.
  destruct (Z.ltb_spec r2 D) as [Hlt | Hge].
  - assert (q1 = 2 * q2) by nia. assert (r1 = r2) by nia. subst q1 r1.
    case_eqb; divmod.
  - assert (q1 = 2 * q2 + 1) by nia. assert (r1 = r2 - D) by nia. subst q1 r1.
    case_eqb; try lia; divmod.
Qed.

Lemma g_mono (p1 p2 : Z) : p1 <= p2 -> g p1 <= g p2.
Proof. apply sf_mono. lia. Qed.

Lemma g_div4 (p : Z) : g p / 4 = p / 4 / 2.
Proof. unfold g, sf. destruct (Z.eqb_spec (p mod 4) 0); divmod. Qed.

Lemma g_nonneg (p : Z) : 0 <= p -> 0 <= g p.
Proof. intros Hp. unfold g, sf. destruct (Z.eqb_spec (p mod 4) 0); divmod. Qed.

Lemma rne_mono (p1 p2 : Z) : p1 <= p2 -> rne p1 <= rne p2.
Proof.
  intros Hp. unfold rne.
  destruct (Z.eq_dec (p1 / 4) (p2 / 4)) as [Heq | Hne].
  - rewrite Heq. assert (p1 mod 4 <= p2 mod 4) by divmod.
    destruct (Z.ltb_spec (p1 mod 4) 2); destruct (Z.ltb_spec (p2 mod 4) 2);
      destruct (Z.eqb_spec (p1 mod 4) 2); destruct (Z.eqb_spec (p2 mod 4) 2);
      destruct (Z.even (p2 / 4)); lia.
  - assert (p1 / 4 + 1 <= p2 / 4) by divmod.
    destruct (Z.ltb_spec (p1 mod 4) 2); destruct (Z.ltb_spec (p2 mod 4) 2);
      destruct (Z.eqb_spec (p1 mod 4) 2); destruct (Z.eqb_spec (p2 mod 4) 2);
      destruct (Z.even (p1 / 4)); destruct (Z.even (p2 / 4)); lia.
Qed.

Lemma rne_bounds (p : Z) : p / 4 <= rne p <= p / 4 + 1.
Proof.
  unfold rne. destruct (Z.ltb_spec (p mod 4) 2); destruct (Z.eqb_spec (p mod 4) 2);
    destruct (Z.even (p / 4)); lia.
Qed.

Lemma sf_scale (k N D : Z) : 0 < k -> 0 < D -> sf (k * N) (k * D) = sf N D.
Proof.
  intros Hk HD. unfold sf.
  rewrite Z.div_mul_cancel_l by lia. rewrite Z.mul_mod_distr_l by lia.
  destruct (Z.eqb_spec (N mod D) 0) as [-> | Hne].
  - rewrite Z.mul_0_r. reflexivity.
  - destruct (Z.eqb_spec (k * (N mod D)) 0); [nia | reflexivity].
Qed.

Lemma sf_div4 (N D : Z) : 0 < D -> sf N D / 4 = N / (2 * D).
Proof.
  intros HD. unfold sf. replace (2 * D) with (D * 2) by lia.
  rewrite <- Z.div_div by lia.
  destruct (Z.eqb_spec (N mod D) 0); generalize (N / D); intros q; divmod.
Qed.

(** *** Sticky shifts of [shr_record]s *)

Lemma div4 (m c : Z) : 0 <= c < 4 -> (4 * m + c) / 4 = m /\ (4 * m + c) mod 4 = c.
Proof.
  intros Hc. split; symmetry.
  - apply (Z.div_unique _ 4 m c); lia.
  - apply (Z.mod_unique _ 4 m c); lia.
Qed.

Lemma g_enc (m c : Z) : 0 <= c < 4 -> g (4 * m + c) = 2 * m + (if c =? 0 then 0 else 1).
Proof. intros Hc. unfold g, sf. destruct (div4 m c Hc) as [-> ->]. reflexivity. Qed.

Lemma enc_shr_1 (mrs : shr_record) :
  0 <= shr_m mrs -> enc (shr_1 mrs) = g (enc mrs) /\ 0 <= shr_m (shr_1 mrs).
Proof.
  destruct mrs as [m r s]. cbn [shr_m]. intros Hm. unfold enc.
  cbn [shr_m shr_r shr_s].
  replace (4 * m + (if r then 2 else 0) + (if s then 1 else 0))
    with (4 * m + ((if r then 2 else 0) + (if s then 1 else 0))) by lia.
  rewrite g_enc by (destruct r, s; lia).
  destruct m as [| p | p]; [| | lia].
  - destruct r, s; split; vm_compute; congruence.
  - destruct p as [p | p |];
      [pose proof (Pos2Z.inj_xI p) | pose proof (Pos2Z.inj_xO p) |];
      destruct r, s; cbn [shr_1 shr_m shr_r shr_s orb]; split; case_eqb; lia.
Qed.

Lemma enc_iter_shr_1 (p : positive) (mrs : shr_record) :
  0 <= shr_m mrs ->
  enc (SpecFloat.iter_pos shr_1 p mrs) = SpecFloat.iter_pos g p (enc mrs) /\ 0 <= shr_m (SpecFloat.iter_pos shr_1 p mrs).
Proof.
  revert mrs. induction p as [p IH | p IH |]; intros mrs Hm; cbn [SpecFloat.iter_pos].
  - destruct (enc_shr_1 mrs Hm) as [E1 H1].
    destruct (IH _ H1) as [E2 H2]. destruct (IH _ H2) as [E3 H3].
    split; [congruence | assumption].
  - destruct (IH _ Hm) as [E2 H2]. destruct (IH _ H2) as [E3 H3].
    split; [congruence | assumption].
  - apply enc_shr_1, Hm.
Qed.

Lemma iter_g_mono (p : positive) (a b : Z) : a <= b -> SpecFloat.iter_pos g p a <= SpecFloat.iter_pos g p b.
Proof.
  revert a b. induction p as [p IH | p IH |]; intros a b Hab; cbn [SpecFloat.iter_pos].
  - apply IH, IH, g_mono, Hab.
  - apply IH, IH, Hab.
  - apply g_mono, Hab.
Qed.

Lemma pow2_xI (p : positive) : 2 ^ Zpos p~1 = 2 * 2 ^ Zpos p * 2 ^ Zpos p.
Proof.
  rewrite (Pos2Z.inj_xI p). replace (2 * Zpos p + 1) with (1 + Zpos p + Zpos p) by lia.
  rewrite !Z.pow_add_r, Z.pow_1_r by lia. reflexivity.
Qed.

Lemma pow2_xO (p : positive) : 2 ^ Zpos p~0 = 2 ^ Zpos p * 2 ^ Zpos p.
Proof.
  rewrite (Pos2Z.inj_xO p). replace (2 * Zpos p) with (Zpos p + Zpos p) by lia.
  rewrite Z.pow_add_r by lia. reflexivity.
Qed.

Lemma iter_g_div4 (p : positive) (a : Z) : SpecFloat.iter_pos g p a / 4 = a / 4 / 2 ^ Zpos p.
Proof.
  revert a. induction p as [p IH | p IH |]; intros a; cbn [SpecFloat.iter_pos].
  - assert (0 < 2 ^ Zpos p) by (apply Z.pow_pos_nonneg; lia).
    rewrite !IH, g_div4, pow2_xI. rewrite !Z.div_div by lia. f_equal; ring.
  - assert (0 < 2 ^ Zpos p) by (apply Z.pow_pos_nonneg; lia).
    rewrite !IH, pow2_xO. rewrite !Z.div_div by lia. f_equal; ring.
  - rewrite g_div4. reflexivity.
Qed.

Lemma shift_enc_mono (n a b : Z) : a <= b -> shift_enc n a <= shift_enc n b.
Proof. destruct n; cbn; auto using iter_g_mono. Qed.

Lemma shift_enc_div4 (n a : Z) : 0 <= n -> shift_enc n a / 4 = a / 4 / 2 ^ n.
Proof.
  destruct n as [| k | k]; cbn [shift_enc]; intros Hn.
  - rewrite Z.pow_0_r, Z.div_1_r. reflexivity.
  - apply iter_g_div4.
  - lia.
Qed.

(** *** Digits *)

Lemma digits2_pos_size (p : positive) : digits2_pos p = Pos.size p.
Proof. induction p; cbn; congruence. Qed.

Lemma Zdigits2_bounds (m : Z) :
  0 < m -> 0 < Zdigits2 m /\ 2 ^ (Zdigits2 m - 1) <= m < 2 ^ Zdigits2 m.
Proof.
  destruct m as [| p | p]; try lia. intros _. cbn [Zdigits2].
  rewrite digits2_pos_size. split; [lia |].
  pose proof (Pos.size_gt p) as Hgt. pose proof (Pos.size_le p) as Hle.
  apply Pos2Z.pos_lt_pos in Hgt. apply Pos2Z.pos_le_pos in Hle.
  rewrite Pos2Z.inj_pow in Hgt, Hle. rewrite (Pos2Z.inj_xO p) in Hle.
  split; [| exact Hgt].
  replace (Zpos (Pos.size p)) with (Zpos (Pos.size p) - 1 + 1) in Hle by lia.
  rewrite Z.pow_add_r in Hle by lia. change (2 ^ 1) with 2 in Hle. lia.
Qed.

Lemma Zdigits2_unique (m k : Z) : 2 ^ (k - 1) <= m < 2 ^ k -> 0 < m -> Zdigits2 m = k.
Proof.
  intros Hk Hm. destruct (Zdigits2_bounds m Hm) as [Hd Hb].
  destruct (Z.lt_trichotomy (Zdigits2 m) k) as [Hlt | [Heq | Hgt]]; [| exact Heq |].
  - assert (2 ^ Zdigits2 m <= 2 ^ (k - 1)) by (apply Z.pow_le_mono_r; lia). lia.
  - assert (0 < k).
    { destruct (Z.le_gt_cases k 0) as [Hk0 | ?]; [| lia].
      destruct (Z.eq_dec k 0) as [-> | ?].
      - cbn in Hk. lia.
      - rewrite (Z.pow_neg_r 2 k) in Hk by lia. lia. }
    assert (2 ^ k <= 2 ^ (Zdigits2 m - 1)) by (apply Z.pow_le_mono_r; lia). lia.
Qed.

(** *** [binary_round_aux] on a mantissa of at least 53 digits *)

Lemma enc_of_loc (m : Z) (l : location) : enc (shr_record_of_loc m l) = 4 * m + code l.
Proof.
  destruct l as [| []]; unfold enc; cbn [shr_record_of_loc shr_m shr_r shr_s code]; lia.
Qed.

Lemma shr_fexp_enc (m e : Z) (l : location) :
  0 < m -> 53 <= Zdigits2 m -> -1074 <= Zdigits2 m + e - 53 ->
  exists mrs,
    shr_fexp 53 1024 m e l = (mrs, e + (Zdigits2 m - 53))
    /\ enc mrs = shift_enc (Zdigits2 m - 53) (4 * m + code l)
    /\ 0 <= shr_m mrs.
Proof.
  intros Hm Hd He. unfold shr_fexp, fexp, emin.
  replace (Z.max (Zdigits2 m + e - 53) (3 - 1024 - 53) - e) with (Zdigits2 m - 53) by lia.
  destruct (Zdigits2 m - 53) as [| k | k] eqn:Hk; cbn [shr shift_enc]; [| | lia].
  - exists (shr_record_of_loc m l). rewrite Z.add_0_r, enc_of_loc.
    split; [reflexivity |]. split; [reflexivity |]. destruct l as [| []]; cbn; lia.
  - assert (H0 : 0 <= shr_m (shr_record_of_loc m l)) by (destruct l as [| []]; cbn; lia).
    destruct (enc_iter_shr_1 k _ H0) as [E1 H1].
    exists (SpecFloat.iter_pos shr_1 k (shr_record_of_loc m l)). rewrite E1, enc_of_loc.
    repeat split. exact H1.
Qed.

Lemma round_enc (mrs : shr_record) :
  round_nearest_even (shr_m mrs) (loc_of_shr_record mrs) = rne (enc mrs).
Proof.
  destruct mrs as [m r s]. unfold rne, enc. cbn [shr_m shr_r shr_s].
  destruct r, s; cbn [loc_of_shr_record round_nearest_even].
  - replace ((4 * m + 2 + 1) / 4) with m by divmod.
    replace ((4 * m + 2 + 1) mod 4) with 3 by divmod. reflexivity.
  - replace ((4 * m + 2 + 0) / 4) with m by divmod.
    replace ((4 * m + 2 + 0) mod 4) with 2 by divmod. reflexivity.
  - replace ((4 * m + 0 + 1) / 4) with m by divmod.
    replace ((4 * m + 0 + 1) mod 4) with 1 by divmod. reflexivity.
  - replace ((4 * m + 0 + 0) / 4) with m by divmod.
    replace ((4 * m + 0 + 0) mod 4) with 0 by divmod. reflexivity.
Qed.

Lemma shift_enc_range (m c : Z) :
  0 < m -> 53 <= Zdigits2 m -> 0 <= c < 4 ->
  2 ^ 52 <= shift_enc (Zdigits2 m - 53) (4 * m + c) / 4 < 2 ^ 53.
Proof.
  intros Hm Hd Hc. rewrite shift_enc_div4 by lia.
  replace ((4 * m + c) / 4) with m by divmod.
  destruct (Zdigits2_bounds m Hm) as [_ Hb].
  set (n := Zdigits2 m - 53) in *.
  replace (Zdigits2 m - 1) with (52 + n) in Hb by lia.
  replace (Zdigits2 m) with (53 + n) in Hb by lia.
  rewrite !Z.pow_add_r in Hb by lia.
  assert (0 < 2 ^ n) by (apply Z.pow_pos_nonneg; lia).
  split.
  - apply Z.div_le_lower_bound; lia.
  - apply Z.div_lt_upper_bound; lia.
Qed.

Lemma code_range (l : location) : 0 <= code l < 4.
Proof. destruct l as [| []]; cbn; lia. Qed.

Lemma binary_round_aux_norm (m e : Z) (l : location) :
  0 < m -> 53 <= Zdigits2 m -> -1074 <= Zdigits2 m + e - 53 ->
  e + (Zdigits2 m - 53) + 1 <= 971 ->
  binary_round_aux 53 1024 false m e l
  = norm (rne (shift_enc (Zdigits2 m - 53) (4 * m + code l))) (e + (Zdigits2 m - 53)).
Proof.
  intros Hm Hd He Hmax.
  destruct (shr_fexp_enc m e l Hm Hd He) as (mrs & E1 & E2 & H2).
  pose proof (shift_enc_range m (code l) Hm Hd (code_range l)) as Hr.
  unfold binary_round_aux. rewrite E1, round_enc, E2.
  set (p := shift_enc (Zdigits2 m - 53) (4 * m + code l)) in *.
  set (e' := e + (Zdigits2 m - 53)) in *.
  pose proof (rne_bounds p) as Hb.
  unfold norm. destruct (Z.eqb_spec (rne p) (2 ^ 53)) as [Heq | Hne].
  - rewrite Heq. unfold shr_fexp, fexp, emin.
    change (Zdigits2 (2 ^ 53)) with 54.
    replace (Z.max (54 + e' - 53) (3 - 1024 - 53) - e') with 1 by lia.
    cbn [shr SpecFloat.iter_pos]. change (shr_m (shr_1 (shr_record_of_loc (2 ^ 53) loc_Exact))) with (2 ^ 52).
    change (2 ^ 52) with (Zpos (Z.to_pos (2 ^ 52))) at 1.
    cbv iota beta. destruct (Z.leb_spec (e' + 1) (1024 - 53)); [reflexivity | lia].
  - assert (Hd1 : Zdigits2 (rne p) = 53) by (apply Zdigits2_unique; lia).
    unfold shr_fexp, fexp, emin. rewrite Hd1.
    replace (Z.max (53 + e' - 53) (3 - 1024 - 53) - e') with 0 by lia.
    cbn [shr shr_record_of_loc shr_m].
    destruct (rne p) as [| q | q] eqn:Hq; [lia | | lia].
    cbn [Z.to_pos]. destruct (Z.leb_spec e' (1024 - 53)); [reflexivity | lia].
Qed.

(** *** Order *)

Lemma norm_normal (m e : Z) : 2 ^ 52 <= m <= 2 ^ 53 -> normal (norm m e).
Proof.
  intros Hm. unfold norm. destruct (Z.eqb_spec m (2 ^ 53)); cbn [normal].
  - change (Zpos (Z.to_pos (2 ^ 52))) with (2 ^ 52). lia.
  - rewrite Z2Pos.id by lia. lia.
Qed.

Lemma rank_norm (m e : Z) :
  2 ^ 52 <= m <= 2 ^ 53 ->
  rank (norm m e) = if m =? 2 ^ 53 then (e + 1) * 2 ^ 53 + 2 ^ 52 else e * 2 ^ 53 + m.
Proof.
  intros Hm. unfold norm. destruct (Z.eqb_spec m (2 ^ 53)); cbn [rank].
  - reflexivity.
  - rewrite Z2Pos.id by lia. reflexivity.
Qed.

Lemma rank_norm_mono (m1 e1 m2 e2 : Z) :
  2 ^ 52 <= m1 <= 2 ^ 53 -> 2 ^ 52 <= m2 <= 2 ^ 53 ->
  e1 < e2 \/ (e1 = e2 /\ m1 <= m2) ->
  rank (norm m1 e1) <= rank (norm m2 e2).
Proof.
  intros H1 H2 Hle. rewrite !rank_norm by assumption.
  destruct (Z.eqb_spec m1 (2 ^ 53)); destruct (Z.eqb_spec m2 (2 ^ 53)); nia.
Qed.

Lemma SFleb_rank (x y : spec_float) :
  normal x -> normal y -> rank x <= rank y -> SFleb x y = true.
Proof.
  destruct x as [| | | [] mx ex]; try contradiction.
  destruct y as [| | | [] my ey]; try contradiction.
  cbn [normal rank]. intros Hx Hy Hr. unfold SFleb, SFcompare.
  destruct (Z.compare_spec ex ey) as [Heq | Hlt | Hgt]; [| reflexivity | nia].
  subst ey. rewrite Pos.compare_cont_spec. cbn [Pos.switch_Eq].
  destruct (Pos.compare_spec mx my) as [? | ? | Hgt]; try reflexivity. lia.
Qed.

Lemma rank_order (x y : spec_float) (mx my : positive) (ex ey : Z) :
  x = S754_finite false mx ex -> y = S754_finite false my ey ->
  normal x -> normal y -> rank x <= rank y ->
  ex < ey \/ (ex = ey /\ Zpos mx <= Zpos my).
Proof.
  intros -> ->. cbn [normal rank]. intros Hx Hy Hr.
  destruct (Z.lt_trichotomy ex ey) as [? | [-> | ?]]; [left; assumption | right; lia | nia].
Qed.

(** *** [float64(n)] *)

Lemma Pos_iter_xO (k p : positive) : Zpos (Pos.iter xO p k) = Zpos p * 2 ^ Zpos k.
Proof.
  induction k as [| k IH] using Pos.peano_ind.
  - cbn [Pos.iter]. rewrite (Pos2Z.inj_xO p), Z.pow_1_r. lia.
  - rewrite Pos.iter_succ, (Pos2Z.inj_xO (Pos.iter xO p k)), IH.
    rewrite Pos2Z.inj_succ, Z.pow_succ_r by lia. ring.
Qed.

Lemma rne_exact (m : Z) : rne (4 * m) = m.
Proof.
  unfold rne. replace (4 * m / 4) with m by divmod.
  replace ((4 * m) mod 4) with 0 by divmod. reflexivity.
Qed.

Lemma binary_round_aux_exact (m e : Z) :
  0 < m -> 53 <= Zdigits2 m -> -1074 <= Zdigits2 m + e - 53 ->
  e + (Zdigits2 m - 53) + 1 <= 971 ->
  binary_round_aux 53 1024 false m e loc_Exact
  = norm (rne (shift_enc (Zdigits2 m - 53) (4 * m))) (e + (Zdigits2 m - 53)).
Proof.
  intros. rewrite binary_round_aux_norm by assumption.
  cbn [code]. rewrite Z.add_0_r. reflexivity.
Qed.

Lemma Zdigits2_le_64 (n : Z) : 0 < n < 2 ^ 64 -> 0 < Zdigits2 n <= 64.
Proof.
  intros Hn. destruct (Zdigits2_bounds n ltac:(lia)) as [Hd Hb]. split; [exact Hd |].
  destruct (Z.le_gt_cases (Zdigits2 n) 64) as [? | Hgt]; [assumption |].
  assert (2 ^ 64 <= 2 ^ (Zdigits2 n - 1)) by (apply Z.pow_le_mono_r; lia). lia.
Qed.

Lemma shifted_left_range (n : Z) :
  0 < n -> Zdigits2 n <= 53 -> 2 ^ 52 <= n * 2 ^ (53 - Zdigits2 n) < 2 ^ 53.
Proof.
  intros Hn Hle. destruct (Zdigits2_bounds n Hn) as [Hd Hb].
  set (d := Zdigits2 n) in *.
  assert (E52 : 2 ^ 52 = 2 ^ (d - 1) * 2 ^ (53 - d))
    by (rewrite <- Z.pow_add_r by lia; f_equal; lia).
  assert (E53 : 2 ^ 53 = 2 ^ d * 2 ^ (53 - d))
    by (rewrite <- Z.pow_add_r by lia; f_equal; lia).
  assert (0 < 2 ^ (53 - d)) by (apply Z.pow_pos_nonneg; lia).
  rewrite E52, E53. split.
  - apply Z.mul_le_mono_nonneg_r; lia.
  - apply Z.mul_lt_mono_pos_r; lia.
Qed.

Lemma of_int_enc_range (n : Z) :
  0 < n < 2 ^ 64 -> 2 ^ 52 <= of_int_enc n / 4 < 2 ^ 53.
Proof.
  intros Hn. unfold of_int_enc. destruct (Z.leb_spec (Zdigits2 n) 53) as [Hle | Hgt].
  - destruct (div4 (n * 2 ^ (53 - Zdigits2 n)) 0 ltac:(lia)) as [E _].
    rewrite Z.add_0_r in E. rewrite E. apply shifted_left_range; lia.
  - pose proof (shift_enc_range n 0 ltac:(lia) ltac:(lia) ltac:(lia)) as Hr.
    rewrite Z.add_0_r in Hr. exact Hr.
Qed.

Lemma of_int_norm (n : Z) :
  0 < n < 2 ^ 64 ->
  F64.of_int n = norm (rne (of_int_enc n)) (Zdigits2 n - 53).
Proof.
  intros Hn. destruct (Zdigits2_le_64 n Hn) as [Hd Hd64].
  destruct n as [| p | p]; try lia.
  unfold F64.of_int, binary_normalize, binary_round, F64.prec, F64.emax, of_int_enc.
  change (Zpos (digits2_pos p)) with (Zdigits2 (Zpos p)).
  unfold fexp, emin. rewrite Z.add_0_r.
  replace (Z.max (Zdigits2 (Zpos p) - 53) (3 - 1024 - 53)) with (Zdigits2 (Zpos p) - 53) by lia.
  unfold shl_align. rewrite Z.sub_0_r.
  destruct (Z.leb_spec (Zdigits2 (Zpos p)) 53) as [Hle | Hgt].
  - (* the integer fits the mantissa: it is shifted left *)
    pose proof (shifted_left_range (Zpos p) ltac:(lia) Hle) as Hm.
    assert (Hdig : Zdigits2 (Zpos p * 2 ^ (53 - Zdigits2 (Zpos p))) = 53)
      by (apply Zdigits2_unique; lia).
    rewrite rne_exact.
    destruct (Zdigits2 (Zpos p) - 53) as [| k | k] eqn:Hk; [| lia |].
    + replace (53 - Zdigits2 (Zpos p)) with 0 in * by lia.
      rewrite Z.pow_0_r, Z.mul_1_r in *.
      rewrite binary_round_aux_exact by lia.
      rewrite Hdig. cbn [shift_enc Z.sub Z.opp Z.add Z.pos_sub]. 
      change (53 - 53) with 0. cbn [shift_enc]. rewrite rne_exact. reflexivity.
    + replace (53 - Zdigits2 (Zpos p)) with (Zpos k) in * by lia.
      rewrite Pos_iter_xO.
      rewrite binary_round_aux_exact by lia.
      rewrite Hdig. change (53 - 53) with 0. cbn [shift_enc]. rewrite rne_exact.
      rewrite Z.add_0_r. reflexivity.
  - destruct (Zdigits2 (Zpos p) - 53) as [| k | k] eqn:Hk; try lia.
    rewrite binary_round_aux_exact by lia.
    rewrite Z.add_0_l, Hk. reflexivity.
Qed.

Lemma Zdigits2_mono (a b : Z) : 0 < a <= b -> Zdigits2 a <= Zdigits2 b.
Proof.
  intros Hab.
  destruct (Zdigits2_bounds a ltac:(lia)) as [Ha0 Ha].
  destruct (Zdigits2_bounds b ltac:(lia)) as [Hb0 Hb].
  destruct (Z.le_gt_cases (Zdigits2 a) (Zdigits2 b)) as [? | Hgt]; [assumption |].
  assert (2 ^ Zdigits2 b <= 2 ^ (Zdigits2 a - 1)) by (apply Z.pow_le_mono_r; lia). lia.
Qed.

Lemma rne_range (p : Z) : 2 ^ 52 <= p / 4 < 2 ^ 53 -> 2 ^ 52 <= rne p <= 2 ^ 53.
Proof. intros Hp. pose proof (rne_bounds p). lia. Qed.

Lemma of_int_mono (a b : Z) :
  0 < a <= b -> b < 2 ^ 64 -> rank (F64.of_int a) <= rank (F64.of_int b).
Proof.
  intros Hab Hb.
  pose proof (of_int_enc_range a ltac:(lia)) as Ra.
  pose proof (of_int_enc_range b ltac:(lia)) as Rb.
  rewrite (of_int_norm a), (of_int_norm b) by lia.
  apply rank_norm_mono; try (apply rne_range; assumption).
  pose proof (Zdigits2_mono a b Hab) as Hd.
  destruct (Z.eq_dec (Zdigits2 a) (Zdigits2 b)) as [Heq | Hne]; [right | left; lia].
  split; [lia |]. apply rne_mono. unfold of_int_enc. rewrite Heq.
  destruct (Z.leb_spec (Zdigits2 b) 53).
  - assert (0 < 2 ^ (53 - Zdigits2 b)) by (apply Z.pow_pos_nonneg; lia). nia.
  - apply shift_enc_mono. lia.
Qed.

Lemma of_int_shape (n : Z) :
  0 < n < 2 ^ 64 ->
  exists m e, F64.of_int n = S754_finite false m e
              /\ 2 ^ 52 <= Zpos m < 2 ^ 53 /\ -52 <= e <= 12.
Proof.
  intros Hn. pose proof (rne_range _ (of_int_enc_range n Hn)) as Hr.
  destruct (Zdigits2_le_64 n Hn) as [Hd Hd64].
  rewrite (of_int_norm n Hn). unfold norm. destruct (Z.eqb_spec (rne (of_int_enc n)) (2 ^ 53)).
  - eexists _, _. split; [reflexivity |].
    change (Zpos (Z.to_pos (2 ^ 52))) with (2 ^ 52). lia.
  - eexists _, _. split; [reflexivity |]. rewrite Z2Pos.id by lia. lia.
Qed.

(** *** Division by [float64(SatoshiPerBitcoin)] *)

Lemma of_int_coin :
  F64.of_int btcutil.SatoshiPerBitcoin = S754_finite false (Z.to_pos coin_m) (-26).
Proof. reflexivity. Qed.

Lemma div_mod_eq (a b q r : Z) : 0 <= r < b -> a = b * q + r -> a / b = q /\ a mod b = r.
Proof.
  intros Hr E. split; symmetry.
  - apply (Z.div_unique a b q r); [left; exact Hr | exact E].
  - apply (Z.mod_unique a b q r); [left; exact Hr | exact E].
Qed.

Lemma new_location_sf (D N r q : Z) :
  0 < D -> Z.even D = true -> N = D * q + r -> 0 <= r < D ->
  4 * q + code (new_location D r) = sf (2 * N) D.
Proof.
  intros HD Hev HN Hr. unfold new_location. rewrite Hev.
  unfold new_location_even, sf.
  destruct (Z.eqb_spec r 0) as [-> | Hr0].
  - destruct (div_mod_eq (2 * N) D (2 * q) 0) as [-> ->]; [lia | lia |].
    cbn [code]. rewrite Z.eqb_refl. lia.
  - destruct (Z.compare_spec (2 * r) D) as [Heq | Hlt | Hgt]; cbn [code].
    + destruct (div_mod_eq (2 * N) D (2 * q + 1) 0) as [-> ->]; [lia | lia |].
      rewrite Z.eqb_refl. lia.
    + destruct (div_mod_eq (2 * N) D (2 * q) (2 * r)) as [-> ->]; [lia | lia |].
      destruct (Z.eqb_spec (2 * r) 0); lia.
    + destruct (div_mod_eq (2 * N) D (2 * q + 1) (2 * r - D)) as [-> ->]; [lia | lia |].
      destruct (Z.eqb_spec (2 * r - D) 0); lia.
Qed.

Lemma div_eucl_div_mod (a b q r : Z) : Z.div_eucl a b = (q, r) -> q = a / b /\ r = a mod b.
Proof. intros E. unfold Z.div, Z.modulo. rewrite E. split; reflexivity. Qed.

Lemma coin_m_range : 2 ^ 52 <= coin_m < 2 ^ 53.
Proof. split; [apply Z.leb_le | apply Z.ltb_lt]; reflexivity. Qed.

Lemma coin_m_even : Z.even coin_m = true.
Proof. reflexivity. Qed.

Lemma coin_m_pos : Zpos (Z.to_pos coin_m) = coin_m.
Proof. reflexivity. Qed.

(** The quotient of a 53-bit mantissa, shifted by 53 places, by the
    mantissa of the divisor has 53 or 54 digits. *)
Lemma quotient_range (m : Z) :
  2 ^ 52 <= m < 2 ^ 53 -> 2 ^ 52 <= m * 2 ^ 53 / coin_m < 2 ^ 54.
Proof.
  intros Hm. pose proof coin_m_range as Hc. split.
  - apply Z.div_le_lower_bound; [lia |]. nia.
  - apply Z.div_lt_upper_bound; [lia |].
    replace (2 ^ 54) with (2 * 2 ^ 53) by reflexivity. nia.
Qed.

Lemma div_coin_norm (mx : positive) (ex : Z) :
  2 ^ 52 <= Zpos mx < 2 ^ 53 -> -52 <= ex <= 12 ->
  F64.div (S754_finite false mx ex) (S754_finite false (Z.to_pos coin_m) (-26))
  = norm (rne (shift_enc (Zdigits2 (Zpos mx * 2 ^ 53 / coin_m) - 53)
                 (sf (2 * (Zpos mx * 2 ^ 53)) coin_m)))
      (ex - 27 + (Zdigits2 (Zpos mx * 2 ^ 53 / coin_m) - 53)).
Proof.
  intros Hm He. pose proof coin_m_range as Hc.
  pose proof (quotient_range (Zpos mx) Hm) as Hq.
  unfold F64.div, F64.prec, F64.emax, SFdiv, SFdiv_core_binary.
  rewrite coin_m_pos.
  rewrite (Zdigits2_unique (Zpos mx) 53) by lia.
  rewrite (Zdigits2_unique coin_m 53) by lia.
  unfold fexp, emin.
  replace (Z.min (Z.max (53 + ex - (53 + -26) - 53) (3 - 1024 - 53)) (ex - -26))
    with (ex - 27) by lia.
  replace (ex - -26 - (ex - 27)) with 53 by lia.
  rewrite Z.shiftl_mul_pow2 by lia.
  destruct (Z.div_eucl (Zpos mx * 2 ^ 53) coin_m) as [q r] eqn:E.
  destruct (div_eucl_div_mod _ _ _ _ E) as [Eq Er].
  assert (Hr : 0 <= r < coin_m) by (rewrite Er; apply Z.mod_pos_bound; lia).
  assert (HN : Zpos mx * 2 ^ 53 = coin_m * q + r)
    by (rewrite Eq, Er; apply Z.div_mod; lia).
  rewrite <- Eq in *.
  assert (Hd : 53 <= Zdigits2 q <= 54).
  { destruct (Zdigits2_bounds q ltac:(lia)) as [Hd0 Hb].
    split.
    - destruct (Z.le_gt_cases 53 (Zdigits2 q)) as [? | Hlt]; [assumption |].
      assert (2 ^ Zdigits2 q <= 2 ^ 52) by (apply Z.pow_le_mono_r; lia). lia.
    - destruct (Z.le_gt_cases (Zdigits2 q) 54) as [? | Hgt]; [assumption |].
      assert (2 ^ 54 <= 2 ^ (Zdigits2 q - 1)) by (apply Z.pow_le_mono_r; lia). lia. }
  rewrite binary_round_aux_norm by lia.
  rewrite (new_location_sf coin_m (Zpos mx * 2 ^ 53) r q) by (auto using coin_m_even; lia).
  reflexivity.
Qed.

Lemma digits_shift_range (m : Z) :
  0 < m -> 53 <= Zdigits2 m -> 2 ^ 52 <= m / 2 ^ (Zdigits2 m - 53) < 2 ^ 53.
Proof.
  intros Hm Hd. pose proof (shift_enc_range m 0 Hm Hd ltac:(lia)) as Hr.
  rewrite shift_enc_div4 in Hr by lia.
  destruct (div4 m 0 ltac:(lia)) as [E _]. rewrite E in Hr. exact Hr.
Qed.

Lemma quot_shift_cases (m : Z) :
  2 ^ 52 <= m < 2 ^ 53 -> quot_shift m = 0 \/ quot_shift m = 1.
Proof.
  intros Hm. pose proof (quotient_range m Hm) as Hq. unfold quot_shift.
  destruct (Zdigits2_bounds (m * 2 ^ 53 / coin_m) ltac:(lia)) as [Hd0 Hb].
  assert (53 <= Zdigits2 (m * 2 ^ 53 / coin_m)).
  { destruct (Z.le_gt_cases 53 (Zdigits2 (m * 2 ^ 53 / coin_m))) as [? | Hlt]; [assumption |].
    assert (2 ^ Zdigits2 (m * 2 ^ 53 / coin_m) <= 2 ^ 52) by (apply Z.pow_le_mono_r; lia).
    lia. }
  assert (Zdigits2 (m * 2 ^ 53 / coin_m) <= 54).
  { destruct (Z.le_gt_cases (Zdigits2 (m * 2 ^ 53 / coin_m)) 54) as [? | Hgt]; [assumption |].
    assert (2 ^ 54 <= 2 ^ (Zdigits2 (m * 2 ^ 53 / coin_m) - 1))
      by (apply Z.pow_le_mono_r; lia).
    lia. }
  lia.
Qed.

Lemma quot_enc_sf (m : Z) :
  2 ^ 52 <= m < 2 ^ 53 ->
  quot_enc m = sf ((if quot_shift m =? 0 then 4 else 2) * (m * 2 ^ 53)) (2 * coin_m).
Proof.
  intros Hm. pose proof coin_m_range as Hc. unfold quot_enc.
  destruct (quot_shift_cases m Hm) as [-> | ->]; cbn [shift_enc SpecFloat.iter_pos Z.eqb].
  - rewrite <- (sf_scale 2 (2 * (m * 2 ^ 53)) coin_m) by lia. f_equal. ring.
  - apply sf_double. lia.
Qed.

Lemma quot_enc_range (m : Z) :
  2 ^ 52 <= m < 2 ^ 53 -> 2 ^ 52 <= quot_enc m / 4 < 2 ^ 53.
Proof.
  intros Hm. pose proof coin_m_range as Hc. pose proof (quotient_range m Hm) as Hq.
  unfold quot_enc, quot_shift.
  destruct (quot_shift_cases m Hm) as [Hk | Hk]; unfold quot_shift in Hk;
    rewrite shift_enc_div4, sf_div4 by lia;
    rewrite Z.div_mul_cancel_l by lia;
    apply digits_shift_range; lia.
Qed.

Lemma quot_shift_mono (m1 m2 : Z) :
  2 ^ 52 <= m1 <= m2 -> m2 < 2 ^ 53 -> quot_shift m1 <= quot_shift m2.
Proof.
  intros H1 H2. pose proof coin_m_range as Hc. unfold quot_shift.
  pose proof (quotient_range m1 ltac:(lia)).
  assert (m1 * 2 ^ 53 / coin_m <= m2 * 2 ^ 53 / coin_m) by (apply Z.div_le_mono; lia).
  pose proof (Zdigits2_mono (m1 * 2 ^ 53 / coin_m) (m2 * 2 ^ 53 / coin_m) ltac:(lia)). lia.
Qed.

Lemma div_coin_mono (m1 m2 : positive) (e1 e2 : Z) :
  2 ^ 52 <= Zpos m1 < 2 ^ 53 -> -52 <= e1 <= 12 ->
  2 ^ 52 <= Zpos m2 < 2 ^ 53 -> -52 <= e2 <= 12 ->
  e1 < e2 \/ (e1 = e2 /\ Zpos m1 <= Zpos m2) ->
  let c := S754_finite false (Z.to_pos coin_m) (-26) in
  rank (F64.div (S754_finite false m1 e1) c) <= rank (F64.div (S754_finite false m2 e2) c)
  /\ normal (F64.div (S754_finite false m1 e1) c)
  /\ normal (F64.div (S754_finite false m2 e2) c).
Proof.
  intros Hm1 He1 Hm2 He2 Hle c. subst c. pose proof coin_m_range as Hc.
  rewrite !div_coin_norm by assumption.
  fold (quot_shift (Zpos m1)) (quot_shift (Zpos m2)).
  fold (quot_enc (Zpos m1)) (quot_enc (Zpos m2)).
  pose proof (rne_range _ (quot_enc_range _ Hm1)) as R1.
  pose proof (rne_range _ (quot_enc_range _ Hm2)) as R2.
  split; [| split; apply norm_normal; assumption].
  apply rank_norm_mono; try assumption.
  destruct (quot_shift_cases _ Hm1) as [K1 | K1];
    destruct (quot_shift_cases _ Hm2) as [K2 | K2];
    destruct Hle as [Hlt | [-> Hle]];
    try (left; lia);
    try (pose proof (quot_shift_mono (Zpos m1) (Zpos m2) ltac:(lia) ltac:(lia)); lia).
  - right. split; [lia |]. apply rne_mono. rewrite !quot_enc_sf by assumption.
    rewrite K1, K2. change (0 =? 0) with true. cbv iota. apply sf_mono; lia.
  - destruct (Z.eq_dec e2 (e1 + 1)) as [-> | Hne]; [right | left; lia].
    split; [lia |]. apply rne_mono. rewrite !quot_enc_sf by assumption.
    rewrite K1, K2. change (0 =? 0) with true. change (1 =? 0) with false. cbv iota.
    apply sf_mono; lia.
  - right. split; [lia |]. apply rne_mono. rewrite !quot_enc_sf by assumption.
    rewrite K1, K2. change (1 =? 0) with false. cbv iota. apply sf_mono; lia.
Qed.

(** *** The conversion of a balance to coins is monotone *)

Lemma to_coins_zero : to_coins 0 = F64.zero.
Proof. reflexivity. Qed.

Lemma to_coins_shape (n : Z) :
  0 < n < 2 ^ 64 -> normal (to_coins n).
Proof.
  intros Hn. destruct (of_int_shape n Hn) as (m & e & E & Hm & He).
  unfold to_coins. rewrite E, of_int_coin.
  apply (div_coin_mono m m e e Hm He Hm He). right. split; [reflexivity | lia].
Qed.

Lemma to_coins_mono (a b : Z) :
  0 <= a <= b -> b < 2 ^ 64 -> F64.leb (to_coins a) (to_coins b) = true.
Proof.
  intros Hab Hb. destruct (Z.eq_dec a 0) as [-> | Ha].
  - rewrite to_coins_zero. destruct (Z.eq_dec b 0) as [-> | Hb0]; [reflexivity |].
    pose proof (to_coins_shape b ltac:(lia)) as Hn.
    destruct (to_coins b) as [| | | [] m e]; try contradiction. reflexivity.
  - destruct (of_int_shape a ltac:(lia)) as (ma & ea & Ea & Hma & Hea).
    destruct (of_int_shape b ltac:(lia)) as (mb & eb & Eb & Hmb & Heb).
    pose proof (of_int_mono a b ltac:(lia) Hb) as Hr.
    assert (Hord : ea < eb \/ (ea = eb /\ Zpos ma <= Zpos mb)).
    { apply (rank_order (F64.of_int a) (F64.of_int b)); try assumption;
        [rewrite Ea | rewrite Eb]; exact Hma || exact Hmb. }
    unfold to_coins, F64.leb. rewrite Ea, Eb, of_int_coin.
    destruct (div_coin_mono ma mb ea eb Hma Hea Hmb Heb Hord) as (Hrank & N1 & N2).
    apply SFleb_rank; assumption.
Qed.

End RoundingFacts.

(** ** Balances *)

Section BalanceFacts.
Import GoInt.

Lemma int32_add_idem_l (x y : Z) : int32 (int32 x + y) = int32 (x + y).
Proof.
  unfold int32, wrap_signed. f_equal.
  replace ((x + 2 ^ (32 - 1)) mod 2 ^ 32 - 2 ^ (32 - 1) + y + 2 ^ (32 - 1))
    with ((x + 2 ^ (32 - 1)) mod 2 ^ 32 + y) by lia.
  rewrite Zplus_mod_idemp_l. f_equal. lia.
Qed.

Lemma int32_small (x : Z) : - 2 ^ 31 <= x < 2 ^ 31 -> int32 x = x.
Proof.
  intros Hx. unfold int32, wrap_signed. change (32 - 1) with 31.
  rewrite Z.mod_small; lia.
Qed.

Lemma counted_spec (confirms tip : Z) (u : Utxo) :
  0 <= confirms -> - 2 ^ 31 <= tip - Height u + 1 < 2 ^ 31 ->
  counted confirms tip u = spec_counted confirms tip u.
Proof.
  intros Hc Hr. unfold counted, spec_counted, int32_add, int32_sub.
  rewrite int32_add_idem_l, int32_small by lia.
  destruct (Z.eqb_spec confirms 0) as [-> | Hne]; [reflexivity |]. cbn.
  destruct (Z.leb_spec 1 confirms); [reflexivity | lia].
Qed.

Lemma uint64_add_l (a b : Z) : uint64_add (uint64 a) b = uint64 (a + b).
Proof. unfold uint64_add, uint64. apply Zplus_mod_idemp_l. Qed.

Lemma sum_counted_acc (confirms tip : Z) (s : UtxoStore) (acc : Z) :
  fold_left (fun bal u => if counted confirms tip u then uint64_add bal (Amt u) else bal)
    s (uint64 acc)
  = uint64 (acc + code_sum confirms tip s).
Proof.
  revert acc. induction s as [| u s IH]; intros acc.
  - cbn. f_equal. lia.
  - unfold code_sum. simpl. destruct (counted confirms tip u) eqn:Hc.
    + rewrite uint64_add_l, IH. f_equal. unfold code_sum. simpl. lia.
    + apply IH.
Qed.

Lemma sum_counted_addr_acc (pk : bytes) (confirms tip : Z) (s : UtxoStore) (acc : Z) :
  fold_left (fun bal u => if counted confirms tip u then
                            if bytes_Equal pk (AddrHash u) then uint64_add bal (Amt u) else bal
                          else bal)
    s (uint64 acc)
  = uint64 (acc + code_sum_addr pk confirms tip s).
Proof.
  revert acc. induction s as [| u s IH]; intros acc.
  - cbn. f_equal. lia.
  - unfold code_sum_addr. simpl.
    destruct (counted confirms tip u) eqn:Hc; simpl;
      [destruct (bytes_Equal pk (AddrHash u)) eqn:Hb; simpl |].
    + rewrite uint64_add_l, IH. f_equal. unfold code_sum_addr. simpl. lia.
    + apply IH.
    + apply IH.
Qed.

Lemma sum_counted_filter confirms tip s : sum_counted confirms tip s = uint64 (code_sum confirms tip s).
Proof. unfold sum_counted. change 0 with (uint64 0) at 1. rewrite sum_counted_acc. reflexivity. Qed.

Lemma filter_ext_Forall {A} (f g : A -> bool) (P : A -> Prop) (l : list A) :
  (forall x, P x -> f x = g x) -> Forall P l -> List.filter f l = List.filter g l.
Proof.
  intros Hfg HP. induction HP as [| x l Hx _ IH]; simpl; [reflexivity |].
  rewrite (Hfg x Hx), IH. reflexivity.
Qed.

Lemma code_sum_bounds confirms tip s :
  Forall (fun u => 0 <= Amt u) s -> 0 <= code_sum confirms tip s <= foldr Z.add 0 (map Amt s).
Proof.
  intros Hs. unfold code_sum. induction Hs as [| u s Hu _ IH]; simpl; [lia |].
  destruct (counted confirms tip u); simpl; lia.
Qed.

Lemma code_sum_zero tip s : code_sum 0 tip s = foldr Z.add 0 (map Amt s).
Proof.
  unfold code_sum. induction s as [| u s IH]; simpl; [reflexivity |].
  change (counted 0 tip u) with true. simpl. rewrite IH. reflexivity.
Qed.

Lemma sum_counted_addr_filter pk confirms tip s :
  sum_counted_addr pk confirms tip s = uint64 (code_sum_addr pk confirms tip s).
Proof.
  unfold sum_counted_addr. change 0 with (uint64 0) at 1.
  rewrite sum_counted_addr_acc. reflexivity.
Qed.

Context {Wallet : Type}.

Implicit Type w : World (Wallet := Wallet).

(** C4, as the code has it.  With a known chain tip, for [confirms >= 0]
    and as long as [tip - height + 1] fits an [int32] for every stored
    output, [CalculateBalance] returns the coins of the amounts, summed
    modulo [2^64], of exactly the outputs that the rule selects:
    [confirms == 0], or [confirms >= 1] and [height <> -1] and
    [tip - height + 1 >= confirms]; [CalculateAddressBalance] moreover
    asks for the address hash to equal [pubkeyHash]. *)
Theorem balances_follow_confirmation_rule w (confirms : Z) (pubkeyHash : bytes) :
  tip_unknown (curBlock w) = false ->
  0 <= confirms ->
  Forall (fun u => - 2 ^ 31 <= bsHeight (curBlock w).1 - Height u + 1 < 2 ^ 31)
    (UtxoStore_s (acct w)) ->
  value (CalculateBalance confirms w)
  = to_coins (uint64 (spec_sum confirms (bsHeight (curBlock w).1) (UtxoStore_s (acct w))))
  /\ value (CalculateAddressBalance pubkeyHash confirms w)
     = to_coins (uint64 (spec_sum_addr pubkeyHash confirms (bsHeight (curBlock w).1)
                           (UtxoStore_s (acct w)))).
Proof.
  intros Htip Hc Hfit.
  unfold CalculateBalance, CalculateAddressBalance, bind, GetCurBlock, get, ret.
  cbn [value after]. rewrite Htip. cbn [value after].
  rewrite sum_counted_filter, sum_counted_addr_filter.
  unfold code_sum, code_sum_addr, spec_sum, spec_sum_addr.
  rewrite (filter_ext_Forall (counted confirms (bsHeight (curBlock w).1))
             (spec_counted confirms (bsHeight (curBlock w).1)) _ _
             (fun u Hu => counted_spec confirms _ u Hc Hu) Hfit).
  rewrite (filter_ext_Forall
             (fun u => counted confirms (bsHeight (curBlock w).1) u
                       && bytes_Equal pubkeyHash (AddrHash u))
             (fun u => spec_counted confirms (bsHeight (curBlock w).1) u
                       && bytes_Equal pubkeyHash (AddrHash u)) _ _
             (fun u Hu => f_equal (fun b => b && bytes_Equal pubkeyHash (AddrHash u))
                            (counted_spec confirms _ u Hc Hu)) Hfit).
  split; reflexivity.
Qed.

(** C8, as the code has it.  When the amounts of the store add up
    without leaving [uint64], the balance at any [confirms >= 1] is at
    most the balance at [confirms = 0], as [float64]s. *)
Theorem confirmed_balance_at_most_total w (confirms : Z) :
  1 <= confirms ->
  no_overflow (UtxoStore_s (acct w)) ->
  F64.leb (value (CalculateBalance confirms w)) (value (CalculateBalance 0 w)) = true.
Proof.
  intros Hc [Hpos Hsum].
  unfold CalculateBalance, bind, GetCurBlock, get, ret. cbn [value after].
  destruct (tip_unknown (curBlock w)); cbn [value after]; [reflexivity |].
  rewrite !sum_counted_filter, code_sum_zero.
  pose proof (code_sum_bounds confirms (bsHeight (curBlock w).1) _ Hpos) as Hb.
  unfold uint64. rewrite !Z.mod_small by lia.
  apply to_coins_mono; lia.
Qed.

End BalanceFacts.

(** * The methods run on the sample wallet *)

Section Runs.
Import Sample.

#[local] Existing Instance wallet_api.
#[local] Existing Instance library.

(** C6, as the code has it.  With the tip at height 100, A at height 95
    and B unconfirmed: when the amounts are 5 and 3 minor units the sums
    are 8, 5 and 0 and the balances are their conversions to coins,
    [8/10^8], [5/10^8] and [0]; when the amounts are 5 and 3 whole coins
    the balances are 8, 5 and 0. *)
Theorem scenario_tip_100 :
  let w := world 100 [utxoA; utxoB] in
  let c := world 100 [coinA; coinB] in
  (sum_counted 0 100 [utxoA; utxoB] = 8
   /\ sum_counted 1 100 [utxoA; utxoB] = 5
   /\ sum_counted 10 100 [utxoA; utxoB] = 0)
  /\ (value (CalculateBalance 0 w) = to_coins 8
      /\ value (CalculateBalance 1 w) = to_coins 5
      /\ value (CalculateBalance 10 w) = F64.zero)
  /\ (value (CalculateBalance 0 c) = F64.of_int 8
      /\ value (CalculateBalance 1 c) = F64.of_int 5
      /\ value (CalculateBalance 10 c) = F64.of_int 0).
Proof. vm_compute. repeat split. Qed.

(** Against C6 as stated: with amounts of 5 and 3 minor units the balance
    at [confirms = 0] is not the float 8. *)
Lemma scenario_minor_units_not_8 :
  let w := world 100 [utxoA; utxoB] in
  value (CalculateBalance 0 w) <> F64.of_int 8
  /\ F64.eqb (value (CalculateBalance 0 w)) (F64.of_int 8) = false.
Proof. vm_compute. split; [discriminate | reflexivity]. Qed.

(** C1, where the code fails it.  The store holds [utxoA] and [utxoB]
    and the tip is at height 100; the spent-output handler is given the
    well-formed notification that names the outpoint of [utxoA].  It
    returns [false] and leaves the store as it was: afterwards the
    balances at [confirms = 0] and [confirms = 1] still include the 5
    units of [utxoA], and differ from the balances of the store without
    that outpoint, which are what the claim asks for. *)
Lemma spent_output_still_counted :
  let w := world 100 [utxoA; utxoB] in
  let w' := after (spentUtxoHandler spentA None w) in
  (In utxoA (UtxoStore_s (acct w))
   /\ NewShaHashFromStr spentA_txhash = Ok (Hash (Out utxoA))
   /\ as_float64 (match spentA with JObject v => v !! "index" | _ => None end)
      = Some (F64.of_int (Index (Out utxoA))))
  /\ value (spentUtxoHandler spentA None w) = false
  /\ emitted (spentUtxoHandler spentA None w) = []
  /\ UtxoStore_s (acct w') = [utxoA; utxoB]
  /\ (value (CalculateBalance 0 w') = to_coins 8
      /\ value (CalculateBalance 1 w') = to_coins 5
      /\ value (CalculateAddressBalance (AddrHash utxoA) 0 w') = to_coins 8)
  /\ (value (CalculateBalance 0 (drop_outpoint (Out utxoA) w')) = to_coins 3
      /\ value (CalculateBalance 1 (drop_outpoint (Out utxoA) w')) = F64.zero)
  /\ value (CalculateBalance 0 w') <> value (CalculateBalance 0 (drop_outpoint (Out utxoA) w'))
  /\ value (CalculateBalance 1 w') <> value (CalculateBalance 1 (drop_outpoint (Out utxoA) w'))
  /\ value (CalculateAddressBalance (AddrHash utxoA) 0 w')
     <> value (CalculateAddressBalance (AddrHash utxoA) 0 (drop_outpoint (Out utxoA) w')).
Proof.
  vm_compute. split; [split; [left; reflexivity | split; reflexivity] |].
  repeat (split; [reflexivity |]).
  split; [repeat split |]. split; [repeat split |].
  split; [discriminate |]. split; discriminate.
Qed.

(** C2, where the code fails it.  The tip is known, the key store hands
    out its next address and the disk is full.  [NewAddress] attempts the
    write, which fails, logs the failure, marks the address for the
    account, sends the request for its transactions and returns the
    address with a [nil] error; on the same disk the sibling
    [ImportWIFPrivateKey] returns the error of the write and marks
    nothing. *)
Lemma NewAddress_absorbs_write_failure :
  let w := world 100 [] in
  let r := NewAddress (PER := disk_full) w in
  let i := ImportWIFPrivateKey (PER := disk_full) "main-key" genesis_stamp w in
  (write_failed (emitted r) /\ write_failed (emitted i))
  /\ value r = ("chained-0", None)
  /\ (value r).2 = None
  /\ emitted r
     = [CallWriteDirtyToDisk (set_dirty true (set_wallet (NextChainedAddress
                                                            (curBlock w).1 keys).2 (acct w)))
          (Some "no space left on device");
        Log LError "cannot sync dirty wallet: %v" [ArgString "no space left on device"];
        Log LDebug "Requesting notifications of TXs sending to address %v"
          [ArgString "chained-0"];
        SendBtcdMsg (Some [x7b; x7d])]
  /\ value (LookupAccountByAddress "chained-0" (after r)) = ("savings", None)
  /\ value i
     = (EmptyString, Some "import failed: cannot write wallet: no space left on device")
  /\ addressAccountMap (after i) = addressAccountMap w.
Proof.
  split.
  { split; eexists _, _; vm_compute; left; reflexivity. }
  vm_compute. repeat split.
Qed.

(** Against C3 as stated: on the terminal result the rescan reply handler
    sends no balance notification. *)
Lemma rescan_terminal_sends_no_balance :
  let r := rescanReplyHandler (PER := disk_ok) JNull None (world 100 [utxoA; utxoB]) in
  ~ (exists account bal, In (NotifyWalletBalance account bal) (emitted r))
  /\ ~ (exists account bal, In (NotifyWalletBalanceUnconfirmed account bal) (emitted r)).
Proof.
  split; intros (account & bal & Hin); vm_compute in Hin;
    destruct Hin as [Hin | []]; discriminate Hin.
Qed.

(** Against C4 as stated: at [confirms = -1] the confirmed [utxoA] is
    counted although the rule of the specification selects nothing, and
    from the last [int32] height an output of the genesis block is not
    counted at [confirms = 1] although the rule selects it. *)
Lemma rule_fails_outside_its_range :
  (let w := world 100 [utxoA] in
   tip_unknown (curBlock w) = false
   /\ value (CalculateBalance (-1) w)
      <> to_coins (GoInt.uint64 (spec_sum (-1) 100 (UtxoStore_s (acct w)))))
  /\ (let w := world (2 ^ 31 - 1) [genesisA] in
      tip_unknown (curBlock w) = false
      /\ value (CalculateBalance 1 w)
         <> to_coins (GoInt.uint64 (spec_sum 1 (2 ^ 31 - 1) (UtxoStore_s (acct w))))).
Proof. vm_compute. repeat split; discriminate. Qed.

(** Against C5 as stated: read in the convention of the specification,
    where returning [false] removes the entry, the value the standing
    handlers return is not the keep-registered value. *)
Lemma standing_handlers_return_false_on_sample :
  let w := world 100 [utxoA; utxoB] in
  spec_keepRegistered (value (newBlockTxOutHandler JNull None w)) = false
  /\ spec_keepRegistered (value (spentUtxoHandler spentA None w)) = false.
Proof. vm_compute. split; reflexivity. Qed.

(** Against C8 as stated: when the amounts add up to [2^64] the total
    wraps to 0 and the balance at [confirms = 1] exceeds it. *)
Lemma wrapped_total_below_confirmed :
  let w := world 100 [hugeA; dustB] in
  1 <= 1
  /\ F64.leb (value (CalculateBalance 1 w)) (value (CalculateBalance 0 w)) = false.
Proof. vm_compute. split; [discriminate | reflexivity]. Qed.

(** ** The theorems with hypotheses, at the sample wallet *)

Lemma ImportWIFPrivateKey_wrong_network_sample :
  let w := world 100 [] in
  let r := ImportWIFPrivateKey (PER := disk_ok) "test-key" genesis_stamp w in
  (DecodePrivateKey "test-key" = Ok ([x02], testnet3, true)
   /\ testnet3 <> Net (wallet (acct w)))
  /\ value r = (EmptyString, Some "wrong network")
  /\ addressAccountMap (after r) = addressAccountMap w
  /\ after r = w
  /\ emitted r = [].
Proof.
  assert (Hdec : DecodePrivateKey "test-key" = Ok ([x02], testnet3, true)) by reflexivity.
  assert (Hnet : testnet3 <> Net (wallet (acct (world 100 [])))) by (vm_compute; lia).
  split; [split; assumption |].
  exact (ImportWIFPrivateKey_wrong_network (PER := disk_ok) "test-key" genesis_stamp
           (world 100 []) [x02] testnet3 true Hdec Hnet).
Defined.

Lemma write_failure_sample :
  let w := world 100 [] in
  (write_failed (emitted (ImportWIFPrivateKey (PER := disk_full) "main-key" genesis_stamp w))
   /\ write_failed (emitted (NewAddress (PER := disk_full) w)))
  /\ (exists msg,
        value (ImportWIFPrivateKey (PER := disk_full) "main-key" genesis_stamp w)
        = (EmptyString, Some ("import failed: cannot write wallet: " +:+ msg)))
  /\ (exists addr, value (NewAddress (PER := disk_full) w) = (addr, None)).
Proof.
  assert (Hi : write_failed
                 (emitted (ImportWIFPrivateKey (PER := disk_full) "main-key" genesis_stamp
                             (world 100 []))))
    by (eexists _, _; vm_compute; left; reflexivity).
  assert (Hn : write_failed (emitted (NewAddress (PER := disk_full) (world 100 []))))
    by (eexists _, _; vm_compute; left; reflexivity).
  split; [split; assumption |].
  destruct (write_failure_import_reports_newaddress_logs (PER := disk_full)
              "main-key" genesis_stamp (world 100 [])) as [Himp Hnew].
  split.
  - destruct (Himp Hi) as (msg & Hv & _). exists msg. exact Hv.
  - destruct (Hnew Hn) as (addr & msg & Hv & _). exists addr. exact Hv.
Defined.

Lemma rescanReplyHandler_sample :
  let w := world 100 [utxoA; utxoB] in
  JBool true <> JNull
  /\ value (rescanReplyHandler (PER := disk_ok) JNull None w) = true
  /\ value (rescanReplyHandler (PER := disk_ok) (JBool true) None w) = false
  /\ value (rescanReplyHandler (PER := disk_full) JNull None w) = true
  /\ emitted (rescanReplyHandler (PER := disk_full) JNull None w)
     = [CallWriteDirtyToDisk
          (set_dirty true (set_wallet (SetSyncedWith (curBlock w).1 (wallet (acct w)))
                             (acct w)))
          (Some "no space left on device");
        Log LError "cannot sync dirty wallet: %v" [ArgString "no space left on device"]].
Proof.
  assert (Hne : JBool true <> JNull) by discriminate.
  split; [exact Hne |].
  destruct (rescanReplyHandler_terminal (PER := disk_ok) None (world 100 [utxoA; utxoB]))
    as [(Hv & _) Hother].
  split; [exact Hv |].
  destruct (Hother (JBool true) Hne) as (Hv' & _).
  split; [exact Hv' |].
  destruct (rescanReplyHandler_terminal (PER := disk_full) None (world 100 [utxoA; utxoB]))
    as [(Hfull & _ & Hcase) _].
  split; [exact Hfull |].
  exact (proj2 (proj2 (proj2 Hcase))).
Defined.

Lemma balances_follow_confirmation_rule_sample :
  let w := world 100 [utxoA; utxoB] in
  (tip_unknown (curBlock w) = false
   /\ 0 <= 1
   /\ Forall (fun u => - 2 ^ 31 <= bsHeight (curBlock w).1 - Height u + 1 < 2 ^ 31)
        (UtxoStore_s (acct w)))
  /\ value (CalculateBalance 1 w)
     = to_coins (GoInt.uint64 (spec_sum 1 (bsHeight (curBlock w).1) (UtxoStore_s (acct w))))
  /\ value (CalculateAddressBalance (pkhash x0a) 1 w)
     = to_coins (GoInt.uint64 (spec_sum_addr (pkhash x0a) 1 (bsHeight (curBlock w).1)
                                 (UtxoStore_s (acct w)))).
Proof.
  assert (Htip : tip_unknown (curBlock (world 100 [utxoA; utxoB])) = false) by reflexivity.
  assert (Hc : 0 <= 1) by lia.
  assert (Hfit : Forall (fun u => - 2 ^ 31
                                  <= bsHeight (curBlock (world 100 [utxoA; utxoB])).1
                                     - Height u + 1 < 2 ^ 31)
                   (UtxoStore_s (acct (world 100 [utxoA; utxoB]))))
    by (repeat constructor; vm_compute; discriminate).
  split; [repeat split; assumption |].
  exact (balances_follow_confirmation_rule (world 100 [utxoA; utxoB]) 1 (pkhash x0a)
           Htip Hc Hfit).
Defined.

Lemma confirmed_balance_at_most_total_sample :
  let w := world 100 [utxoA; utxoB] in
  (1 <= 1 /\ no_overflow (UtxoStore_s (acct w)))
  /\ F64.leb (value (CalculateBalance 1 w)) (value (CalculateBalance 0 w)) = true.
Proof.
  assert (Hc : 1 <= 1) by lia.
  assert (Hno : no_overflow (UtxoStore_s (acct (world 100 [utxoA; utxoB]))))
    by (split; [repeat constructor; vm_compute; discriminate | vm_compute; reflexivity]).
  split; [split; assumption |].
  exact (confirmed_balance_at_most_total (world 100 [utxoA; utxoB]) 1 Hc Hno).
Defined.

End Runs.

(** * Properties of the other methods *)

Section IndexFacts.

Context {Wallet : Type}.

Implicit Type w : World (Wallet := Wallet).

(** X1. After [MarkAddressForAccount address account],
    [LookupAccountByAddress] returns that account with a [nil] error for
    [address], whatever it returned before, and returns for every other
    address what it returned before. *)
Theorem lookup_after_mark (address account other : string) w :
  let w' := after (MarkAddressForAccount address account w) in
  value (LookupAccountByAddress address w') = (account, None)
  /\ (other <> address ->
      value (LookupAccountByAddress other w') = value (LookupAccountByAddress other w)).
Proof.
  cbv zeta. unfold LookupAccountByAddress, MarkAddressForAccount, bind, get, modify. cbn.
  split.
  - rewrite lookup_insert_eq. reflexivity.
  - intros Hne. rewrite lookup_insert_ne by congruence.
    destruct (addressAccountMap w !! other); reflexivity.
Qed.

Lemma mark_all_map (marks : list (string * string)) w :
  addressAccountMap (after (mark_all marks w))
  = list_to_map (rev marks) ∪ addressAccountMap w.
Proof.
  revert w. induction marks as [| [address account] marks IH]; intros w.
  - cbn. rewrite (left_id_L ∅ (∪)). reflexivity.
  - change (after (mark_all ((address, account) :: marks) w))
      with (after (mark_all marks (after (MarkAddressForAccount address account w)))).
    rewrite IH. cbn. rewrite list_to_map_app. cbn.
    rewrite <- (assoc_L (∪)). f_equal.
    rewrite insert_empty, <- insert_union_singleton_l. reflexivity.
Qed.

(** X2. After any sequence of marks, the index is the old one overlaid
    with the marks, a later mark of an address replacing an earlier one;
    [LookupAccountByAddress] returns [ErrNotFound] (and the empty name)
    exactly for the addresses that were neither marked nor in the old
    index, and it never changes the state. *)
Theorem lookup_after_marks (marks : list (string * string)) (address : string) w :
  let w' := after (mark_all marks w) in
  addressAccountMap w' = list_to_map (rev marks) ∪ addressAccountMap w
  /\ (value (LookupAccountByAddress address w') = (EmptyString, Some ErrNotFound)
      <-> ~ In address (map fst marks) /\ addressAccountMap w !! address = None)
  /\ after (LookupAccountByAddress address w') = w'.
Proof.
  cbv zeta. split; [apply mark_all_map |]. split.
  - unfold LookupAccountByAddress, bind, get. cbn. rewrite mark_all_map.
    destruct ((list_to_map (rev marks) ∪ addressAccountMap w) !! address) as [account |] eqn:E;
      cbn.
    + split; [discriminate |]. intros [Hnot Hold].
      apply lookup_union_Some_raw in E. destruct E as [E | [_ E]]; [| congruence].
      apply elem_of_list_to_map_2 in E. apply list_elem_of_In, in_rev in E.
      exfalso. apply Hnot. apply in_map_iff. exists (address, account). split; auto.
    + split; [intros _ | reflexivity].
      apply lookup_union_None in E. destruct E as [E Hold]. split; [| exact Hold].
      apply not_elem_of_list_to_map_2 in E. intros Hin. apply E.
      apply in_map_iff in Hin. destruct Hin as (p & Hp & Hin).
      apply list_elem_of_fmap. exists p. split; [symmetry; exact Hp |].
      apply list_elem_of_In, in_rev. rewrite rev_involutive. exact Hin.
  - unfold LookupAccountByAddress, bind, get. cbn.
    destruct (_ !! address); reflexivity.
Qed.

End IndexFacts.

Section LockFacts.

Context {Wallet : Type} {WA : WalletAPI Wallet}.

Implicit Type w : World (Wallet := Wallet).

(** X3. [Account.Lock] calls the wallet's lock once, returns the error of
    that call, leaves the wallet as the call left it, and notifies the
    frontends that the account is locked exactly when the call returned
    no error. *)
Theorem Lock_notifies_on_success w :
  let call := Wallet_Lock (wallet (acct w)) in
  let r := Lock w in
  value r = call.1
  /\ wallet (acct (after r)) = call.2
  /\ emitted r
     = CallWalletLock
       :: (if call.1 is None then [NotifyWalletLockStateChange (Name call.2) true] else [])
  /\ ((exists account locked, In (NotifyWalletLockStateChange account locked) (emitted r))
      <-> call.1 = None).
Proof.
  intros call r. subst r. unfold Lock, bind, call_wallet; cbn. fold call.
  destruct (call.1) as [msg |] eqn:E; cbn.
  - repeat split; try reflexivity; try discriminate.
    intros (account & l & [Hin | []]); discriminate.
  - repeat split; try reflexivity.
    exists (Name call.2), true. right; left; reflexivity.
Qed.

End LockFacts.

(** ** More on balances *)

Section MoreBalanceFacts.
Import GoInt Rounding.

Context {Wallet : Type}.

Implicit Type w : World (Wallet := Wallet).

(** The sum of the amounts of the outputs a test selects. *)
Lemma selected_sum_le (f g : Utxo -> bool) (s : UtxoStore) :
  (forall u, f u = true -> g u = true) ->
  Forall (fun u => 0 <= Amt u) s ->
  0 <= foldr Z.add 0 (map Amt (List.filter f s))
    <= foldr Z.add 0 (map Amt (List.filter g s))
  /\ foldr Z.add 0 (map Amt (List.filter g s)) <= foldr Z.add 0 (map Amt s).
Proof.
  intros Hfg Hs. induction Hs as [| u s Hu _ IH]; simpl; [lia |].
  destruct (f u) eqn:Hf.
  - rewrite (Hfg u Hf). simpl. lia.
  - destruct (g u); simpl; lia.
Qed.

Lemma selected_sum_perm (f : Utxo -> bool) (s s' : UtxoStore) :
  s ≡ₚ s' ->
  foldr Z.add 0 (map Amt (List.filter f s)) = foldr Z.add 0 (map Amt (List.filter f s')).
Proof.
  induction 1 as [| u s s' _ IH | u v s | s s' s'' _ IH1 _ IH2]; simpl.
  - reflexivity.
  - destruct (f u); simpl; lia.
  - destruct (f u), (f v); simpl; lia.
  - lia.
Qed.

Lemma CalculateBalance_value (confirms : Z) w :
  value (CalculateBalance confirms w)
  = if tip_unknown (curBlock w) then F64.zero
    else to_coins (uint64 (code_sum confirms (bsHeight (curBlock w).1) (UtxoStore_s (acct w)))).
Proof.
  unfold CalculateBalance, bind, GetCurBlock, get, ret. cbn [value after].
  destruct (tip_unknown (curBlock w)); cbn [value after]; [reflexivity |].
  rewrite sum_counted_filter. reflexivity.
Qed.

Lemma CalculateAddressBalance_value (pubkeyHash : bytes) (confirms : Z) w :
  value (CalculateAddressBalance pubkeyHash confirms w)
  = if tip_unknown (curBlock w) then F64.zero
    else to_coins (uint64 (code_sum_addr pubkeyHash confirms (bsHeight (curBlock w).1)
                             (UtxoStore_s (acct w)))).
Proof.
  unfold CalculateAddressBalance, bind, GetCurBlock, get, ret. cbn [value after].
  destruct (tip_unknown (curBlock w)); cbn [value after]; [reflexivity |].
  rewrite sum_counted_addr_filter. reflexivity.
Qed.

Lemma normal_classify (x : spec_float) : normal x -> SFclassify F64.prec x = FloatClass.PNormal.
Proof.
  destruct x as [| | | [] m e]; try contradiction. intros Hm. unfold SFclassify.
  unfold normal in Hm.
  assert (Hd : Zdigits2 (Zpos m) = 53)
    by (apply Zdigits2_unique; [change (53 - 1) with 52; lia | lia]).
  cbn in Hd. injection Hd as ->. reflexivity.
Qed.

Lemma to_coins_class (n : Z) :
  0 <= n < 2 ^ 64 ->
  SFclassify F64.prec (to_coins n) = FloatClass.PZero
  \/ SFclassify F64.prec (to_coins n) = FloatClass.PNormal.
Proof.
  intros Hn. destruct (Z.eq_dec n 0) as [-> | Hne].
  - left. reflexivity.
  - right. apply normal_classify, to_coins_shape. lia.
Qed.

Lemma uint64_range (z : Z) : 0 <= uint64 z < 2 ^ 64.
Proof. unfold uint64. apply Z.mod_pos_bound. lia. Qed.

(** X4. Whatever the store, the chain tip and [confirms],
    [CalculateBalance] and [CalculateAddressBalance] return [+0] or a
    positive normal [float64]: never a negative number, an infinity, a NaN
    or a subnormal. *)
Theorem balances_are_zero_or_positive_normal w (confirms : Z) (pubkeyHash : bytes) :
  let class (x : float64) := SFclassify F64.prec x in
  (class (value (CalculateBalance confirms w)) = FloatClass.PZero
   \/ class (value (CalculateBalance confirms w)) = FloatClass.PNormal)
  /\ (class (value (CalculateAddressBalance pubkeyHash confirms w)) = FloatClass.PZero
      \/ class (value (CalculateAddressBalance pubkeyHash confirms w)) = FloatClass.PNormal).
Proof.
  cbv zeta. rewrite CalculateBalance_value, CalculateAddressBalance_value.
  destruct (tip_unknown (curBlock w)).
  - split; left; reflexivity.
  - split; apply to_coins_class, uint64_range.
Qed.

(** X5. When the amounts of the store add up without leaving [uint64],
    the balance of one address is at most the balance of the account, at
    every [confirms]. *)
Theorem address_balance_at_most_account_balance w (confirms : Z) (pubkeyHash : bytes) :
  no_overflow (UtxoStore_s (acct w)) ->
  F64.leb (value (CalculateAddressBalance pubkeyHash confirms w))
    (value (CalculateBalance confirms w)) = true.
Proof.
  intros [Hpos Hsum]. rewrite CalculateBalance_value, CalculateAddressBalance_value.
  destruct (tip_unknown (curBlock w)); [reflexivity |].
  set (tip := bsHeight (curBlock w).1).
  pose proof (selected_sum_le
                (fun u => counted confirms tip u && bytes_Equal pubkeyHash (AddrHash u))
                (counted confirms tip) (UtxoStore_s (acct w))
                (fun u Hu => proj1 (andb_prop _ _ Hu)) Hpos) as [Hle Htot].
  unfold code_sum, code_sum_addr, uint64. rewrite !Z.mod_small by lia.
  apply to_coins_mono; lia.
Qed.

Lemma counted_mono (c1 c2 tip : Z) (u : Utxo) :
  c1 <= c2 -> c2 <> 0 -> counted c2 tip u = true -> counted c1 tip u = true.
Proof.
  intros Hle Hne. unfold counted.
  destruct (Z.eqb_spec c2 0) as [| _]; [contradiction |].
  destruct (Z.eqb_spec c1 0) as [| _]; [reflexivity |]. cbn.
  destruct (negb (Height u =? -1)); cbn; [| discriminate].
  intros H. apply Z.leb_le in H. apply Z.leb_le. lia.
Qed.

(** X6. When the amounts of the store add up without leaving [uint64],
    asking for more confirmations never gives a larger balance: for
    [c1 <= c2] with [c2 <> 0], the balances at [c2] are at most those at
    [c1], for the account and for every address. *)
Theorem balance_decreases_with_confirms w (c1 c2 : Z) (pubkeyHash : bytes) :
  c1 <= c2 -> c2 <> 0 ->
  no_overflow (UtxoStore_s (acct w)) ->
  F64.leb (value (CalculateBalance c2 w)) (value (CalculateBalance c1 w)) = true
  /\ F64.leb (value (CalculateAddressBalance pubkeyHash c2 w))
       (value (CalculateAddressBalance pubkeyHash c1 w)) = true.
Proof.
  intros Hle Hne [Hpos Hsum]. rewrite !CalculateBalance_value, !CalculateAddressBalance_value.
  destruct (tip_unknown (curBlock w)); [split; reflexivity |].
  set (tip := bsHeight (curBlock w).1).
  pose proof (selected_sum_le (counted c2 tip) (counted c1 tip) (UtxoStore_s (acct w))
                (fun u => counted_mono c1 c2 tip u Hle Hne) Hpos) as [H1 H2].
  pose proof (selected_sum_le
                (fun u => counted c2 tip u && bytes_Equal pubkeyHash (AddrHash u))
                (fun u => counted c1 tip u && bytes_Equal pubkeyHash (AddrHash u))
                (UtxoStore_s (acct w))) as Haddr.
  destruct Haddr as [H3 H4]; [| exact Hpos |].
  { intros u Hu. apply andb_prop in Hu. destruct Hu as [Hc Hb].
    rewrite (counted_mono c1 c2 tip u Hle Hne Hc), Hb. reflexivity. }
  unfold code_sum, code_sum_addr, uint64. rewrite !Z.mod_small by lia.
  split; apply to_coins_mono; lia.
Qed.

(** X7. The balances do not depend on the order of the outputs in the
    store: two worlds with the same chain tip whose stores hold the same
    outputs, in any order, have the same balances. *)
Theorem balances_ignore_store_order w w' (confirms : Z) (pubkeyHash : bytes) :
  curBlock w' = curBlock w ->
  UtxoStore_s (acct w') ≡ₚ UtxoStore_s (acct w) ->
  value (CalculateBalance confirms w') = value (CalculateBalance confirms w)
  /\ value (CalculateAddressBalance pubkeyHash confirms w')
     = value (CalculateAddressBalance pubkeyHash confirms w).
Proof.
  intros Htip Hperm. rewrite !CalculateBalance_value, !CalculateAddressBalance_value, Htip.
  unfold code_sum, code_sum_addr.
  rewrite (selected_sum_perm (counted confirms (bsHeight (curBlock w).1)) _ _ Hperm).
  rewrite (selected_sum_perm
             (fun u => counted confirms (bsHeight (curBlock w).1) u
                       && bytes_Equal pubkeyHash (AddrHash u)) _ _ Hperm).
  split; reflexivity.
Qed.

(** X8. An output that is in no block (height -1) counts at
    [confirms = 0] only: adding it to the store, at any place, leaves the
    balances at every other [confirms] as they were. *)
Theorem unconfirmed_output_counts_at_zero_only w w' (u : Utxo) (confirms : Z)
    (pubkeyHash : bytes) :
  curBlock w' = curBlock w ->
  UtxoStore_s (acct w') ≡ₚ u :: UtxoStore_s (acct w) ->
  Height u = -1 -> confirms <> 0 ->
  value (CalculateBalance confirms w') = value (CalculateBalance confirms w)
  /\ value (CalculateAddressBalance pubkeyHash confirms w')
     = value (CalculateAddressBalance pubkeyHash confirms w).
Proof.
  intros Htip Hperm Hh Hc. rewrite !CalculateBalance_value, !CalculateAddressBalance_value, Htip.
  unfold code_sum, code_sum_addr.
  rewrite (selected_sum_perm (counted confirms (bsHeight (curBlock w).1)) _ _ Hperm).
  rewrite (selected_sum_perm
             (fun u => counted confirms (bsHeight (curBlock w).1) u
                       && bytes_Equal pubkeyHash (AddrHash u)) _ _ Hperm).
  assert (Hu : counted confirms (bsHeight (curBlock w).1) u = false).
  { unfold counted. rewrite Hh. destruct (Z.eqb_spec confirms 0); [contradiction |].
    reflexivity. }
  simpl. rewrite Hu. split; reflexivity.
Qed.

End MoreBalanceFacts.

(** ** Keys, addresses and requests to btcd *)

Section RequestFacts.
Import GoInt.

Context {Wallet : Type} {WA : WalletAPI Wallet} {WQ : WalletQueries Wallet}
  {LIB : Library} {PER : Persistence (Wallet := Wallet)}.

Implicit Type w : World (Wallet := Wallet).

Lemma btcd_msgs_app (evs evs' : list (Event (Wallet := Wallet))) :
  btcd_msgs (evs ++ evs') = btcd_msgs evs ++ btcd_msgs evs'.
Proof. apply omap_app. Qed.

(** The message that asks for the transactions of [addr] under the
    identifier [n], [nil] when it cannot be marshalled. *)
Lemma ReqNewTxsForAddress_run (addr : string) w :
  after (ReqNewTxsForAddress addr w) = w
  /\ btcd_msgs (emitted (ReqNewTxsForAddress addr w))
     = [match MarshalJSON (NotifyNewTXsCmd (btcwallet_id (NewBlockTxJSONID (acct w))) [addr]) with
        | Ok m => Some m
        | Err _ => None
        end].
Proof.
  unfold ReqNewTxsForAddress, bind, log, emit, get. cbn.
  destruct (MarshalJSON _); split; reflexivity.
Qed.

Lemma ReqSpentUtxoNtfn_run (u : Utxo) w :
  after (ReqSpentUtxoNtfn u w) = w
  /\ btcd_msgs (emitted (ReqSpentUtxoNtfn u w))
     = match MarshalJSON (NotifySpentCmd (btcwallet_id (SpentOutpointJSONID (acct w))) (Out u)) with
       | Ok m => [Some m]
       | Err _ => []
       end.
Proof.
  unfold ReqSpentUtxoNtfn, bind, log, emit, get. cbn.
  destruct (MarshalJSON _); split; reflexivity.
Qed.

(** X9. [ReqNewTxsForAddress] and [ReqSpentUtxoNtfn] change nothing in the
    world and carry the identifiers [NewBlockTxJSONID] and
    [SpentOutpointJSONID] of the account.  Each first logs one debug line
    and, when the request can be marshalled, then sends it and does
    nothing else.  When the request cannot be marshalled, each logs one
    error line with the error of the marshalling; [ReqSpentUtxoNtfn] then
    sends nothing, while [ReqNewTxsForAddress] still puts one message,
    the [nil] slice, on [btcdMsgs]. *)
Theorem requests_when_marshalling_fails (addr : string) (u : Utxo) w :
  let new_txs := ReqNewTxsForAddress addr w in
  let spent := ReqSpentUtxoNtfn u w in
  let new_txs_cmd := NotifyNewTXsCmd (btcwallet_id (NewBlockTxJSONID (acct w))) [addr] in
  let spent_cmd := NotifySpentCmd (btcwallet_id (SpentOutpointJSONID (acct w))) (Out u) in
  after new_txs = w /\ after spent = w
  /\ btcd_msgs (emitted new_txs)
     = [match MarshalJSON new_txs_cmd with
        | Ok m => Some m
        | Err _ => None
        end]
  /\ btcd_msgs (emitted spent)
     = match MarshalJSON spent_cmd with
       | Ok m => [Some m]
       | Err _ => []
       end
  /\ emitted new_txs
     = Log LDebug "Requesting notifications of TXs sending to address %v" [ArgString addr]
       :: match MarshalJSON new_txs_cmd with
          | Ok m => [SendBtcdMsg (Some m)]
          | Err err =>
            [Log LError "cannot request transaction notifications: %v" [ArgString err];
             SendBtcdMsg None]
          end
  /\ emitted spent
     = Log LDebug "Requesting spent UTXO notifications for Outpoint hash %s index %d"
         [ArgHash (Hash (Out u)); ArgInt (Index (Out u))]
       :: match MarshalJSON spent_cmd with
          | Ok m => [SendBtcdMsg (Some m)]
          | Err err => [Log LError "cannot create spent request: %v" [ArgString err]]
          end.
Proof.
  cbv zeta. destruct (ReqNewTxsForAddress_run addr w) as [Ha Hm].
  destruct (ReqSpentUtxoNtfn_run u w) as [Ha' Hm'].
  split; [exact Ha |]. split; [exact Ha' |]. split; [exact Hm |]. split; [exact Hm' |].
  unfold ReqNewTxsForAddress, ReqSpentUtxoNtfn, bind, log, emit, get. cbn.
  split.
  - destruct (MarshalJSON (NotifyNewTXsCmd _ _)); reflexivity.
  - destruct (MarshalJSON (NotifySpentCmd _ _)); reflexivity.
Qed.

(** X10. [ImportWIFPrivateKey] marks the address exactly when it
    succeeds.  When it returns an error, it returns the empty address,
    the address-ownership index is as before and nothing was sent to
    btcd.  When it returns no error, the dirty account was written to disk
    without error, [LookupAccountByAddress] finds the account's name for
    the returned address, and no other address of the index has changed. *)
Theorem ImportWIFPrivateKey_marks_iff_imported (wif : string) (bs : BlockStamp) w :
  let r := ImportWIFPrivateKey wif bs w in
  btcd_msgs (emitted r) = []
  /\ match (value r).2 with
     | Some _ =>
       (value r).1 = EmptyString /\ addressAccountMap (after r) = addressAccountMap w
     | None =>
       value (LookupAccountByAddress (value r).1 (after r))
       = (Name (wallet (acct (after r))), None)
       /\ addressAccountMap (after r)
          = <[(value r).1 := Name (wallet (acct (after r)))]> (addressAccountMap w)
       /\ exists a, In (CallWriteDirtyToDisk a None) (emitted r) /\ dirty a = true
     end.
Proof.
  intros r. assert (Hr : r = ImportWIFPrivateKey wif bs w) by reflexivity. clearbody r.
  unfold ImportWIFPrivateKey in Hr.
  destruct (DecodePrivateKey wif) as [[[privkey net] compressed] | err]; cbn in Hr;
    [| subst r; repeat split].
  unfold bind, a_Net, get, call_wallet in Hr; cbn in Hr.
  destruct (net =? Net (wallet (acct w))); cbn in Hr; [| subst r; repeat split].
  destruct (ImportPrivateKey privkey compressed bs (wallet (acct w))) as [[addr | err] k];
    cbn in Hr; [| subst r; repeat split].
  match type of Hr with
  | context [writeDirtyToDisk_impl ?a] =>
    pose (handed := a); fold handed in Hr;
      destruct (writeDirtyToDisk_impl handed) as [[msg |] a'] eqn:Hw
  end; cbn in Hr; subst r; cbn; [repeat split |].
  split; [reflexivity |].
  unfold LookupAccountByAddress, bind, get. cbn. rewrite lookup_insert_eq. cbn.
  split; [reflexivity |]. split; [reflexivity |].
  exists handed. split; [left; reflexivity | reflexivity].
Qed.

(** X11. [NewAddress] either fails before anything is written, marked or
    sent (the error of [GetCurBlock] or of the key store, with the empty
    address), or returns a new address with a [nil] error after it has
    handed the dirty account to the disk, marked the address for the
    account, so that [LookupAccountByAddress] finds the account's name,
    and put exactly one request for its transactions on [btcdMsgs]. *)
Theorem NewAddress_marks_and_requests w :
  let r := NewAddress w in
  match (value r).2 with
  | Some _ =>
    (value r).1 = EmptyString /\ addressAccountMap (after r) = addressAccountMap w
    /\ emitted r = []
  | None =>
    value (LookupAccountByAddress (value r).1 (after r))
    = (Name (wallet (acct (after r))), None)
    /\ btcd_msgs (emitted r)
       = [match MarshalJSON (NotifyNewTXsCmd
                               (btcwallet_id (NewBlockTxJSONID (acct (after r))))
                               [(value r).1]) with
          | Ok m => Some m
          | Err _ => None
          end]
    /\ exists a err, In (CallWriteDirtyToDisk a err) (emitted r) /\ dirty a = true
  end.
Proof.
  intros r. assert (Hr : r = NewAddress w) by reflexivity. clearbody r.
  unfold NewAddress, bind, GetCurBlock, get, call_wallet in Hr. cbn in Hr.
  destruct (curBlock w) as [tip [err |]]; cbn in Hr; [subst r; repeat split |].
  destruct (NextChainedAddress tip (wallet (acct w))) as [[addr | err] k]; cbn in Hr;
    [| subst r; repeat split].
  match type of Hr with
  | context [writeDirtyToDisk_impl ?a] =>
    pose (handed := a); fold handed in Hr;
      destruct (writeDirtyToDisk_impl handed) as [[msg |] a'] eqn:Hw
  end; cbn in Hr;
    unfold ReqNewTxsForAddress, bind, log, emit, get in Hr; cbn in Hr;
    destruct (MarshalJSON _) as [mcmd | err] eqn:Hm; subst r; cbn;
    unfold LookupAccountByAddress, bind, get; cbn; rewrite lookup_insert_eq, Hm;
    (split; [reflexivity |]); (split; [reflexivity |]);
    eexists handed, _; (split; [left; reflexivity | reflexivity]).
Qed.

Lemma uint64_succ_ne (n : Z) : n <> uint64 (n + 1).
Proof. unfold uint64. intros H. divmod. Qed.


(** X13. [ImportPrivKey] returns the error of [ImportWIFPrivateKey], run
    with the zero block stamp, and never one of the rescan.  It does
    nothing more than the import when the import fails or no rescan is
    asked for; otherwise it goes on with [RescanAddresses] from block 0
    for the one imported address. *)
Theorem ImportPrivKey_rescans_from_block_0 (wif : string) (rescan : bool) w :
  let i := ImportWIFPrivateKey wif {| bsHeight := 0; bsHash := replicate 32 x00 |} w in
  let r := ImportPrivKey wif rescan w in
  value r = (value i).2
  /\ match (value i).2 with
     | None =>
       if rescan then
         let s := RescanAddresses 0 {[ (value i).1 ]} (after i) in
         after r = after s /\ emitted r = emitted i ++ emitted s
       else after r = after i /\ emitted r = emitted i
     | Some _ => after r = after i /\ emitted r = emitted i
     end.
Proof.
  cbv zeta. unfold ImportPrivKey. rewrite value_bind, after_bind, emitted_bind.
  destruct (value (ImportWIFPrivateKey wif _ w)).2 as [err |]; cbn.
  - rewrite app_nil_r. repeat split.
  - destruct rescan; cbn; rewrite ?app_nil_r; repeat split.
Qed.

Lemma for_each_ReqNewTxsForAddress (infos : list AddressInfo) w :
  after (for_each (fun addr => ReqNewTxsForAddress (Address addr)) infos w) = w
  /\ btcd_msgs (emitted (for_each (fun addr => ReqNewTxsForAddress (Address addr)) infos w))
     = map (fun addr =>
              match MarshalJSON (NotifyNewTXsCmd (btcwallet_id (NewBlockTxJSONID (acct w)))
                                   [Address addr]) with
              | Ok m => Some m
              | Err _ => None
              end) infos.
Proof.
  induction infos as [| addr infos [IHa IHm]]; [split; reflexivity |].
  cbn [for_each]. rewrite after_bind, emitted_bind, btcd_msgs_app.
  destruct (ReqNewTxsForAddress_run (Address addr) w) as [Ha Hm].
  rewrite Ha, Hm, IHm. split; [exact IHa | reflexivity].
Qed.

Lemma for_each_ReqSpentUtxoNtfn (s : UtxoStore) w :
  after (for_each ReqSpentUtxoNtfn s w) = w
  /\ btcd_msgs (emitted (for_each ReqSpentUtxoNtfn s w))
     = omap (fun u =>
               match MarshalJSON (NotifySpentCmd
                                    (btcwallet_id (SpentOutpointJSONID (acct w))) (Out u)) with
               | Ok m => Some (Some m)
               | Err _ => None
               end) s.
Proof.
  induction s as [| u s [IHa IHm]]; [split; reflexivity |].
  cbn [for_each]. rewrite after_bind, emitted_bind, btcd_msgs_app.
  destruct (ReqSpentUtxoNtfn_run u w) as [Ha Hm].
  rewrite Ha, Hm, IHm. split; [exact IHa |].
  cbn [omap list_omap]. destruct (MarshalJSON _); reflexivity.
Qed.

Lemma Track_run w :
  let n := NewJSONID w in
  let w1 :=
    with_replyHandlers (fun m => <[n := HnewBlockTxOutHandler]> m)
      (with_acct (set_NewBlockTxJSONID n) (with_NewJSONID (fun n => uint64 (n + 1)) w)) in
  let l1 :=
    for_each (fun addr => ReqNewTxsForAddress (Address addr))
      (ActiveAddresses (wallet (acct w1))) w1 in
  let n' := NewJSONID (after l1) in
  let w2 :=
    with_replyHandlers (fun m => <[n' := HspentUtxoHandler]> m)
      (with_acct (set_SpentOutpointJSONID n')
         (with_NewJSONID (fun n => uint64 (n + 1)) (after l1))) in
  let l2 := for_each ReqSpentUtxoNtfn (UtxoStore_s (acct w2)) w2 in
  after (Track w) = after l2 /\ emitted (Track w) = emitted l1 ++ emitted l2.
Proof. intros. split; reflexivity. Qed.

(** X14. [Track] takes two request identifiers, which differ, stores the
    first in [NewBlockTxJSONID] and the second in [SpentOutpointJSONID],
    and registers the new-transaction handler under the first and the
    spent-output handler under the second.  It then has sent, in this
    order, one request under the first identifier for each active
    address and one request under the second identifier for each stored
    output whose request can be marshalled: every request carries the
    identifier under which the handler of its replies is registered. *)
Theorem Track_registers_and_requests w :
  let n := NewJSONID w in
  let n' := uint64 (n + 1) in
  let r := Track w in
  n <> n'
  /\ NewBlockTxJSONID (acct (after r)) = n
  /\ SpentOutpointJSONID (acct (after r)) = n'
  /\ replyHandlers (after r)
     = <[n' := HspentUtxoHandler]> (<[n := HnewBlockTxOutHandler]> (replyHandlers w))
  /\ replyHandlers (after r) !! n = Some HnewBlockTxOutHandler
  /\ replyHandlers (after r) !! n' = Some HspentUtxoHandler
  /\ btcd_msgs (emitted r)
     = map (fun addr =>
              match MarshalJSON (NotifyNewTXsCmd (btcwallet_id n) [Address addr]) with
              | Ok m => Some m
              | Err _ => None
              end) (ActiveAddresses (wallet (acct w)))
       ++ omap (fun u =>
                  match MarshalJSON (NotifySpentCmd (btcwallet_id n') (Out u)) with
                  | Ok m => Some (Some m)
                  | Err _ => None
                  end) (UtxoStore_s (acct w)).
Proof.
  intros n n' r. pose proof (uint64_succ_ne n) as Hne. fold n' in Hne.
  split; [exact Hne |].
  destruct (Track_run w) as [Hafter Hev]. fold r in Hafter, Hev.
  rewrite Hafter, Hev, btcd_msgs_app. clear Hafter Hev r.
  match goal with
  | |- context [for_each _ (ActiveAddresses ?k) ?w1] =>
    destruct (for_each_ReqNewTxsForAddress (ActiveAddresses k) w1) as [Ha Hm];
      rewrite !Ha, Hm
  end.
  match goal with
  | |- context [for_each ReqSpentUtxoNtfn ?s ?w2] =>
    destruct (for_each_ReqSpentUtxoNtfn s w2) as [Ha' Hm']; rewrite !Ha', Hm'
  end.
  cbn. fold n n'.
  split; [reflexivity |]. split; [reflexivity |]. split; [reflexivity |].
  split; [rewrite lookup_insert_ne by (symmetry; exact Hne); apply lookup_insert_eq |].
  split; [apply lookup_insert_eq |]. reflexivity.
Qed.

Lemma ActivePaymentAddresses_fold (infos : list AddressInfo) (acc : gset string) (x : string) :
  x ∈ fold_left (fun addrs info => {[ Address info ]} ∪ addrs) infos acc
  <-> x ∈ acc \/ exists info, In info infos /\ Address info = x.
Proof.
  revert acc. induction infos as [| info infos IH]; intros acc; cbn.
  - split; [auto | intros [H | (i & [] & _)]; exact H].
  - rewrite IH. rewrite elem_of_union, elem_of_singleton. split.
    + intros [[-> | H] | (i & Hin & Hi)]; eauto.
    + intros [H | (i & [-> | Hin] & Hi)]; eauto.
Qed.

(** X15. [RescanActiveAddresses] is [RescanAddresses] for exactly the
    addresses of the wallet's active address infos, from
    [EarliestBlockHeight] when the account is marked for a full rescan
    and otherwise from the block after the one the wallet is synced with,
    the sum being an [int32]; before that it logs one debug line and sends
    nothing. *)
Theorem RescanActiveAddresses_begins_after_sync w :
  let a := acct w in
  let beginBlock :=
    if fullRescan a then EarliestBlockHeight (wallet a)
    else int32_add (bsHeight (SyncedWith (wallet a))) 1 in
  let addrs := value (ActivePaymentAddresses w) in
  let r := RescanActiveAddresses w in
  (forall x, x ∈ addrs <-> exists info, In info (ActiveAddresses (wallet a)) /\ Address info = x)
  /\ after r = after (RescanAddresses beginBlock addrs w)
  /\ btcd_msgs (emitted r) = btcd_msgs (emitted (RescanAddresses beginBlock addrs w))
  /\ exists format args, emitted r = Log LDebug format args :: emitted (RescanAddresses beginBlock addrs w).
Proof.
  cbv zeta. split.
  - intros x. unfold ActivePaymentAddresses, bind, get, ret. cbn.
    rewrite ActivePaymentAddresses_fold. rewrite elem_of_empty. tauto.
  - unfold RescanActiveAddresses, bind, get, log, emit. cbn.
    destruct (fullRescan (acct w)); cbn; repeat split; eexists _, _; reflexivity.
Qed.

End RequestFacts.

(** ** The new-transaction handler *)

Section HandlerFacts.
Import GoInt.

Context {Wallet : Type} {WA : WalletAPI Wallet} {LIB : Library}.

Implicit Type w : World (Wallet := Wallet).

(** Either the handler drops the notification, changing nothing and
    logging at most one error, or every field it needs is there and it goes
    on to record the transaction. *)
Lemma newBlockTxOutHandler_cases (result : json) (e : option btcjson_Error) w :
  let r := newBlockTxOutHandler result e w in
  (after r = w /\ value r = false
   /\ ((result = JNull /\ e = None /\ emitted r = [])
       \/ exists format args, emitted r = [Log LError format args]))
  \/ (exists v receiverHash height blockHash blockIndex blockTime txID txOutIndex amt pkscript,
        result = JObject v
        /\ (forall k, ~ field_unusable v k)
        /\ r = recordRecvTx receiverHash height blockHash blockIndex blockTime txID txOutIndex
                 amt pkscript
                 (match as_bool (v !! "spent") with Some tspent => tspent | None => false end)
                 w).
Proof.
  intros r. assert (Hr : r = newBlockTxOutHandler result e w) by reflexivity. clearbody r.
  unfold newBlockTxOutHandler in Hr.
  destruct e as [e |];
    [left; subst r; repeat split; right; eexists _, _; reflexivity |].
  destruct result as [| b | f | s | l | v];
    try (left; subst r; repeat split; right; eexists _, _; reflexivity);
    [left; subst r; repeat split; left; repeat split |].
  destruct (as_string (v !! "receiver")) as [receiver |] eqn:E1;
    [| left; subst r; repeat split; right; eexists _, _; reflexivity].
  destruct (DecodeAddress receiver) as [[receiverHash net] | err];
    [| left; subst r; repeat split; right; eexists _, _; reflexivity].
  destruct (as_float64 (v !! "height")) as [height |] eqn:E2;
    [| left; subst r; repeat split; right; eexists _, _; reflexivity].
  destruct (as_string (v !! "blockhash")) as [blockHashBE |] eqn:E3;
    [| left; subst r; repeat split; right; eexists _, _; reflexivity].
  destruct (NewShaHashFromStr blockHashBE) as [blockHash | err];
    [| left; subst r; repeat split; right; eexists _, _; reflexivity].
  destruct (as_float64 (v !! "blockindex")) as [fblockIndex |] eqn:E4;
    [| left; subst r; repeat split; right; eexists _, _; reflexivity].
  destruct (as_float64 (v !! "blocktime")) as [fblockTime |] eqn:E5;
    [| left; subst r; repeat split; right; eexists _, _; reflexivity].
  destruct (as_string (v !! "txid")) as [txhashBE |] eqn:E6;
    [| left; subst r; repeat split; right; eexists _, _; reflexivity].
  destruct (NewShaHashFromStr txhashBE) as [txID | err];
    [| left; subst r; repeat split; right; eexists _, _; reflexivity].
  destruct (as_float64 (v !! "txoutindex")) as [ftxOutIndex |] eqn:E7;
    [| left; subst r; repeat split; right; eexists _, _; reflexivity].
  destruct (as_float64 (v !! "amount")) as [amt |] eqn:E8;
    [| left; subst r; repeat split; right; eexists _, _; reflexivity].
  destruct (as_string (v !! "pkscript")) as [pkscript58 |] eqn:E9;
    [| left; subst r; repeat split; right; eexists _, _; reflexivity].
  right. exists v, receiverHash, height, blockHash, (int32_of_float64 fblockIndex),
    (int64_of_float64 fblockTime), txID, (uint32_of_float64 ftxOutIndex), amt,
    (Base58Decode pkscript58).
  split; [reflexivity |]. split; [| exact Hr].
  intros k [[Hin H] | [Hin H]]; cbn in Hin;
    repeat (destruct Hin as [<- | Hin]; [congruence |]); contradiction.
Qed.

#[local] Arguments bind : simpl never.

(** One step of a method after the other. *)
Ltac run_binds :=
  repeat (first [rewrite after_bind | rewrite value_bind | rewrite emitted_bind]; cbn); cbn.

(** What recording a received transaction leaves and emits. *)
Lemma recordRecvTx_run (receiverHash : bytes) (height : float64) (blockHash : ShaHash)
    (blockIndex blockTime : Z) (txID : ShaHash) (txOutIndex : Z) (amt : float64)
    (pkscript : bytes) (spent : bool) w :
  let h := int32_of_float64 height in
  let t := {| TxID := txID; TxOutIdx := txOutIndex; TimeReceived := now w;
              BlockHeight := h; RecvBlockHash := blockHash;
              BlockIndex := blockIndex; BlockTime := blockTime;
              Amount := int64_of_float64 amt; ReceiverHash := receiverHash |} in
  let u := {| AddrHash := copy_array 20 receiverHash;
              Out := {| Hash := copy_array 32 txID; Index := txOutIndex |};
              Subscript := pkscript; Amt := uint64_of_float64 amt; Height := h;
              BlockHash := copy_array 32 blockHash |} in
  let op := {| Hash := txID; Index := txOutIndex |} in
  let r := recordRecvTx receiverHash height blockHash blockIndex blockTime txID txOutIndex
             amt pkscript spent w in
  (curBlock (after r) = curBlock w
   /\ TxStore_s (acct (after r)) = InsertRecvTx t (TxStore_s (acct w))
   /\ TxStore_dirty (acct (after r)) = true
   /\ UtxoStore_s (acct (after r))
      = (if spent then UtxoStore_s (acct w) else UtxoStore_Insert u (UtxoStore_s (acct w)))
   /\ UtxoStore_dirty (acct (after r)) = (if spent then UtxoStore_dirty (acct w) else true))
  /\ NotifiedRecvTx (after r)
     = (if bool_decide (op ∈ NotifiedRecvTx w) then NotifiedRecvTx w ∖ {[op]}
        else NotifiedRecvTx w ∪ {[op]})
  /\ exists front back,
       emitted r
       = (if h =? -1 then [] else [BalanceSyncerAdd blockHash])
         ++ front
         ++ [if bool_decide (op ∈ NotifiedRecvTx w) then NotifyMinedTx t
             else NotifyNewTxDetails (Name (wallet (acct w)))
                    (RecvTx_TxInfo t (Name (wallet (acct w))) h (Net (wallet (acct w))))]
         ++ back
         ++ (if h =? -1 then [] else [WaitGroupDone blockHash])
       /\ (front = [] \/ front = [AwaitSendTxHist txID])
       /\ (back = []
           \/ spent = false
              /\ exists account bal, back = [NotifyWalletBalanceUnconfirmed account bal]).
Proof.
  intros h t u op r. subst h t u op r. unfold recordRecvTx.
  unfold SendTxHistSync_access, SendTxHistSync_remove, NotifiedRecvTx_access,
    NotifiedRecvTx_add, NotifiedRecvTx_remove, a_Name, a_Net.
  destruct spent; destruct (int32_of_float64 height =? -1) eqn:Hh; cbn [negb];
    run_binds;
    destruct (bool_decide (txID ∈ SendTxHistSync w)) eqn:Hs; run_binds;
    destruct (bool_decide (_ ∈ NotifiedRecvTx w)) eqn:Hn; run_binds;
    rewrite ?Hh; run_binds;
    rewrite ?(proj1 (CalculateBalance_reads _ _)), ?(proj2 (CalculateBalance_reads _ _));
    run_binds;
    rewrite ?(proj1 (CalculateBalance_reads _ _)), ?(proj2 (CalculateBalance_reads _ _));
    run_binds.
  all: (split; [repeat split |]); (split; [reflexivity |]).
  all: first
    [ exists [], []; split; [reflexivity | split; left; reflexivity]
    | exists [AwaitSendTxHist txID], []; split; [reflexivity | split; [right | left]; reflexivity]
    | eexists [], [_]; split; [reflexivity |];
      split; [left; reflexivity | right; split; [reflexivity | eexists _, _; reflexivity]]
    | eexists [AwaitSendTxHist txID], [_]; split; [reflexivity |];
      split; [right; reflexivity | right; split; [reflexivity | eexists _, _; reflexivity]] ].
Qed.

(** The events of recording a received transaction, around the
    registration with the balance syncer. *)
Lemma recordRecvTx_events (receiverHash : bytes) (height : float64) (blockHash : ShaHash)
    (blockIndex blockTime : Z) (txID : ShaHash) (txOutIndex : Z) (amt : float64)
    (pkscript : bytes) (spent : bool) w :
  let h := int32_of_float64 height in
  let t := {| TxID := txID; TxOutIdx := txOutIndex; TimeReceived := now w;
              BlockHeight := h; RecvBlockHash := blockHash;
              BlockIndex := blockIndex; BlockTime := blockTime;
              Amount := int64_of_float64 amt; ReceiverHash := receiverHash |} in
  let notified := bool_decide ({| Hash := txID; Index := txOutIndex |} ∈ NotifiedRecvTx w) in
  let r := recordRecvTx receiverHash height blockHash blockIndex blockTime txID txOutIndex
             amt pkscript spent w in
  exists mid,
    emitted r
    = (if h =? -1 then [] else [BalanceSyncerAdd blockHash])
      ++ mid ++ (if h =? -1 then [] else [WaitGroupDone blockHash])
    /\ syncer_adds mid = [] /\ syncer_dones mid = []
    /\ mined_txs mid = (if notified then [t] else [])
    /\ new_tx_ntfns mid = (if notified then [] else [Name (wallet (acct w))])
    /\ (spent = true -> Forall (fun ev => is_balance_ntfn ev = false) mid).
Proof.
  intros h t notified r.
  destruct (recordRecvTx_run receiverHash height blockHash blockIndex blockTime txID
              txOutIndex amt pkscript spent w)
    as (_ & _ & front & back & Hev & Hfront & Hback).
  fold h t notified r in Hev. clearbody r notified t h.
  match type of Hev with
  | _ = _ ++ _ ++ [?x] ++ _ ++ _ => exists (front ++ [x] ++ back)
  end.
  split; [rewrite Hev, <- !app_assoc; reflexivity |].
  destruct Hfront as [-> | ->];
    destruct Hback as [-> | (Hfalse & account & bal & ->)];
    destruct notified; cbn;
    (split; [reflexivity |]); (split; [reflexivity |]); (split; [reflexivity |]);
    (split; [reflexivity |]); intros Htrue; try congruence; repeat constructor.
Qed.

(** X16. A transaction notification in which a field the handler needs
    is absent, or is not of the type the handler asserts, is dropped: the
    handler returns [false], logs one error and changes nothing, neither
    the stores nor the set of notified outpoints. *)
Theorem newBlockTxOutHandler_drops_unusable (v : gmap string json) (k : string)
    (e : option btcjson_Error) w :
  field_unusable v k ->
  let r := newBlockTxOutHandler (JObject v) e w in
  after r = w /\ value r = false /\ exists format args, emitted r = [Log LError format args].
Proof.
  intros Hk r.
  destruct (newBlockTxOutHandler_cases (JObject v) e w)
    as [(Ha & Hv & [(Hnull & _) | Hlog])
       | (v' & rh & h & bh & bi & bt & txid & idx & amt & pk & Heq & Hall & _)].
  - discriminate Hnull.
  - repeat split; assumption.
  - injection Heq as <-. destruct (Hall k Hk).
Qed.

(** X17. A notification that says the output is already spent adds
    nothing to the UtxoStore and does not mark it dirty, whatever else the
    notification holds: both balances are afterwards what they were, and
    the handler sends no balance notification. *)
Theorem spent_output_is_not_stored (v : gmap string json) (e : option btcjson_Error) w
    (confirms : Z) (pubkeyHash : bytes) :
  as_bool (v !! "spent") = Some true ->
  let r := newBlockTxOutHandler (JObject v) e w in
  UtxoStore_s (acct (after r)) = UtxoStore_s (acct w)
  /\ UtxoStore_dirty (acct (after r)) = UtxoStore_dirty (acct w)
  /\ value (CalculateBalance confirms (after r)) = value (CalculateBalance confirms w)
  /\ value (CalculateAddressBalance pubkeyHash confirms (after r))
     = value (CalculateAddressBalance pubkeyHash confirms w)
  /\ Forall (fun ev => is_balance_ntfn ev = false) (emitted r).
Proof.
  intros Hspent r.
  destruct (newBlockTxOutHandler_cases (JObject v) e w)
    as [(Ha & Hv & Hev)
       | (v' & rh & h & bh & bi & bt & txid & idx & amt & pk & Heq & Hall & Hrun)];
    fold r in Ha, Hev || fold r in Hrun.
  - rewrite Ha. repeat split.
    destruct Hev as [(_ & _ & ->) | (format & args & ->)]; repeat constructor.
  - injection Heq as <-. rewrite Hspent in Hrun.
    destruct (recordRecvTx_run rh h bh bi bt txid idx amt pk true w)
      as ((Hcur & _ & _ & Hs & Hd) & _).
    destruct (recordRecvTx_events rh h bh bi bt txid idx amt pk true w)
      as (mid & Hev & _ & _ & _ & _ & Hbal).
    rewrite <- Hrun in Hcur, Hs, Hd, Hev. cbv zeta in Hev.
    rewrite !CalculateBalance_value, !CalculateAddressBalance_value, Hcur, Hs.
    repeat split; try assumption.
    rewrite Hev. repeat (apply Forall_app; split).
    + destruct (_ =? -1); repeat constructor.
    + apply Hbal. reflexivity.
    + destruct (_ =? -1); repeat constructor.
Qed.

(** X18. Whatever it is given, the handler either changes nothing, or
    marks the TxStore dirty and inserts one received transaction into it;
    and when it also stores an output, the UtxoStore is marked dirty and
    the output agrees with that transaction: same height, same output
    index, its transaction hash, address hash and block hash being those
    of the transaction copied into arrays of 32, 20 and 32 bytes. *)
Theorem newBlockTxOutHandler_records_consistently (result : json)
    (e : option btcjson_Error) w :
  let r := newBlockTxOutHandler result e w in
  after r = w
  \/ (exists t,
        TxStore_s (acct (after r)) = InsertRecvTx t (TxStore_s (acct w))
        /\ TxStore_dirty (acct (after r)) = true
        /\ TimeReceived t = now w
        /\ ((UtxoStore_s (acct (after r)) = UtxoStore_s (acct w)
             /\ UtxoStore_dirty (acct (after r)) = UtxoStore_dirty (acct w))
            \/ (exists u,
                  UtxoStore_s (acct (after r)) = UtxoStore_Insert u (UtxoStore_s (acct w))
                  /\ UtxoStore_dirty (acct (after r)) = true
                  /\ Height u = BlockHeight t
                  /\ Out u = {| Hash := copy_array 32 (TxID t); Index := TxOutIdx t |}
                  /\ AddrHash u = copy_array 20 (ReceiverHash t)
                  /\ BlockHash u = copy_array 32 (RecvBlockHash t)
                  /\ length (AddrHash u) = 20%nat))).
Proof.
  intros r.
  destruct (newBlockTxOutHandler_cases result e w)
    as [(Ha & _) | (v & rh & h & bh & bi & bt & txid & idx & amt & pk & Heq & Hall & Hrun)];
    [left; exact Ha |].
  right. fold r in Hrun.
  match type of Hrun with
  | _ = recordRecvTx _ _ _ _ _ _ _ _ _ ?spent _ =>
    destruct (recordRecvTx_run rh h bh bi bt txid idx amt pk spent w)
      as ((_ & Ht & Htd & Hs & Hd) & _); rewrite <- Hrun in Ht, Htd, Hs, Hd;
      destruct spent
  end; eexists; (split; [exact Ht |]); (split; [exact Htd |]); (split; [reflexivity |]).
  - left. split; assumption.
  - right. eexists. split; [exact Hs |]. split; [exact Hd |]. cbn.
    repeat split. unfold copy_array. rewrite length_app, length_take, length_replicate. lia.
Qed.

Lemma syncer_adds_app (evs evs' : list (Event (Wallet := Wallet))) :
  syncer_adds (evs ++ evs') = syncer_adds evs ++ syncer_adds evs'.
Proof. apply omap_app. Qed.

Lemma syncer_dones_app (evs evs' : list (Event (Wallet := Wallet))) :
  syncer_dones (evs ++ evs') = syncer_dones evs ++ syncer_dones evs'.
Proof. apply omap_app. Qed.

(** X19. The handler never keeps the slot it took from the balance
    syncer: whatever it is given, either it registers no block with the
    syncer and releases no wait group, or its first event is the
    registration of one block, its last event the release of the wait
    group of that same block, and there is no other registration or
    release in between. *)
Theorem newBlockTxOutHandler_releases_the_syncer (result : json)
    (e : option btcjson_Error) w :
  let evs := emitted (newBlockTxOutHandler result e w) in
  syncer_adds evs = syncer_dones evs
  /\ ((syncer_adds evs = [] /\ syncer_dones evs = [])
      \/ exists block mid,
           evs = BalanceSyncerAdd block :: mid ++ [WaitGroupDone block]
           /\ syncer_adds mid = [] /\ syncer_dones mid = []).
Proof.
  intros evs.
  destruct (newBlockTxOutHandler_cases result e w)
    as [(_ & _ & Hev)
       | (v & rh & h & bh & bi & bt & txid & idx & amt & pk & Heq & Hall & Hrun)].
  - fold evs in Hev.
    destruct Hev as [(_ & _ & ->) | (format & args & ->)]; split; try reflexivity;
      left; split; reflexivity.
  - match type of Hrun with
    | _ = recordRecvTx _ _ _ _ _ _ _ _ _ ?spent _ =>
      destruct (recordRecvTx_events rh h bh bi bt txid idx amt pk spent w)
        as (mid & Hev & Hadd & Hdone & _); rewrite <- Hrun in Hev
    end.
    fold evs in Hev. cbv zeta in Hev. rewrite Hev.
    destruct (int32_of_float64 h =? -1); cbn [app].
    + rewrite app_nil_r, Hadd, Hdone. split; [reflexivity |]. left. split; reflexivity.
    + change (syncer_adds (BalanceSyncerAdd bh :: mid ++ [WaitGroupDone bh]))
        with (bh :: syncer_adds (mid ++ [WaitGroupDone bh])).
      change (syncer_dones (BalanceSyncerAdd bh :: mid ++ [WaitGroupDone bh]))
        with (syncer_dones (mid ++ [WaitGroupDone bh])).
      rewrite syncer_adds_app, syncer_dones_app, Hadd, Hdone.
      split; [reflexivity |]. right. exists bh, mid. repeat split; assumption.
Qed.

(** X20. A transaction is announced as new the first time its outpoint
    is seen and as mined the next time.  Whatever the handler is given,
    exactly one of three things holds: it announces nothing and the set of
    notified outpoints is as before; or it announces one mined
    transaction, whose outpoint was in the set and is then taken out; or
    it announces one new transaction for the account, for an outpoint
    that was not in the set and is then put in. *)
Theorem newBlockTxOutHandler_new_then_mined (result : json) (e : option btcjson_Error) w :
  let r := newBlockTxOutHandler result e w in
  let before := NotifiedRecvTx w in
  (mined_txs (emitted r) = [] /\ new_tx_ntfns (emitted r) = []
   /\ NotifiedRecvTx (after r) = before)
  \/ (exists t,
        mined_txs (emitted r) = [t] /\ new_tx_ntfns (emitted r) = []
        /\ {| Hash := TxID t; Index := TxOutIdx t |} ∈ before
        /\ NotifiedRecvTx (after r) = before ∖ {[ {| Hash := TxID t; Index := TxOutIdx t |} ]})
  \/ (exists op,
        mined_txs (emitted r) = [] /\ new_tx_ntfns (emitted r) = [Name (wallet (acct w))]
        /\ (op ∉ before)
        /\ NotifiedRecvTx (after r) = before ∪ {[ op ]}).
Proof.
  intros r before.
  destruct (newBlockTxOutHandler_cases result e w)
    as [(Ha & _ & Hev)
       | (v & rh & h & bh & bi & bt & txid & idx & amt & pk & Heq & Hall & Hrun)];
    fold r in Ha, Hev || fold r in Hrun.
  - left. rewrite Ha.
    destruct Hev as [(_ & _ & ->) | (format & args & ->)]; repeat split.
  - match type of Hrun with
    | _ = recordRecvTx _ _ _ _ _ _ _ _ _ ?spent _ =>
      destruct (recordRecvTx_events rh h bh bi bt txid idx amt pk spent w)
        as (mid & Hev & _ & _ & Hmined & Hnew & _);
        destruct (recordRecvTx_run rh h bh bi bt txid idx amt pk spent w)
          as (_ & Hset & _);
        rewrite <- Hrun in Hev, Hset
    end.
    cbv zeta in Hev, Hmined, Hnew, Hset. fold before in Hmined, Hnew, Hset.
    assert (Hm : mined_txs (emitted r) = mined_txs mid).
    { rewrite Hev. unfold mined_txs. rewrite !omap_app.
      destruct (_ =? -1); cbn; rewrite ?app_nil_r; reflexivity. }
    assert (Hn : new_tx_ntfns (emitted r) = new_tx_ntfns mid).
    { rewrite Hev. unfold new_tx_ntfns. rewrite !omap_app.
      destruct (_ =? -1); cbn; rewrite ?app_nil_r; reflexivity. }
    rewrite Hm, Hn, Hmined, Hnew, Hset.
    destruct (bool_decide ({| Hash := txid; Index := idx |} ∈ before)) eqn:Hin.
    + right; left. eexists. split; [reflexivity |]. split; [reflexivity |]. cbn.
      split; [| reflexivity]. apply bool_decide_eq_true_1 in Hin. exact Hin.
    + right; right. exists {| Hash := txid; Index := idx |}.
      apply bool_decide_eq_false_1 in Hin. repeat split. exact Hin.
Qed.

End HandlerFacts.

(** ** The transaction history *)

Section HistoryFacts.
Import GoInt.

Context {Wallet : Type} {WA : WalletAPI Wallet} {WQ : WalletQueries Wallet}
  {LIB : Library} {STO : StoreLibrary} {PLAT : Platform}
  {PER : Persistence (Wallet := Wallet)}.

Implicit Type w : World (Wallet := Wallet).

Lemma AddressUsed_in_iff (s : TxStore) (pkHash : bytes) :
  AddressUsed_in s pkHash = true
  <-> exists rtx, In (TxRecv rtx) s /\ ReceiverHash rtx = pkHash.
Proof.
  induction s as [| [t | rtx] s IH]; cbn.
  - split; [discriminate | intros (rtx & [] & _)].
  - rewrite IH. split; intros (rtx & Hin & Hh); exists rtx; split; auto.
    destruct Hin as [Hin | Hin]; [discriminate | exact Hin].
  - unfold bytes_Equal. destruct (bool_decide_reflect (ReceiverHash rtx = pkHash)) as [Heq | Hne].
    + split; [intros _ | reflexivity]. exists rtx. split; [left; reflexivity | exact Heq].
    + rewrite IH. split; intros (rtx' & Hin & Hh); exists rtx'; split; auto.
      destruct Hin as [Hin | Hin]; [| exact Hin]. injection Hin as ->. contradiction.
Qed.

(** X21. [AddressUsed] answers [true] exactly when the TxStore holds a
    received transaction whose receiver hash is the given hash; sent
    transactions never count, an empty store gives [false], and the call
    changes nothing. *)
Theorem AddressUsed_iff_received (pkHash : bytes) w :
  (value (AddressUsed pkHash w) = true
   <-> exists rtx, In (TxRecv rtx) (TxStore_s (acct w)) /\ ReceiverHash rtx = pkHash)
  /\ after (AddressUsed pkHash w) = w
  /\ emitted (AddressUsed pkHash w) = [].
Proof.
  split; [| split; reflexivity]. unfold AddressUsed, get. cbn. apply AddressUsed_in_iff.
Qed.

Lemma run_eta {A} (r : Run (Wallet := Wallet) A) :
  r = {| value := value r; after := after r; emitted := emitted r |}.
Proof. destruct r. reflexivity. Qed.

(** What [NewAddress] returns: the error of [GetCurBlock], or the error
    of the key store, or the address the key store hands out. *)
Lemma NewAddress_value w :
  value (NewAddress w)
  = match (curBlock w).2 with
    | Some err => (EmptyString, Some err)
    | None =>
      match (NextChainedAddress (curBlock w).1 (wallet (acct w))).1 with
      | Ok next => (next, None)
      | Err err => (EmptyString, Some err)
      end
    end.
Proof.
  unfold NewAddress, bind, GetCurBlock, get, call_wallet. cbn.
  destruct (curBlock w) as [tip [err |]]; cbn; [reflexivity |].
  destruct (NextChainedAddress tip (wallet (acct w))) as [[next | err] k]; cbn; reflexivity.
Qed.

(** X22. [CurrentAddress] returns the error of [LastChainedAddress] with
    the empty address and does nothing else.  Otherwise, when no received
    transaction of the TxStore pays to the hash of the last chained
    address (the [nil] hash when the address does not decode), it returns
    that address with a [nil] error and changes nothing; and when one
    does, it is [NewAddress]: it returns what [NewAddress] returns, leaves
    the world [NewAddress] leaves and emits what [NewAddress] emits.  What
    comes back is then the address [NextChainedAddress] hands out (or the
    error of [GetCurBlock] or of the key store): [AddressUsed] is not asked
    about that address. *)
Theorem CurrentAddress_is_NewAddress_when_used w :
  let r := CurrentAddress w in
  match LastChainedAddress (wallet (acct w)) with
  | Err err => value r = (EmptyString, Some err) /\ after r = w /\ emitted r = []
  | Ok addr =>
    let pkHash := match DecodeAddress addr with Ok (h, _) => h | Err _ => [] end in
    ((exists rtx, In (TxRecv rtx) (TxStore_s (acct w)) /\ ReceiverHash rtx = pkHash)
     /\ r = NewAddress w
     /\ value r
        = match (curBlock w).2 with
          | Some err => (EmptyString, Some err)
          | None =>
            match (NextChainedAddress (curBlock w).1 (wallet (acct w))).1 with
            | Ok next => (next, None)
            | Err err => (EmptyString, Some err)
            end
          end)
    \/ (~ (exists rtx, In (TxRecv rtx) (TxStore_s (acct w)) /\ ReceiverHash rtx = pkHash)
        /\ value r = (addr, None) /\ after r = w /\ emitted r = [])
  end.
Proof.
  intros r. subst r.
  destruct (LastChainedAddress (wallet (acct w))) as [addr | err] eqn:E.
  - cbv zeta. set (pkHash := match DecodeAddress addr with Ok (h, _) => h | Err _ => [] end).
    pose proof (AddressUsed_in_iff (TxStore_s (acct w)) pkHash) as Hiff.
    destruct (AddressUsed_in (TxStore_s (acct w)) pkHash) eqn:Hu.
    + left. split; [apply Hiff; reflexivity |].
      assert (Heq : CurrentAddress w = NewAddress w).
      { rewrite (run_eta (NewAddress w)).
        unfold CurrentAddress, AddressUsed, bind, get. cbn [value after emitted app].
        rewrite E. cbn [value after emitted app]. fold pkHash. rewrite Hu. reflexivity. }
      split; [exact Heq |]. rewrite Heq. apply NewAddress_value.
    + right. split; [intros H; apply Hiff in H; discriminate H |].
      unfold CurrentAddress, AddressUsed, bind, get. cbn [value after emitted app].
      rewrite E. cbn [value after emitted app]. fold pkHash. rewrite Hu. repeat split.
  - unfold CurrentAddress, bind, get. cbn [value after emitted app]. rewrite E.
    repeat split.
Qed.

Lemma fold_left_app_flat_map {A B} (f : A -> list B) (l : list A) (acc : list B) :
  fold_left (fun acc e => acc ++ f e) l acc = acc ++ flat_map f l.
Proof.
  revert acc. induction l as [| x l IH]; intros acc; cbn.
  - rewrite app_nil_r. reflexivity.
  - rewrite IH, <- app_assoc. reflexivity.
Qed.

(** X23. [ListAllTransactions] returns the error of [GetCurBlock] with no
    entries; otherwise it returns, with a [nil] error, the entries of
    every record of the TxStore, the most recently added record first;
    it changes nothing. *)
Theorem ListAllTransactions_most_recent_first w :
  let r := ListAllTransactions w in
  let info := TxInfo (name (acct w)) (bsHeight (curBlock w).1) (Net (wallet (acct w))) in
  value r
  = match (curBlock w).2 with
    | Some err => ([], Some err)
    | None => (flat_map info (rev (TxStore_s (acct w))), None)
    end
  /\ after r = w /\ emitted r = [].
Proof.
  cbv zeta. unfold ListAllTransactions, bind, GetCurBlock, a_Net, get, ret. cbn.
  destruct (curBlock w) as [tip [err |]]; cbn; [repeat split |].
  rewrite fold_left_app_flat_map. repeat split.
Qed.

(** What the backwards loop of [ListTransactions] comes to, started at the
    last index of the store. *)
Lemma list_back_spec (info : TxRecord -> list json) (rs : list TxRecord)
    (from lastLookupIdx : Z) (acc : list json) :
  list_back info rs (Z.of_nat (length rs) - 1) from lastLookupIdx acc
  = if (from <? 0) && (lastLookupIdx <? 0) then Panics
    else Returns (acc ++ flat_map info
                           (take (Z.to_nat (Z.of_nat (length rs) - Z.max from lastLookupIdx))
                              rs)).
Proof.
  revert acc. induction rs as [| e rs IH]; intros acc.
  - cbn [list_back length]. change (Z.of_nat 0 - 1) with (-1).
    destruct (Z.leb_spec from (-1)), (Z.leb_spec lastLookupIdx (-1)),
      (Z.ltb_spec from 0), (Z.ltb_spec lastLookupIdx 0); try lia; cbn;
      rewrite ?take_nil, ?app_nil_r; reflexivity.
  - cbn [list_back length].
    replace (Z.of_nat (S (length rs)) - 1 - 1) with (Z.of_nat (length rs) - 1) by lia.
    rewrite IH.
    destruct (Z.leb_spec from (Z.of_nat (S (length rs)) - 1)),
      (Z.leb_spec lastLookupIdx (Z.of_nat (S (length rs)) - 1)),
      (Z.ltb_spec from 0), (Z.ltb_spec lastLookupIdx 0); cbn [andb]; try lia;
      try reflexivity.
    all: try (replace (Z.to_nat (Z.of_nat (S (length rs)) - Z.max from lastLookupIdx))
               with (S (Z.to_nat (Z.of_nat (length rs) - Z.max from lastLookupIdx))) by lia;
              cbn [take flat_map]; rewrite <- app_assoc; reflexivity).
    all: replace (Z.to_nat (Z.of_nat (S (length rs)) - Z.max from lastLookupIdx))
           with 0%nat by lia; cbn; rewrite app_nil_r; reflexivity.
Qed.

Lemma wrap_signed_small (bits z : Z) :
  0 < bits -> - 2 ^ (bits - 1) <= z < 2 ^ (bits - 1) -> wrap_signed bits z = z.
Proof.
  intros Hb Hz. unfold wrap_signed.
  replace (2 ^ bits) with (2 * 2 ^ (bits - 1))
    by (rewrite <- (Z.pow_succ_r 2 (bits - 1)) by lia; f_equal; lia).
  rewrite Z.mod_small; lia.
Qed.

Lemma ListTransactions_value (from count : Z) w :
  let s := TxStore_s (acct w) in
  let len := Z.of_nat (length s) in
  let lastLookupIdx := wrap_signed int_bits (len - count) in
  let info := TxInfo (name (acct w)) (bsHeight (curBlock w).1) (Net (wallet (acct w))) in
  value (ListTransactions from count w)
  = match (curBlock w).2 with
    | Some err => Returns ([], Some err)
    | None =>
      if (from <? 0) && (lastLookupIdx <? 0) then Panics
      else Returns
             (flat_map info (take (Z.to_nat (len - Z.max from lastLookupIdx)) (rev s)), None)
    end.
Proof.
  cbv zeta. unfold ListTransactions, bind, GetCurBlock, a_Net, get, ret. cbn.
  destruct (curBlock w) as [tip [err |]]; cbn; [reflexivity |].
  match goal with
  | |- context [list_back ?info ?rs _ ?from ?last ?acc] =>
    pose proof (list_back_spec info rs from last acc) as Hloop
  end.
  rewrite length_rev in Hloop. rewrite Hloop.
  destruct ((from <? 0) && (_ <? 0)); reflexivity.
Qed.

Lemma ListTransactions_reads (from count : Z) w :
  after (ListTransactions from count w) = w /\ emitted (ListTransactions from count w) = [].
Proof.
  unfold ListTransactions, bind, GetCurBlock, a_Net, get, ret. cbn.
  destruct (curBlock w) as [tip [err |]]; cbn; [split; reflexivity |].
  destruct (list_back _ _ _ _ _ _); split; reflexivity.
Qed.

(** X24. [ListTransactions from count] returns the error of
    [GetCurBlock] with no entries.  Otherwise, with [lastLookupIdx] the
    difference [len - count] as an [int], it reads the records of index
    at least [from] and at least [lastLookupIdx], from the last record of
    the store downwards, and returns their entries in that order: [from]
    is a lowest index, not a number of records to skip.  When both bounds
    are negative the loop goes on to index -1 and the call panics.  It
    changes nothing. *)
Theorem ListTransactions_window (from count : Z) w :
  let s := TxStore_s (acct w) in
  let len := Z.of_nat (length s) in
  let lastLookupIdx := wrap_signed int_bits (len - count) in
  let info := TxInfo (name (acct w)) (bsHeight (curBlock w).1) (Net (wallet (acct w))) in
  let r := ListTransactions from count w in
  value r
  = match (curBlock w).2 with
    | Some err => Returns ([], Some err)
    | None =>
      if (from <? 0) && (lastLookupIdx <? 0) then Panics
      else Returns
             (flat_map info (take (Z.to_nat (len - Z.max from lastLookupIdx)) (rev s)), None)
    end
  /\ after r = w /\ emitted r = [].
Proof.
  cbv zeta. split; [apply ListTransactions_value | apply ListTransactions_reads].
Qed.

(** X25. With a count that is not negative, [ListTransactions 0 count]
    returns the error of [GetCurBlock] with no entries, and otherwise the
    entries of the [count] most recently added records, the most recent
    first, or of all the records when there are fewer; when the count is
    at least the number of records it returns what [ListAllTransactions]
    returns. *)
Theorem ListTransactions_most_recent (count : Z) w :
  0 < int_bits ->
  Z.of_nat (length (TxStore_s (acct w))) < 2 ^ (int_bits - 1) ->
  0 <= count <= 2 ^ (int_bits - 1) ->
  let info := TxInfo (name (acct w)) (bsHeight (curBlock w).1) (Net (wallet (acct w))) in
  value (ListTransactions 0 count w)
  = Returns match (curBlock w).2 with
            | Some err => ([], Some err)
            | None =>
              (flat_map info (take (Z.to_nat count) (rev (TxStore_s (acct w)))), None)
            end
  /\ (count < Z.of_nat (length (TxStore_s (acct w)))
      \/ value (ListTransactions 0 count w) = Returns (value (ListAllTransactions w))).
Proof.
  intros Hbits Hlen Hcount info.
  assert (Hv : value (ListTransactions 0 count w)
               = Returns match (curBlock w).2 with
                         | Some err => ([], Some err)
                         | None =>
                           (flat_map info
                              (take (Z.to_nat count) (rev (TxStore_s (acct w)))), None)
                         end).
  { rewrite ListTransactions_value. cbv zeta.
    destruct (curBlock w).2 as [err |]; [reflexivity |].
    rewrite wrap_signed_small by lia. change (0 <? 0) with false. cbn [andb].
    f_equal. f_equal. f_equal.
    destruct (Z.le_gt_cases count (Z.of_nat (length (TxStore_s (acct w))))) as [Hle | Hgt].
    - f_equal. lia.
    - rewrite !take_ge by (rewrite length_rev; lia). reflexivity. }
  split; [exact Hv |].
  destruct (Z.lt_ge_cases count (Z.of_nat (length (TxStore_s (acct w))))) as [Hlt | Hge];
    [left; exact Hlt | right].
  rewrite Hv. f_equal.
  unfold ListAllTransactions, bind, GetCurBlock, a_Net, get, ret. cbn.
  destruct (curBlock w) as [tip [err |]]; cbn; [reflexivity |].
  rewrite fold_left_app_flat_map, take_ge by (rewrite length_rev; lia). reflexivity.
Qed.

(** X26. With a known chain tip, [ListTransactions] with a negative
    [from] and a count above the number of records reads the store down
    to index -1: it panics instead of returning. *)
Theorem ListTransactions_panics_below_zero (from count : Z) w :
  0 < int_bits ->
  (curBlock w).2 = None ->
  from < 0 ->
  Z.of_nat (length (TxStore_s (acct w))) < count <= 2 ^ (int_bits - 1) ->
  value (ListTransactions from count w) = Panics.
Proof.
  intros Hbits Htip Hfrom Hcount. rewrite ListTransactions_value, Htip. cbv zeta.
  rewrite wrap_signed_small by lia.
  destruct (Z.ltb_spec from 0), (Z.ltb_spec (Z.of_nat (length (TxStore_s (acct w))) - count) 0);
    try lia. reflexivity.
Qed.

Lemma ListAddressTransactions_fold (pkHashes : gset bytes) (f : RecvTx -> json)
    (s : TxStore) (acc : list json) :
  fold_left
    (fun txInfoList e =>
       match e with
       | TxRecv rtx =>
         if bool_decide (ReceiverHash rtx ∈ pkHashes) then txInfoList ++ [f rtx]
         else txInfoList
       | TxSend _ => txInfoList
       end) s acc
  = acc ++ map f (List.filter (fun t => bool_decide (ReceiverHash t ∈ pkHashes)) (received s)).
Proof.
  revert acc. induction s as [| [t | rtx] s IH]; intros acc; cbn.
  - rewrite app_nil_r. reflexivity.
  - apply IH.
  - rewrite IH. unfold received. cbn.
    destruct (bool_decide (ReceiverHash rtx ∈ pkHashes)); cbn; [| reflexivity].
    rewrite <- app_assoc. reflexivity.
Qed.

(** X27. [ListAddressTransactions] returns the error of [GetCurBlock]
    with no entries; otherwise it returns, with a [nil] error, one entry
    for each received transaction whose receiver hash belongs to the set,
    in the order of the store, the oldest first, and nothing for sent
    transactions; it changes nothing. *)
Theorem ListAddressTransactions_received_only (pkHashes : gset bytes) w :
  let r := ListAddressTransactions pkHashes w in
  let info t :=
    RecvTx_TxInfo t (name (acct w)) (bsHeight (curBlock w).1) (Net (wallet (acct w))) in
  value r
  = match (curBlock w).2 with
    | Some err => ([], Some err)
    | None =>
      (map info (List.filter (fun t => bool_decide (ReceiverHash t ∈ pkHashes))
                   (received (TxStore_s (acct w)))), None)
    end
  /\ after r = w /\ emitted r = [].
Proof.
  cbv zeta. unfold ListAddressTransactions, bind, GetCurBlock, a_Net, get, ret. cbn.
  destruct (curBlock w) as [tip [err |]]; cbn; [repeat split |].
  rewrite ListAddressTransactions_fold. repeat split.
Qed.

End HistoryFacts.

(** ** Private keys and rollbacks *)

Section KeyFacts.

Context {Wallet : Type} {WA : WalletAPI Wallet} {WQ : WalletQueries Wallet}
  {STO : StoreLibrary} {PER : Persistence (Wallet := Wallet)}.

Implicit Type w : World (Wallet := Wallet).

Lemma DumpPrivKeys_from_spec (k : Wallet) (infos : list AddressInfo) (privkeys : list string) :
  match DumpPrivKeys_from k infos privkeys with
  | (keys, None) => exists encs, keys = privkeys ++ encs /\ Forall2 (wif_of k) infos encs
  | (keys, Some err) => keys = [] /\ exists addr, In addr infos /\ wif_fails k addr err
  end.
Proof.
  revert privkeys. induction infos as [| addr infos IH]; intros privkeys; cbn.
  - exists []. split; [rewrite app_nil_r; reflexivity | constructor].
  - destruct (AddressKey (Address addr) k) as [key | err] eqn:Hkey.
    + destruct (EncodePrivateKey key (Net k) (Compressed addr)) as [encKey | err] eqn:Henc.
      * specialize (IH (privkeys ++ [encKey])).
        destruct (DumpPrivKeys_from k infos (privkeys ++ [encKey])) as [keys [err |]].
        -- destruct IH as (-> & a & Hin & Hf). split; [reflexivity |].
           exists a. split; [right; exact Hin | exact Hf].
        -- destruct IH as (encs & -> & Hall). exists (encKey :: encs).
           split; [rewrite <- app_assoc; reflexivity |].
           constructor; [exists key; split; assumption | exact Hall].
      * split; [reflexivity |]. exists addr. split; [left; reflexivity |].
        right. exists key. split; assumption.
    + split; [reflexivity |]. exists addr. split; [left; reflexivity |].
      left. exact Hkey.
Qed.

(** X28. [DumpPrivKeys] gives all the keys or none.  With a [nil] error
    it returns one WIF string for each active address, in the order of
    the addresses, each the encoding of the key of its address for the
    account's network and with the address's compression flag.  With an
    error it returns no key at all, and the error is the one of the key
    lookup or of the encoding of some active address.  It changes
    nothing. *)
Theorem DumpPrivKeys_all_or_nothing w :
  let k := wallet (acct w) in
  let r := DumpPrivKeys w in
  match (value r).2 with
  | None =>
    Forall2 (wif_of k) (ActiveAddresses k) (value r).1
    /\ length (value r).1 = length (ActiveAddresses k)
  | Some err =>
    (value r).1 = [] /\ exists addr, In addr (ActiveAddresses k) /\ wif_fails k addr err
  end
  /\ after r = w /\ emitted r = [].
Proof.
  cbv zeta. split; [| split; reflexivity].
  unfold DumpPrivKeys, bind, get, ret. cbn.
  pose proof (DumpPrivKeys_from_spec (wallet (acct w)) (ActiveAddresses (wallet (acct w))) [])
    as H.
  destruct (DumpPrivKeys_from _ _ _) as [keys [err |]]; cbn.
  - exact H.
  - destruct H as (encs & -> & Hall). cbn. split; [exact Hall |].
    symmetry. apply (Forall2_length _ _ _ Hall).
Qed.

(** X29. When [DumpPrivKeys] succeeds, [DumpWIFPrivateKey] of an active
    address whose address info has the compression flag of the active
    entry returns, with a [nil] error, the key that [DumpPrivKeys] lists
    at the place of that address. *)
Theorem DumpWIFPrivateKey_agrees_with_DumpPrivKeys w (i : nat) (addr info : AddressInfo) :
  (value (DumpPrivKeys w)).2 = None ->
  ActiveAddresses (wallet (acct w)) !! i = Some addr ->
  Wallet_AddressInfo (Address addr) (wallet (acct w)) = Ok info ->
  Compressed info = Compressed addr ->
  exists encKey,
    (value (DumpPrivKeys w)).1 !! i = Some encKey
    /\ value (DumpWIFPrivateKey (Address addr) w) = (encKey, None).
Proof.
  intros Hok Hi Hinfo Hcomp.
  unfold DumpPrivKeys, bind, get, ret in Hok |- *. cbn in Hok |- *.
  pose proof (DumpPrivKeys_from_spec (wallet (acct w)) (ActiveAddresses (wallet (acct w))) [])
    as H.
  destruct (DumpPrivKeys_from _ _ _) as [keys [err |]]; [discriminate Hok |].
  destruct H as (encs & -> & Hall). cbn.
  destruct (Forall2_lookup_l _ _ _ _ _ Hall Hi) as (encKey & Henc & key & Hkey & Hwif).
  exists encKey. split; [exact Henc |].
  unfold DumpWIFPrivateKey, bind, get. cbn. rewrite Hkey, Hinfo, Hcomp, Hwif. reflexivity.
Qed.


End KeyFacts.

(** * The other methods run on the sample wallet *)

Section MoreRuns.
Import Sample SampleRest.

#[local] Existing Instance wallet_api.
#[local] Existing Instance library.
#[local] Existing Instance wallet_queries.
#[local] Existing Instance store_library.
#[local] Existing Instance amd64.

Lemma lookup_after_mark_sample :
  let w := world 100 [] in
  let w' := after (MarkAddressForAccount "addr-a" "savings" w) in
  "addr-b" <> "addr-a"
  /\ value (LookupAccountByAddress "addr-a" w') = ("savings", None)
  /\ value (LookupAccountByAddress "addr-b" w') = value (LookupAccountByAddress "addr-b" w).
Proof.
  assert (Hne : "addr-b" <> "addr-a") by discriminate.
  split; [exact Hne |].
  destruct (lookup_after_mark "addr-a" "savings" "addr-b" (world 100 [])) as [Hsame Hother].
  split; [exact Hsame | exact (Hother Hne)].
Defined.

Lemma address_balance_at_most_account_balance_sample :
  let w := world 100 [utxoA; utxoB] in
  no_overflow (UtxoStore_s (acct w))
  /\ F64.leb (value (CalculateAddressBalance (pkhash x0a) 1 w)) (value (CalculateBalance 1 w))
     = true.
Proof.
  assert (Hno : no_overflow (UtxoStore_s (acct (world 100 [utxoA; utxoB]))))
    by (split; [repeat constructor; vm_compute; discriminate | vm_compute; reflexivity]).
  split; [exact Hno |].
  exact (address_balance_at_most_account_balance (world 100 [utxoA; utxoB]) 1 (pkhash x0a) Hno).
Defined.

Lemma balance_decreases_with_confirms_sample :
  let w := world 100 [utxoA; utxoB] in
  (1 <= 6 /\ 6 <> 0 /\ no_overflow (UtxoStore_s (acct w)))
  /\ F64.leb (value (CalculateBalance 6 w)) (value (CalculateBalance 1 w)) = true
  /\ F64.leb (value (CalculateAddressBalance (pkhash x0a) 6 w))
       (value (CalculateAddressBalance (pkhash x0a) 1 w)) = true.
Proof.
  assert (Hle : 1 <= 6) by lia.
  assert (Hne : 6 <> 0) by lia.
  assert (Hno : no_overflow (UtxoStore_s (acct (world 100 [utxoA; utxoB]))))
    by (split; [repeat constructor; vm_compute; discriminate | vm_compute; reflexivity]).
  split; [exact (conj Hle (conj Hne Hno)) |].
  exact (balance_decreases_with_confirms (world 100 [utxoA; utxoB]) 1 6 (pkhash x0a)
           Hle Hne Hno).
Defined.

Lemma balances_ignore_store_order_sample :
  let w := world 100 [utxoA; utxoB] in
  let w' := world 100 [utxoB; utxoA] in
  (curBlock w' = curBlock w /\ UtxoStore_s (acct w') ≡ₚ UtxoStore_s (acct w))
  /\ value (CalculateBalance 1 w') = value (CalculateBalance 1 w)
  /\ value (CalculateAddressBalance (pkhash x0a) 1 w')
     = value (CalculateAddressBalance (pkhash x0a) 1 w).
Proof.
  assert (Htip : curBlock (world 100 [utxoB; utxoA]) = curBlock (world 100 [utxoA; utxoB]))
    by reflexivity.
  assert (Hperm : UtxoStore_s (acct (world 100 [utxoB; utxoA]))
                  ≡ₚ UtxoStore_s (acct (world 100 [utxoA; utxoB])))
    by exact (perm_swap utxoA utxoB []).
  split; [exact (conj Htip Hperm) |].
  exact (balances_ignore_store_order (world 100 [utxoA; utxoB]) (world 100 [utxoB; utxoA]) 1
           (pkhash x0a) Htip Hperm).
Defined.

Lemma unconfirmed_output_counts_at_zero_only_sample :
  let w := world 100 [utxoA] in
  let w' := world 100 [utxoA; utxoB] in
  (curBlock w' = curBlock w
   /\ UtxoStore_s (acct w') ≡ₚ utxoB :: UtxoStore_s (acct w)
   /\ Height utxoB = -1 /\ 1 <> 0)
  /\ value (CalculateBalance 1 w') = value (CalculateBalance 1 w)
  /\ value (CalculateAddressBalance (pkhash x0a) 1 w')
     = value (CalculateAddressBalance (pkhash x0a) 1 w).
Proof.
  assert (Htip : curBlock (world 100 [utxoA; utxoB]) = curBlock (world 100 [utxoA]))
    by reflexivity.
  assert (Hperm : UtxoStore_s (acct (world 100 [utxoA; utxoB]))
                  ≡ₚ utxoB :: UtxoStore_s (acct (world 100 [utxoA])))
    by exact (perm_swap utxoB utxoA []).
  assert (Hh : Height utxoB = -1) by reflexivity.
  assert (Hc : 1 <> 0) by lia.
  split; [exact (conj Htip (conj Hperm (conj Hh Hc))) |].
  exact (unconfirmed_output_counts_at_zero_only (world 100 [utxoA]) (world 100 [utxoA; utxoB])
           utxoB 1 (pkhash x0a) Htip Hperm Hh Hc).
Defined.

Lemma newBlockTxOutHandler_drops_unusable_sample :
  let w := world 100 [utxoA] in
  let v := delete "amount" (ntfn 95 false) in
  let r := newBlockTxOutHandler (JObject v) None w in
  field_unusable v "amount"
  /\ after r = w /\ value r = false
  /\ exists format args, emitted r = [Log LError format args].
Proof.
  assert (Hk : field_unusable (delete "amount" (ntfn 95 false)) "amount").
  { right. split; [cbn; tauto | vm_compute; reflexivity]. }
  split; [exact Hk |].
  exact (newBlockTxOutHandler_drops_unusable (delete "amount" (ntfn 95 false)) "amount" None
           (world 100 [utxoA]) Hk).
Defined.

Lemma spent_output_is_not_stored_sample :
  let w := world 100 [utxoA] in
  let r := newBlockTxOutHandler (JObject (ntfn 95 true)) None w in
  as_bool (ntfn 95 true !! "spent") = Some true
  /\ UtxoStore_s (acct (after r)) = UtxoStore_s (acct w)
  /\ value (CalculateBalance 0 (after r)) = value (CalculateBalance 0 w).
Proof.
  assert (Hs : as_bool (ntfn 95 true !! "spent") = Some true) by (vm_compute; reflexivity).
  split; [exact Hs |].
  destruct (spent_output_is_not_stored (ntfn 95 true) None (world 100 [utxoA]) 0 (pkhash x0a)
              Hs) as (Hstore & _ & Hbal & _).
  split; [exact Hstore | exact Hbal].
Defined.

Lemma ListTransactions_most_recent_sample :
  let w := with_history history (world 100 []) in
  (0 < int_bits
   /\ Z.of_nat (length (TxStore_s (acct w))) < 2 ^ (int_bits - 1)
   /\ 0 <= 2 <= 2 ^ (int_bits - 1))
  /\ value (ListTransactions 0 2 w)
     = Returns (flat_map (TxInfo "savings" 100 mainnet) [TxRecv (recv x0b (-1));
                                                        TxSend {| SendTxID := hash_of xcc |}],
                None).
Proof.
  assert (Hbits : 0 < int_bits) by reflexivity.
  assert (Hlen : Z.of_nat (length (TxStore_s (acct (with_history history (world 100 [])))))
                 < 2 ^ (int_bits - 1)) by reflexivity.
  assert (Hcount : 0 <= 2 <= 2 ^ (int_bits - 1)) by (split; discriminate).
  split; [exact (conj Hbits (conj Hlen Hcount)) |].
  exact (proj1 (ListTransactions_most_recent 2 (with_history history (world 100 []))
                  Hbits Hlen Hcount)).
Defined.

Lemma ListTransactions_panics_below_zero_sample :
  let w := with_history history (world 100 []) in
  (0 < int_bits /\ (curBlock w).2 = None /\ -1 < 0
   /\ Z.of_nat (length (TxStore_s (acct w))) < 4 <= 2 ^ (int_bits - 1))
  /\ value (ListTransactions (-1) 4 w) = Panics.
Proof.
  assert (Hbits : 0 < int_bits) by reflexivity.
  assert (Htip : (curBlock (with_history history (world 100 []))).2 = None) by reflexivity.
  assert (Hfrom : -1 < 0) by reflexivity.
  assert (Hcount : Z.of_nat (length (TxStore_s (acct (with_history history (world 100 [])))))
                   < 4 <= 2 ^ (int_bits - 1)) by (split; [reflexivity | discriminate]).
  split; [exact (conj Hbits (conj Htip (conj Hfrom Hcount))) |].
  exact (ListTransactions_panics_below_zero (-1) 4 (with_history history (world 100 []))
           Hbits Htip Hfrom Hcount).
Defined.

Lemma DumpWIFPrivateKey_agrees_with_DumpPrivKeys_sample :
  let w := world 100 [] in
  let a := {| Address := "addr-a"; Compressed := true |} in
  ((value (DumpPrivKeys w)).2 = None
   /\ ActiveAddresses (wallet (acct w)) !! 0%nat = Some a
   /\ Wallet_AddressInfo (Address a) (wallet (acct w)) = Ok a
   /\ Compressed a = Compressed a)
  /\ exists encKey,
       (value (DumpPrivKeys w)).1 !! 0%nat = Some encKey
       /\ value (DumpWIFPrivateKey "addr-a" w) = (encKey, None).
Proof.
  assert (Hok : (value (DumpPrivKeys (world 100 []))).2 = None) by reflexivity.
  assert (Hi : ActiveAddresses (wallet (acct (world 100 []))) !! 0%nat
               = Some {| Address := "addr-a"; Compressed := true |}) by reflexivity.
  assert (Hinfo : Wallet_AddressInfo "addr-a" (wallet (acct (world 100 [])))
                  = Ok {| Address := "addr-a"; Compressed := true |}) by reflexivity.
  assert (Hcomp : Compressed {| Address := "addr-a"; Compressed := true |}
                  = Compressed {| Address := "addr-a"; Compressed := true |}) by reflexivity.
  split; [exact (conj Hok (conj Hi (conj Hinfo Hcomp))) |].
  exact (DumpWIFPrivateKey_agrees_with_DumpPrivKeys (world 100 []) 0
           {| Address := "addr-a"; Compressed := true |}
           {| Address := "addr-a"; Compressed := true |} Hok Hi Hinfo Hcomp).
Defined.

End MoreRuns.
